(** * Recipe search application and chat relay: a shallow embedding

    The repository holds two revisions of a React single-page application
    ([src/index.tsx] and [src/unnamed/part_000]) and two revisions of an edge
    function relaying chat requests ([src/api/chat.js] and
    [src/unnamed/part_001]).  The event handlers of the application and the
    relay handler are embedded here as functions on explicit state; the
    generative-AI provider, [fetch], [localStorage] and the DOM are inputs
    of these functions. *)

From Stdlib Require Import ZArith NArith List Bool Lia String Ascii.
From stdpp Require Import base option list gmap pretty.

Local Open Scope N_scope.

(** ** ECMAScript strings

    A JavaScript string is a finite sequence of 16-bit code units.  String
    literals of the sources are written [js "..."], which decodes the UTF-8
    bytes of the literal into UTF-16 code units. *)

Abbreviation jsstring := (list N).

Definition utf16_units (cp : N) : jsstring :=
  if cp <? 0x10000 then [cp]
  else let c := cp - 0x10000 in
       [0xD800 + N.shiftr c 10; 0xDC00 + N.land c 0x3FF].

Definition cont (b : N) : N := N.land b 0x3F.

Fixpoint utf8_points (bs : list N) : list N :=
  match bs with
  | [] => []
  | b0 :: r0 =>
    if b0 <? 0x80 then b0 :: utf8_points r0
    else match r0 with
    | [] => []
    | b1 :: r1 =>
      if b0 <? 0xE0
      then N.lor (N.shiftl (N.land b0 0x1F) 6) (cont b1) :: utf8_points r1
      else match r1 with
      | [] => []
      | b2 :: r2 =>
        if b0 <? 0xF0
        then N.lor (N.shiftl (N.land b0 0x0F) 12)
                   (N.lor (N.shiftl (cont b1) 6) (cont b2)) :: utf8_points r2
        else match r2 with
        | [] => []
        | b3 :: r3 =>
          N.lor (N.shiftl (N.land b0 0x07) 18)
                (N.lor (N.shiftl (cont b1) 12)
                       (N.lor (N.shiftl (cont b2) 6) (cont b3)))
            :: utf8_points r3
        end
      end
    end
  end.

Definition js (s : string) : jsstring :=
  flat_map utf16_units
           (utf8_points (map N_of_ascii (list_ascii_of_string s))).
Arguments js : simpl never.

(** [ToBoolean] of a string: only the empty string is falsy. *)
Definition truthy_string (s : jsstring) : bool :=
  match s with [] => false | _ :: _ => true end.

(** [a || b] on strings. *)
Definition or_string (a b : jsstring) : jsstring :=
  if truthy_string a then a else b.

(** The code units [String.prototype.trim] removes: WhiteSpace and
    LineTerminator of ECMA-262. *)
Definition isWhiteSpace (c : N) : bool :=
  (c =? 0x09) || (c =? 0x0A) || (c =? 0x0B) || (c =? 0x0C) || (c =? 0x0D)
  || (c =? 0x20) || (c =? 0xA0) || (c =? 0x1680)
  || ((0x2000 <=? c) && (c <=? 0x200A))
  || (c =? 0x2028) || (c =? 0x2029) || (c =? 0x202F) || (c =? 0x205F)
  || (c =? 0x3000) || (c =? 0xFEFF).

Fixpoint trimStart (s : jsstring) : jsstring :=
  match s with
  | c :: r => if isWhiteSpace c then trimStart r else s
  | [] => []
  end.

Definition trimEnd (s : jsstring) : jsstring := rev (trimStart (rev s)).

Definition trim (s : jsstring) : jsstring := trimEnd (trimStart s).

Fixpoint startsWith (s search : jsstring) : bool :=
  match search, s with
  | [], _ => true
  | _ :: _, [] => false
  | x :: search', c :: s' => (c =? x) && startsWith s' search'
  end.

(** [s.includes(search)] *)
Fixpoint includes (s search : jsstring) : bool :=
  startsWith s search
  || match s with [] => false | _ :: r => includes r search end.

(** [Number::toString] of an integer. *)
Definition Number_toString (n : Z) : jsstring := js (pretty n).

(** ** Filters (both revisions of the application)

<<
interface FilterState {
  cuisine: string; timeLimit: string; difficulty: string; mainIngredient: string;
}
>> *)

Record FilterState := mkFilters {
  cuisine : jsstring;
  timeLimit : jsstring;
  difficulty : jsstring;
  mainIngredient : jsstring
}.

(** [keyof FilterState] *)
Inductive FilterKey := Kcuisine | KtimeLimit | Kdifficulty | KmainIngredient.

Global Instance FilterKey_eq_dec : EqDecision FilterKey.
Proof. solve_decision. Defined.

(** [prev[key]] *)
Definition filter_get (key : FilterKey) (f : FilterState) : jsstring :=
  match key with
  | Kcuisine => cuisine f
  | KtimeLimit => timeLimit f
  | Kdifficulty => difficulty f
  | KmainIngredient => mainIngredient f
  end.

(** [{ ...prev, [key]: v }] *)
Definition filter_set (key : FilterKey) (v : jsstring) (f : FilterState)
  : FilterState :=
  match key with
  | Kcuisine => mkFilters v (timeLimit f) (difficulty f) (mainIngredient f)
  | KtimeLimit => mkFilters (cuisine f) v (difficulty f) (mainIngredient f)
  | Kdifficulty => mkFilters (cuisine f) (timeLimit f) v (mainIngredient f)
  | KmainIngredient => mkFilters (cuisine f) (timeLimit f) (difficulty f) v
  end.

(** The updater handed to [setFilters] by [toggleFilter]:
<<
prev => ({ ...prev, [key]: prev[key] === value ? '' : value })
>> *)
Definition toggleFilter (key : FilterKey) (value : jsstring)
           (prev : FilterState) : FilterState :=
  filter_set key (if decide (filter_get key prev = value) then [] else value)
             prev.

Set Warnings "-register-all".

(** ** ECMAScript values

    The values that [JSON.parse] produces, and [undefined].  A number is
    identified with the string [Number::toString] gives for it (each finite
    double has exactly one; both zeros print as 0), so that no floating-point
    arithmetic is needed.  An object is the list of its own enumerable
    properties in enumeration order. *)

Inductive value :=
| JUndefined
| JNull
| JBool (b : bool)
| JNumber (repr : jsstring)
| JString (s : jsstring)
| JArray (elements : list value)
| JObject (props : list (jsstring * value)).

(** A thrown value or the reason of a rejected promise, as far as the
    sources look at it: [err.message], which is [undefined] or a string. *)
Record JsError := mkError { message : option jsstring }.

(** The completion of a call that may throw, or the settlement of a
    promise. *)
Inductive Outcome (A : Type) :=
| Ok (a : A)
| Throw (err : JsError).
Arguments Ok {A} a.
Arguments Throw {A} err.

(** [ToBoolean] *)
Definition truthy (v : value) : bool :=
  match v with
  | JUndefined | JNull => false
  | JBool b => b
  | JNumber repr =>
      negb (bool_decide (repr = js "0")) && negb (bool_decide (repr = js "NaN"))
  | JString s => truthy_string s
  | JArray _ | JObject _ => true
  end.

(** [String(x)] of an optional string ([undefined] prints as such). *)
Definition template_string (x : option jsstring) : jsstring :=
  match x with Some s => s | None => js "undefined" end.

Fixpoint obj_lookup (k : jsstring) (props : list (jsstring * value))
  : option value :=
  match props with
  | [] => None
  | (k', v) :: r => if decide (k' = k) then Some v else obj_lookup k r
  end.

(** [ToString], as a template literal applies it to an interpolated
    value; [None] when it throws a [TypeError].  An object is converted
    by its method [toString]: that of [Object.prototype] unless the
    object has an own property of the name, which in a parsed value is
    never callable, so that the conversion finds no primitive and throws.
    An array joins its elements, [undefined] and [null] as nothing. *)
Fixpoint ToString (v : value) : option jsstring :=
  match v with
  | JUndefined => Some (js "undefined")
  | JNull => Some (js "null")
  | JBool true => Some (js "true")
  | JBool false => Some (js "false")
  | JNumber repr => Some repr
  | JString s => Some s
  | JArray elements =>
      (fix join (l : list value) : option jsstring :=
         match l with
         | [] => Some []
         | x :: r =>
             match match x with
                   | JUndefined | JNull => Some []
                   | _ => ToString x
                   end, join r with
             | Some first, Some rest =>
                 Some (first ++ match r with
                                | [] => []
                                | _ :: _ => js "," ++ rest
                                end)
             | _, _ => None
             end
         end) elements
  | JObject props =>
      match obj_lookup (js "toString") props with
      | Some _ => None
      | None => Some (js "[object Object]")
      end
  end.

(** [o[k]] on a property list: a missing property reads [undefined]. *)
Definition obj_get (k : jsstring) (props : list (jsstring * value)) : value :=
  default JUndefined (obj_lookup k props).

(** [o[k] = v]: an existing property keeps its place, a new one (whose
    name is not an array index) goes last. *)
Fixpoint obj_set (k : jsstring) (v : value) (props : list (jsstring * value))
  : list (jsstring * value) :=
  match props with
  | [] => [(k, v)]
  | (k', v') :: r =>
      if decide (k' = k) then (k, v) :: r else (k', v') :: obj_set k v r
  end.

(** [o.k] on an object built by the sources. *)
Definition field (k : jsstring) (o : value) : value :=
  match o with
  | JObject props => obj_get k props
  | _ => JUndefined
  end.

(** The own enumerable properties an object spread [{...v}] copies. *)
Definition own_props (v : value) : list (jsstring * value) :=
  match v with
  | JObject props => props
  | JArray elements =>
      imap (fun i x => (Number_toString (Z.of_nat i), x)) elements
  | JString s =>
      imap (fun i c => (Number_toString (Z.of_nat i), JString [c])) s
  | JUndefined | JNull | JBool _ | JNumber _ => []
  end.

(** [v.k] for a property name found on no prototype; [None] when the read
    throws a [TypeError], which it does on [null] and [undefined]. *)
Definition get_prop (v : value) (k : jsstring) : option value :=
  match v with
  | JUndefined | JNull => None
  | JObject props => Some (obj_get k props)
  | JBool _ | JNumber _ | JString _ | JArray _ => Some JUndefined
  end.

(** *** JSON.stringify *)

Definition hex_digit (d : N) : N :=
  if d <? 10 then 0x30 + d else 0x61 + (d - 10).

(** [\uXXXX] with lower-case digits (UnicodeEscape). *)
Definition UnicodeEscape (c : N) : jsstring :=
  [0x5C; 0x75; hex_digit (N.land (N.shiftr c 12) 0xF);
   hex_digit (N.land (N.shiftr c 8) 0xF);
   hex_digit (N.land (N.shiftr c 4) 0xF); hex_digit (N.land c 0xF)].

Definition escape_unit (c : N) : jsstring :=
  if c =? 0x08 then js "\b"
  else if c =? 0x09 then js "\t"
  else if c =? 0x0A then js "\n"
  else if c =? 0x0C then js "\f"
  else if c =? 0x0D then js "\r"
  else if c =? 0x22 then [0x5C; 0x22]
  else if c =? 0x5C then [0x5C; 0x5C]
  else if c <? 0x20 then UnicodeEscape c
  else [c].

Definition isLeadingSurrogate (c : N) : bool := (0xD800 <=? c) && (c <=? 0xDBFF).
Definition isTrailingSurrogate (c : N) : bool := (0xDC00 <=? c) && (c <=? 0xDFFF).

Fixpoint quote_units (s : jsstring) : jsstring :=
  match s with
  | [] => []
  | c :: r =>
      if isLeadingSurrogate c then
        match r with
        | d :: r' =>
            if isTrailingSurrogate d then c :: d :: quote_units r'
            else UnicodeEscape c ++ quote_units r
        | [] => UnicodeEscape c
        end
      else if isTrailingSurrogate c then UnicodeEscape c ++ quote_units r
      else escape_unit c ++ quote_units r
  end.

Definition QuoteJSONString (s : jsstring) : jsstring :=
  [0x22] ++ quote_units s ++ [0x22].

Fixpoint join_with (sep : jsstring) (l : list jsstring) : jsstring :=
  match l with
  | [] => []
  | [x] => x
  | x :: r => x ++ sep ++ join_with sep r
  end.

Definition finite_repr (repr : jsstring) : bool :=
  negb (bool_decide (repr = js "Infinity"))
  && negb (bool_decide (repr = js "-Infinity"))
  && negb (bool_decide (repr = js "NaN")).

(** [JSON.stringify(v)] without replacer or indentation; [None] is
    [undefined]. *)
Fixpoint JSON_stringify (v : value) : option jsstring :=
  match v with
  | JUndefined => None
  | JNull => Some (js "null")
  | JBool true => Some (js "true")
  | JBool false => Some (js "false")
  | JNumber repr => Some (if finite_repr repr then repr else js "null")
  | JString s => Some (QuoteJSONString s)
  | JArray elements =>
      Some (js "[" ++
            join_with (js ",")
              (map (fun x => default (js "null") (JSON_stringify x)) elements)
            ++ js "]")
  | JObject props =>
      Some (js "{" ++
            join_with (js ",")
              ((fix members (l : list (jsstring * value)) : list jsstring :=
                  match l with
                  | [] => []
                  | (k, x) :: r =>
                      match JSON_stringify x with
                      | Some t => (QuoteJSONString k ++ js ":" ++ t) :: members r
                      | None => members r
                      end
                  end) props)
            ++ js "}")
  end.

(** ** The generative-AI client (package [@google/genai])

    Requests and responses as far as the sources build and read them. *)

(** [Type.OBJECT], [Type.STRING], ... *)
Inductive SchemaType := OBJECT | STRING | NUMBER | ARRAY.

Inductive Schema := mkSchema {
  type : SchemaType;
  description : option jsstring;
  items : option Schema;
  properties : list (jsstring * Schema);
  required : list jsstring
}.

(** A leaf [{ type: t }] or [{ type: t, description: d }]. *)
Definition leaf (t : SchemaType) (d : option jsstring) : Schema :=
  mkSchema t d None [] [].

(** [{ type: Type.ARRAY, items: { type: Type.STRING } }] *)
Definition string_array (d : option jsstring) : Schema :=
  mkSchema ARRAY d (Some (leaf STRING None)) [] [].

Inductive Contents :=
| prompt (text : jsstring)                 (* contents: userPrompt *)
| prompt_parts (texts : list jsstring).    (* contents: { parts: [{ text }] } *)

Record Config := mkConfig {
  responseMimeType : option jsstring;
  responseSchema : option Schema;
  imageConfig_aspectRatio : option jsstring
}.

(** The argument of [ai.models.generateContent]. *)
Record GenerateContentParameters := mkParams {
  model : jsstring;
  contents : Contents;
  config : Config
}.

(** A response text together with what [JSON.parse] does on it. *)
Record JsonText := mkText {
  source : jsstring;
  JSON_parse : Outcome value
}.

(** The literal ['{}']. *)
Definition empty_object_text : JsonText :=
  mkText (js "{}") (Ok (JObject [])).

Record Blob := mkBlob {
  mimeType : option jsstring;
  data : option jsstring
}.

Record Part := mkPart { inlineData : option Blob }.

Record Content := mkContent { parts : option (list Part) }.

Record Candidate := mkCandidate { content : option Content }.

(** [text] is the value of the response's [text] accessor. *)
Record GenerateContentResponse := mkResponse {
  text : option JsonText;
  candidates : option (list Candidate)
}.

(** [new GoogleGenAI({ apiKey })]: the client is its options. *)
Record GoogleGenAI := mkClient { client_apiKey : option jsstring }.

(** A call [ai.models.generateContent(params)]. *)
Record Call := mkCall {
  ai : GoogleGenAI;
  params : GenerateContentParameters
}.

(** What lies outside the application: the client library and the provider
    behind it. *)
Record World := mkWorld {
  (* the constructor of the client may throw *)
  new_GoogleGenAI : option jsstring -> Outcome GoogleGenAI;
  (* how the promise of a call settles *)
  generateContent : Call -> Outcome GenerateContentResponse
}.

(** [imageResponse.candidates?.[0]?.content?.parts] *)
Definition first_parts (r : GenerateContentResponse) : option (list Part) :=
  c ← candidates r ≫= head; content c ≫= parts.

(** [`data:${part.inlineData.mimeType};base64,${part.inlineData.data}`] *)
Definition data_uri (b : Blob) : jsstring :=
  js "data:" ++ template_string (mimeType b) ++ js ";base64,"
  ++ template_string (data b).

(** [if (part.inlineData)]: an object is truthy, [undefined] is not. *)
Definition has_inlineData (p : Part) : bool :=
  match inlineData p with Some _ => true | None => false end.

(** ** Asynchronous handlers

    An [async] function is a tree of the steps it takes: state updates
    through the setters of [useState], the construction of the client, and
    [await]s, where the function is suspended until the promises of the
    calls it issued settle.  [S] is the component's state. *)

Inductive Task (S : Type) :=
| Done
| Update (f : S -> S) (k : Task S)
| Construct (apiKey : option jsstring) (k : Outcome GoogleGenAI -> Task S)
| Await (c : Call) (k : Outcome GenerateContentResponse -> Task S)
| AwaitAll2 (c1 c2 : Call)
    (k : Outcome (GenerateContentResponse * GenerateContentResponse) -> Task S).
Arguments Done {S}.
Arguments Update {S} f k.
Arguments Construct {S} apiKey k.
Arguments Await {S} c k.
Arguments AwaitAll2 {S} c1 c2 k.

(** [Promise.all([p1, p2])]: fulfilled with both values, or rejected as
    soon as one of the two is; when both reject, the reason is that of the
    one that rejects first, taken here to be the first of the pair (no
    source looks at the reason of such a rejection). *)
Definition Promise_all2 {A B} (p1 : Outcome A) (p2 : Outcome B)
  : Outcome (A * B) :=
  match p1, p2 with
  | Ok a, Ok b => Ok (a, b)
  | Throw e, _ => Throw e
  | Ok _, Throw e => Throw e
  end.

Section Run.
Context {S : Type}.
Variable w : World.

(** Runs a handler to its end; returns the final state and the calls
    issued to the provider, in order. *)
Fixpoint run (t : Task S) (st : S) : S * list Call :=
  match t with
  | Done => (st, [])
  | Update f k => run k (f st)
  | Construct key k => run (k (new_GoogleGenAI w key)) st
  | Await c k =>
      let '(st', cs) := run (k (generateContent w c)) st in (st', c :: cs)
  | AwaitAll2 c1 c2 k =>
      let '(st', cs) :=
        run (k (Promise_all2 (generateContent w c1) (generateContent w c2))) st
      in (st', c1 :: c2 :: cs)
  end.

(** Runs a handler up to its next [await]: the state reached, and the
    suspended rest of the handler if there is one. *)
Fixpoint advance (t : Task S) (st : S) : S * option (Task S) :=
  match t with
  | Done => (st, None)
  | Update f k => advance k (f st)
  | Construct key k => advance (k (new_GoogleGenAI w key)) st
  | Await _ _ | AwaitAll2 _ _ _ => (st, Some t)
  end.

(** The promises a suspended handler waits for settle. *)
Definition settle (t : Task S) (st : S) : S * option (Task S) :=
  match t with
  | Await c k => advance (k (generateContent w c)) st
  | AwaitAll2 c1 c2 k =>
      advance (k (Promise_all2 (generateContent w c1) (generateContent w c2))) st
  | _ => advance t st
  end.

(** A handler that is to clear the flag [loading]: its updates leave the
    flag as it is until the last one, which clears it. *)
Fixpoint winds_down (loading : S -> bool) (t : Task S) : Prop :=
  match t with
  | Done => False
  | Update f k =>
      (k = Done /\ forall s, loading (f s) = false)
      \/ ((forall s, loading (f s) = loading s) /\ winds_down loading k)
  | Construct _ k => forall o, winds_down loading (k o)
  | Await _ k => forall o, winds_down loading (k o)
  | AwaitAll2 _ _ k => forall o, winds_down loading (k o)
  end.

(** Every update of a handler has the property [P]. *)
Fixpoint every_update (P : (S -> S) -> Prop) (t : Task S) : Prop :=
  match t with
  | Done => True
  | Update f k => P f /\ every_update P k
  | Construct _ k => forall o, every_update P (k o)
  | Await _ k => forall o, every_update P (k o)
  | AwaitAll2 _ _ k => forall o, every_update P (k o)
  end.
End Run.

(** ** What the two revisions of the application share *)

Definition dq : jsstring := [0x22].

(** Lines of a template literal, joined by line feeds. *)
Definition lines (l : list jsstring) : jsstring := join_with [0x0A] l.

(** [label ? `name: ${label}` : ''] *)
Definition describe (name value : jsstring) : jsstring :=
  if truthy_string value then name ++ js ": " ++ value else [].

(** [[...].filter(Boolean).join(', ')] over the four filters. *)
Definition filterDesc (f : FilterState) : jsstring :=
  join_with (js ", ")
    (filter (fun s => truthy_string s = true)
       [describe (js "菜系") (cuisine f);
        describe (js "时间限制") (timeLimit f);
        describe (js "难度") (difficulty f);
        describe (js "主要食材") (mainIngredient f)]).

(** The test at the head of [handleSearch]:
    [!query.trim() && !filters.mainIngredient] *)
Definition nothing_to_search (query : jsstring) (f : FilterState) : bool :=
  negb (truthy_string (trim query)) && negb (truthy_string (mainIngredient f)).

Definition image_config : Config := mkConfig None None (Some (js "16:9")).

Definition image_model : jsstring := js "gemini-2.5-flash-image".

(** [{ ...data, imageUrl: generatedImageUrl }] *)
Definition with_imageUrl (data : value) (generatedImageUrl : option jsstring)
  : value :=
  JObject (obj_set (js "imageUrl")
             (match generatedImageUrl with
              | Some u => JString u
              | None => JUndefined
              end)
             (own_props data)).

(** The message of the validation failure. *)
Definition validation_message : jsstring := js "请输入菜名或主要食材".

(** *** Rendering

    What React makes of a value put between tags: a string or a number is
    its text, [null], [undefined] and the booleans are nothing, an array
    is its elements in a row, and an object is refused with an error. *)

Fixpoint renderable (v : value) : bool :=
  match v with
  | JObject _ => false
  | JArray elements =>
      (fix all (l : list value) : bool :=
         match l with
         | [] => true
         | x :: r => renderable x && all r
         end) elements
  | JUndefined | JNull | JBool _ | JNumber _ | JString _ => true
  end.

Fixpoint child_text (v : value) : jsstring :=
  match v with
  | JString s => s
  | JNumber repr => repr
  | JArray elements =>
      (fix row (l : list value) : jsstring :=
         match l with
         | [] => []
         | x :: r => child_text x ++ row r
         end) elements
  | JUndefined | JNull | JBool _ | JObject _ => []
  end.

(** [{v}] between tags; [None] when React throws. *)
Definition child (v : value) : option jsstring :=
  if renderable v then Some (child_text v) else None.

(** The receiver of [v.map(f)]: the call throws a [TypeError] unless [v]
    is an array. *)
Definition array_elements (v : value) : option (list value) :=
  match v with
  | JArray elements => Some elements
  | _ => None
  end.

(** [v.map((item, idx) => <div>{item}</div>)] *)
Definition map_children (v : value) : option (list jsstring) :=
  array_elements v ≫= mapM child.

(** [s.padStart(targetLength, padString)] *)
Definition padStart (targetLength : nat) (padString s : jsstring) : jsstring :=
  let n := (targetLength - length s)%nat in
  take n (mjoin (replicate n padString)) ++ s.

(** What the page shows in the place of the results: nothing, a text (a
    falsy value of [recipe] that React prints), the card, or no page at
    all when rendering throws. *)
Inductive Rendered (A : Type) :=
| Hidden
| Printed (t : jsstring)
| Shown (a : A)
| Crashed.
Arguments Hidden {A}.
Arguments Printed {A} t.
Arguments Shown {A} a.
Arguments Crashed {A}.

(** [active={filters[key] === label}] of a chip. *)
Definition chip_active (f : FilterState) (chip : FilterKey * jsstring) : bool :=
  bool_decide (filter_get chip.1 f = chip.2).

(** ** The application with a configurable credential
    ([src/unnamed/part_000]) *)

Module Part000.

(** The [useState] cells of [App]. *)
Record State := mkState {
  query : jsstring;
  filters : FilterState;
  showFilters : bool;
  loading : bool;
  recipe : option value;          (* Recipe | null *)
  error : option jsstring;        (* string | null *)
  apiKey : jsstring;
  showSettings : bool
}.

Definition initial : State :=
  mkState [] (mkFilters [] [] [] []) false false None None [] false.

Definition setQuery v (s : State) : State :=
  mkState v (filters s) (showFilters s) (loading s) (recipe s) (error s)
          (apiKey s) (showSettings s).
Definition setFilters (f : FilterState -> FilterState) (s : State) : State :=
  mkState (query s) (f (filters s)) (showFilters s) (loading s) (recipe s)
          (error s) (apiKey s) (showSettings s).
Definition setShowFilters v (s : State) : State :=
  mkState (query s) (filters s) v (loading s) (recipe s) (error s)
          (apiKey s) (showSettings s).
Definition setLoading v (s : State) : State :=
  mkState (query s) (filters s) (showFilters s) v (recipe s) (error s)
          (apiKey s) (showSettings s).
Definition setRecipe v (s : State) : State :=
  mkState (query s) (filters s) (showFilters s) (loading s) v (error s)
          (apiKey s) (showSettings s).
Definition setError v (s : State) : State :=
  mkState (query s) (filters s) (showFilters s) (loading s) (recipe s) v
          (apiKey s) (showSettings s).
Definition setApiKey v (s : State) : State :=
  mkState (query s) (filters s) (showFilters s) (loading s) (recipe s)
          (error s) v (showSettings s).
Definition setShowSettings v (s : State) : State :=
  mkState (query s) (filters s) (showFilters s) (loading s) (recipe s)
          (error s) (apiKey s) v.

(** *** The credential *)

(** The page: the component's state and the [localStorage] of its
    origin. *)
Record Page := mkPage {
  st : State;
  localStorage : gmap jsstring jsstring
}.

Definition storage_key : jsstring := js "gemini_api_key".

(** The effect run once after the first render; [envKey] is
    [process.env.API_KEY]. *)
Definition initializeApiKey (envKey : option jsstring) (p : Page) : Page :=
  let localKey := localStorage p !! storage_key in
  if truthy_string (default [] localKey)
  then mkPage (setApiKey (default [] localKey) (st p)) (localStorage p)
  else if truthy_string (default [] envKey)
  then mkPage (setApiKey (default [] envKey) (st p)) (localStorage p)
  else mkPage (setShowSettings true (st p)) (localStorage p).

(** [value] is the content of the input field [apiKeyInput]. *)
Definition handleSaveKey (value : jsstring) (p : Page) : Page :=
  let input := trim value in
  if truthy_string input
  then mkPage (setError None (setShowSettings false (setApiKey input (st p))))
              (<[storage_key := input]> (localStorage p))
  else p.

Definition handleClearKey (p : Page) : Page :=
  mkPage (setApiKey [] (st p)) (delete storage_key (localStorage p)).

(** Loading the credential: a fresh mount of the component over the
    given storage and environment. *)
Definition load (envKey : option jsstring)
           (storage : gmap jsstring jsstring) : State :=
  st (initializeApiKey envKey (mkPage initial storage)).

(** *** The request *)

Definition userPrompt (s : State) : jsstring :=
  lines
    [js "Wait, act as a professional recipe aggregator for Chinese users. ";
     js "      Target Dish: " ++ dq
       ++ or_string (query s) (mainIngredient (filters s)) ++ dq ++ js ". ";
     js "      Constraints: " ++ filterDesc (filters s) ++ js ".";
     js "      ";
     js "      Task: Search data from Xiaohongshu, Bilibili, and Xiachufang to find the "
       ++ dq ++ js "Best" ++ dq ++ js " recipe.";
     js "      ";
     js "      REQUIREMENTS:";
     js "      1. Output language: Simplified Chinese.";
     js "      2. Mention sources in 'summary'.";
     js "      3. Return strict JSON.";
     js "      "].

Definition responseSchema : Schema :=
  mkSchema OBJECT None None
    [(js "title", leaf STRING None);
     (js "summary", leaf STRING None);
     (js "cuisine", leaf STRING None);
     (js "difficulty", leaf STRING None);
     (js "totalTime", leaf STRING None);
     (js "calories", leaf NUMBER None);
     (js "ingredients", string_array None);
     (js "steps", string_array None);
     (js "rating", leaf NUMBER None);
     (js "reviewCount", leaf STRING None)]
    [js "title"; js "summary"; js "ingredients"; js "steps"].

(** The argument of the text-generation call. *)
Definition textRequest (s : State) : GenerateContentParameters :=
  mkParams (js "gemini-3-pro-preview") (prompt (userPrompt s))
           (mkConfig (Some (js "application/json")) (Some responseSchema) None).

(** The argument of the image-generation call; [title] is [data.title],
    which the template literal of the prompt converts to a string: the
    argument is not built when that conversion throws. *)
Definition imageRequest (title : value) : option GenerateContentParameters :=
  printed ← ToString title;
  Some (mkParams image_model
          (prompt_parts
             [js "A high-quality, professional food photo of " ++ printed
              ++ js ". Appetizing, restaurant style, 4k, bokeh background."])
          image_config).

(** [parts.find(p => p.inlineData)], then the data URI of what it found. *)
Definition generatedImageUrl (r : GenerateContentResponse) : option jsstring :=
  ps ← first_parts r;
  part ← find has_inlineData ps;
  data_uri <$> inlineData part.

(** *** handleSearch *)

(** [textResponse.text || '{}'] *)
Definition text_or_empty_object (r : GenerateContentResponse) : JsonText :=
  match text r with
  | Some t => if truthy_string (source t) then t else empty_object_text
  | None => empty_object_text
  end.

(** [err.message?.includes(s)] *)
Definition message_includes (err : JsError) (s : jsstring) : bool :=
  match message err with
  | Some m => includes m s
  | None => false
  end.

(** The [finally] block. *)
Definition finally : Task State := Update (setLoading false) Done.

(** The [catch] block of the outer [try]. *)
Definition catch (err : JsError) : Task State :=
  if message_includes err (js "403")
     || message_includes err (js "API_KEY_INVALID")
  then Update (setError (Some (js "API Key 无效。请检查设置。")))
         (Update (setShowSettings true) finally)
  else if message_includes err (js "429")
  then Update (setError (Some (js "请求太频繁了，请稍后再试。"))) finally
  else Update (setError (Some (js "生成失败: "
                 ++ or_string (default [] (message err)) (js "未知错误"))))
         finally.

(** [s] is the state of the render whose closure the handler is. *)
Definition handleSearch (s : State) : Task State :=
  if negb (truthy_string (apiKey s)) then
    Update (setShowSettings true) Done
  else if nothing_to_search (query s) (filters s) then
    Update (setError (Some validation_message)) Done
  else
    Update (setLoading true) (Update (setError None) (Update (setRecipe None)
    (Construct (Some (apiKey s)) (fun ai =>
     match ai with
     | Throw err => catch err
     | Ok ai =>
       Await (mkCall ai (textRequest s)) (fun textResponse =>
       match textResponse with
       | Throw err => catch err
       | Ok textResponse =>
         match JSON_parse (text_or_empty_object textResponse) with
         | Throw err => catch err
         | Ok data =>
           let done generatedImageUrl :=
             Update (setRecipe (Some (with_imageUrl data generatedImageUrl)))
                    finally in
           (* the inner try, whose catch only logs: reading [data.title]
              throws on [null], and so may its conversion to a string *)
           match get_prop data (js "title") ≫= imageRequest with
           | None => done None
           | Some request =>
             Await (mkCall ai request) (fun imageResponse =>
             match imageResponse with
             | Throw imgErr => done None
             | Ok imageResponse => done (generatedImageUrl imageResponse)
             end)
           end
         end
       end)
     end)))).

(** The state in which the handler awaits the provider. *)
Definition pending_state (s : State) : State :=
  setRecipe None (setError None (setLoading true s)).

(** The searches that reach the provider: a key is held, there is
    something to search for, and the client can be built. *)
Definition reaches_provider (w : World) (s : State) (ai : GoogleGenAI)
  : Prop :=
  apiKey s <> []
  /\ nothing_to_search (query s) (filters s) = false
  /\ new_GoogleGenAI w (Some (apiKey s)) = Ok ai.

(** *** The rendered page as a transition system

    The events the rendered elements can deliver, and the handlers they
    run.  A session is the page together with the [handleSearch]
    invocations that are suspended at an [await]. *)

Inductive Event :=
| ChangeQuery (v : jsstring)          (* onChange of the query input *)
| KeyDownQuery (key : jsstring)       (* onKeyDown of the query input *)
| ClickSearch                         (* the search button *)
| ClickShowFilters                    (* the filter panel switch *)
| ClickChip (key : FilterKey) (value : jsstring)
| ClickSettings                       (* the gear and the error's link *)
| ClickCloseSettings
| SubmitKey (value : jsstring)        (* the form of the settings modal *)
| ClickClearKey
| Settled (i : nat).                  (* the promises awaited by the
                                         i-th suspended search settle *)

Record Session := mkSession {
  page : Page;
  suspended : list (Task State)
}.

(** The chips the filter panel renders. *)
Definition chips : list (FilterKey * jsstring) :=
  map (pair Kcuisine)
      [js "川菜"; js "粤菜"; js "湘菜"; js "日韩"; js "西餐"; js "快手菜"]
  ++ map (pair Kdifficulty) [js "新手"; js "进阶"; js "大厨"].

Definition on_state (f : State -> State) (x : Session) : Session :=
  mkSession (mkPage (f (st (page x))) (localStorage (page x))) (suspended x).

(** A call of [handleSearch()]: the handler runs to its first [await]. *)
Definition call_handleSearch (w : World) (x : Session) : Session :=
  let s := st (page x) in
  let '(s', t) := advance w (handleSearch s) s in
  mkSession (mkPage s' (localStorage (page x)))
            (suspended x ++ option_list t).

Definition step (w : World) (e : Event) (x : Session) : Session :=
  let s := st (page x) in
  match e with
  | ChangeQuery v => on_state (setQuery v) x
  | KeyDownQuery key =>
      if bool_decide (key = js "Enter") then call_handleSearch w x else x
  | ClickSearch =>
      (* disabled={loading}: a disabled button delivers no click *)
      if loading s then x else call_handleSearch w x
  | ClickShowFilters => on_state (setShowFilters (negb (showFilters s))) x
  | ClickChip key value =>
      if showFilters s && bool_decide ((key, value) ∈ chips)
      then on_state (setFilters (toggleFilter key value)) x else x
  | ClickSettings => on_state (setShowSettings true) x
  | ClickCloseSettings =>
      if showSettings s then on_state (setShowSettings false) x else x
  | SubmitKey value =>
      if showSettings s
      then mkSession (handleSaveKey value (page x)) (suspended x) else x
  | ClickClearKey =>
      if showSettings s && truthy_string (apiKey s)
      then mkSession (handleClearKey (page x)) (suspended x) else x
  | Settled i =>
      match suspended x !! i with
      | None => x
      | Some t =>
          let '(s', t') := settle w t s in
          mkSession (mkPage s' (localStorage (page x)))
                    (delete i (suspended x) ++ option_list t')
      end
  end.

Definition steps (w : World) (es : list Event) (x : Session) : Session :=
  fold_left (fun x e => step w e x) es x.

(** The searches in flight: the suspended invocations. *)
Definition searches_in_flight (x : Session) : nat := length (suspended x).

(** The events other than Enter pressed in the query field. *)
Definition not_Enter (e : Event) : Prop :=
  match e with
  | KeyDownQuery key => key <> js "Enter"
  | _ => True
  end.

(** Either nothing is loading and no search is suspended, or a search is
    loading and it is the only one suspended. *)
Definition one_at_a_time (x : Session) : Prop :=
  (loading (st (page x)) = false /\ suspended x = [])
  \/ (loading (st (page x)) = true
      /\ exists t, suspended x = [t] /\ winds_down loading t).

(** *** What the component renders *)

(** The label of a step: [String(idx + 1).padStart(2, '0')]. *)
Definition stepLabel (idx : nat) : jsstring :=
  padStart 2 (js "0") (Number_toString (Z.of_nat idx + 1)).

(** The card of a recipe, as far as it depends on the recipe. *)
Record Card := mkCard {
  card_image : option value;      (* the src of the image; None: the
                                     placeholder with its caption *)
  card_rating : jsstring;
  card_title : jsstring;
  card_totalTime : jsstring;
  card_difficulty : jsstring;
  card_summary : jsstring;
  card_ingredients : list jsstring;
  card_steps : list (jsstring * jsstring)   (* label and text *)
}.

Definition placeholder_caption : jsstring := js "图片生成已跳过".

(** The JSX under [recipe && !loading &&]. *)
Definition card (recipe : value) : option Card :=
  let imageUrl := field (js "imageUrl") recipe in
  let rating := field (js "rating") recipe in
  r ← child (if truthy rating then rating else JString (js "4.9"));
  t ← child (field (js "title") recipe);
  tt ← child (field (js "totalTime") recipe);
  d ← child (field (js "difficulty") recipe);
  sm ← child (field (js "summary") recipe);
  ings ← map_children (field (js "ingredients") recipe);
  sts ← map_children (field (js "steps") recipe);
  Some (mkCard (if truthy imageUrl then Some imageUrl else None)
               r t tt d sm ings (imap (fun idx step => (stepLabel idx, step)) sts)).

(** [{recipe && !loading && (...)}] *)
Definition results (s : State) : Rendered Card :=
  match recipe s with
  | None => Hidden
  | Some r =>
      if negb (truthy r) then
        match child r with Some t => Printed t | None => Crashed end
      else if loading s then Hidden
      else match card r with Some c => Shown c | None => Crashed end
  end.

(** [{error && (...)}]: the message, and whether the link to the settings
    is under it ([error.includes('Key')]). *)
Definition error_box (s : State) : option (jsstring * bool) :=
  match error s with
  | Some e => if truthy_string e then Some (e, includes e (js "Key")) else None
  | None => None
  end.

(** The chips of the filter panel with their [active] flag; nothing when
    the panel is closed. *)
Definition filter_panel (s : State) : option (list (FilterKey * jsstring * bool)) :=
  if showFilters s
  then Some (map (fun c => (c, chip_active (filters s) c)) chips)
  else None.

(** *** Invariants of the page *)

(** What the user has entered. *)
Definition inputs (s : State) : jsstring * FilterState * bool * jsstring :=
  (query s, filters s, showFilters s, apiKey s).

(** Every filter is unset or holds the label of one of its chips. *)
Definition from_chips (f : FilterState) : Prop :=
  forall key, filter_get key f = [] \/ (key, filter_get key f) ∈ chips.

(** The persisted key, if there is one, is neither empty nor padded. *)
Definition stored_key_normal (storage : gmap jsstring jsstring) : Prop :=
  forall k, storage !! storage_key = Some k -> k <> [] /\ trim k = k.

(** A session as the mounted component starts it. *)
Definition mounted (envKey : option jsstring)
           (storage : gmap jsstring jsstring) : Session :=
  mkSession (initializeApiKey envKey (mkPage initial storage)) [].

End Part000.

(** ** The application without a credential store ([src/index.tsx]) *)

Module Index.

Record State := mkState {
  query : jsstring;
  filters : FilterState;
  showFilters : bool;
  loading : bool;
  recipe : option value;          (* Recipe | null *)
  error : option jsstring         (* string | null *)
}.

Definition initial : State :=
  mkState [] (mkFilters [] [] [] []) false false None None.

Definition setQuery v (s : State) : State :=
  mkState v (filters s) (showFilters s) (loading s) (recipe s) (error s).
Definition setFilters (f : FilterState -> FilterState) (s : State) : State :=
  mkState (query s) (f (filters s)) (showFilters s) (loading s) (recipe s)
          (error s).
Definition setShowFilters v (s : State) : State :=
  mkState (query s) (filters s) v (loading s) (recipe s) (error s).
Definition setLoading v (s : State) : State :=
  mkState (query s) (filters s) (showFilters s) v (recipe s) (error s).
Definition setRecipe v (s : State) : State :=
  mkState (query s) (filters s) (showFilters s) (loading s) v (error s).
Definition setError v (s : State) : State :=
  mkState (query s) (filters s) (showFilters s) (loading s) (recipe s) v.

Definition userPrompt (s : State) : jsstring :=
  lines
    [js "Wait, act as a professional recipe aggregator for Chinese users. ";
     js "      Target Dish: " ++ dq ++ query s ++ dq ++ js ". ";
     js "      Constraints: " ++ filterDesc (filters s) ++ js ".";
     js "      ";
     js "      Task: Search your internal database simulating data from **Xiaohongshu (Little Red Book)**, **Bilibili**, and **Xiachufang** to find the "
       ++ dq ++ js "Best" ++ dq
       ++ js " version of this dish based on high view counts, high ratings, and positive reviews. ";
     js "      Synthesize a recipe that combines the best techniques from these top-rated sources.";
     js "      ";
     js "      REQUIREMENTS:";
     js "      1. **Output language must be Simplified Chinese (简体中文).**";
     js "      2. The 'summary' field must explicitly mention the data sources (e.g., "
       ++ dq ++ js "综合了小红书百万点赞笔记和下厨房金牌菜谱..." ++ dq ++ js ").";
     js "      3. Return the result in strict JSON format.";
     js "      "].

Definition responseSchema : Schema :=
  mkSchema OBJECT None None
    [(js "title", leaf STRING (Some (js "The name of the dish in Chinese")));
     (js "summary", leaf STRING (Some (js
        "Explanation of why this is the best recipe, mentioning sources like Xiaohongshu/Bilibili/Xiachufang")));
     (js "cuisine", leaf STRING (Some (js "Cuisine type (e.g. 川菜)")));
     (js "difficulty", leaf STRING (Some (js "Difficulty level (e.g. 简单)")));
     (js "totalTime", leaf STRING (Some (js "Total cooking time")));
     (js "calories", leaf NUMBER (Some (js "Estimated calories")));
     (js "ingredients",
      string_array (Some (js "List of ingredients with quantities")));
     (js "steps", string_array (Some (js "Step by step instructions")));
     (js "rating", leaf NUMBER (Some (js "Simulated rating (e.g. 4.9)")));
     (js "reviewCount",
      leaf STRING (Some (js "Simulated review count (e.g. '10w+')")))]
    [js "title"; js "summary"; js "cuisine"; js "difficulty"; js "totalTime";
     js "ingredients"; js "steps"; js "rating"].

Definition textRequest (s : State) : GenerateContentParameters :=
  mkParams (js "gemini-3-flash-preview") (prompt (userPrompt s))
           (mkConfig (Some (js "application/json")) (Some responseSchema) None).

Definition imageRequest (s : State) : GenerateContentParameters :=
  mkParams image_model
    (prompt_parts
       [js "A professional, appetizing, high-resolution food photography shot of "
        ++ query s
        ++ js ". 4k, delicious, cinematic lighting, closeup, food magazine style."])
    image_config.

(** The loop over the parts, left at the first part with [inlineData]. *)
Fixpoint first_inline (ps : list Part) : option jsstring :=
  match ps with
  | [] => None
  | part :: r =>
      match inlineData part with
      | Some b => Some (data_uri b)
      | None => first_inline r
      end
  end.

Definition generatedImageUrl (r : GenerateContentResponse) : option jsstring :=
  first_parts r ≫= first_inline.

Definition finally : Task State := Update (setLoading false) Done.

Definition generic_failure : jsstring := js "生成失败，请检查网络或重试。".

(** The [catch] block: the error is logged and a fixed message shown. *)
Definition catch (err : JsError) : Task State :=
  Update (setError (Some generic_failure)) finally.

(** Step 3 of the handler:
<<
const jsonText = textResponse.text;
if (jsonText) { data = JSON.parse(jsonText) } else { throw new Error(...) }
>> *)
Definition parse_text (textResponse : GenerateContentResponse)
  : Outcome value :=
  match text textResponse with
  | Some jsonText =>
      if truthy_string (source jsonText) then JSON_parse jsonText
      else Throw (mkError (Some (js "Text generation failed")))
  | None => Throw (mkError (Some (js "Text generation failed")))
  end.

(** [API_KEY] is [process.env.API_KEY]. *)
Definition handleSearch (API_KEY : option jsstring) (s : State) : Task State :=
  if nothing_to_search (query s) (filters s) then
    Update (setError (Some validation_message)) Done
  else
    Update (setLoading true) (Update (setError None) (Update (setRecipe None)
    (Construct API_KEY (fun ai =>
     match ai with
     | Throw err => catch err
     | Ok ai =>
       AwaitAll2 (mkCall ai (textRequest s)) (mkCall ai (imageRequest s))
       (fun responses =>
        match responses with
        | Throw err => catch err
        | Ok (textResponse, imageResponse) =>
          match parse_text textResponse with
          | Throw err => catch err
          | Ok data =>
            if truthy data then
              Update (setRecipe
                        (Some (with_imageUrl data
                                 (generatedImageUrl imageResponse))))
                     finally
            else finally
          end
        end)
     end)))).

(** The state in which the handler awaits the provider. *)
Definition pending_state (s : State) : State :=
  setRecipe None (setError None (setLoading true s)).

(** The searches that reach the provider: there is something to search
    for and the client can be built. *)
Definition reaches_provider (w : World) (API_KEY : option jsstring)
           (s : State) (ai : GoogleGenAI) : Prop :=
  nothing_to_search (query s) (filters s) = false
  /\ new_GoogleGenAI w API_KEY = Ok ai.

(** *** The rendered page as a transition system *)

Inductive Event :=
| ChangeQuery (v : jsstring)          (* onChange of the query input *)
| KeyDownQuery (key : jsstring)       (* onKeyDown of the query input *)
| ClickSearch                         (* the search button *)
| ClickShowFilters                    (* the filter panel switch *)
| ClickChip (key : FilterKey) (value : jsstring)
| ChangeMainIngredient (v : jsstring) (* onChange of the ingredient input *)
| Settled (i : nat).                  (* the promises awaited by the
                                         i-th suspended search settle *)

Record Session := mkSession {
  st : State;
  suspended : list (Task State)
}.

(** The chips the filter panel renders. *)
Definition chips : list (FilterKey * jsstring) :=
  map (pair Kcuisine)
      [js "川菜"; js "粤菜"; js "湘菜"; js "鲁菜"; js "日式"; js "西餐";
       js "家常菜"]
  ++ map (pair KtimeLimit)
      [js "15分钟内"; js "30分钟内"; js "1小时内"; js "慢炖"]
  ++ map (pair Kdifficulty) [js "简单"; js "中等"; js "困难/大厨"].

Definition on_state (f : State -> State) (x : Session) : Session :=
  mkSession (f (st x)) (suspended x).

(** A call of [handleSearch()]: the handler runs to its first [await]. *)
Definition call_handleSearch (w : World) (API_KEY : option jsstring)
           (x : Session) : Session :=
  let '(s', t) := advance w (handleSearch API_KEY (st x)) (st x) in
  mkSession s' (suspended x ++ option_list t).

Definition step (w : World) (API_KEY : option jsstring) (e : Event)
           (x : Session) : Session :=
  let s := st x in
  match e with
  | ChangeQuery v => on_state (setQuery v) x
  | KeyDownQuery key =>
      if bool_decide (key = js "Enter")
      then call_handleSearch w API_KEY x else x
  | ClickSearch =>
      (* disabled={loading}: a disabled button delivers no click *)
      if loading s then x else call_handleSearch w API_KEY x
  | ClickShowFilters => on_state (setShowFilters (negb (showFilters s))) x
  | ClickChip key value =>
      if showFilters s && bool_decide ((key, value) ∈ chips)
      then on_state (setFilters (toggleFilter key value)) x else x
  | ChangeMainIngredient v =>
      if showFilters s
      then on_state (setFilters (fun _ => filter_set KmainIngredient v
                                            (filters s))) x
      else x
  | Settled i =>
      match suspended x !! i with
      | None => x
      | Some t =>
          let '(s', t') := settle w t s in
          mkSession s' (delete i (suspended x) ++ option_list t')
      end
  end.

Definition steps (w : World) (API_KEY : option jsstring) (es : list Event)
           (x : Session) : Session :=
  fold_left (fun x e => step w API_KEY e x) es x.

(** The searches in flight: the suspended invocations. *)
Definition searches_in_flight (x : Session) : nat := length (suspended x).

(** The events other than Enter pressed in the query field. *)
Definition not_Enter (e : Event) : Prop :=
  match e with
  | KeyDownQuery key => key <> js "Enter"
  | _ => True
  end.

(** Either nothing is loading and no search is suspended, or a search is
    loading and it is the only one suspended. *)
Definition one_at_a_time (x : Session) : Prop :=
  (loading (st x) = false /\ suspended x = [])
  \/ (loading (st x) = true
      /\ exists t, suspended x = [t] /\ winds_down loading t).

(** *** What the component renders *)

(** The card of a recipe, as far as it depends on the recipe. *)
Record Card := mkCard {
  card_image : option value;      (* the src of the image; None: the
                                     placeholder with its caption *)
  card_rating : jsstring;
  card_reviewCount : jsstring;
  card_title : jsstring;
  card_cuisine : jsstring;
  card_totalTime : jsstring;
  card_calories : jsstring;
  card_summary : jsstring;
  card_ingredients : list jsstring;
  (* number, text, and whether the connecting line is drawn below *)
  card_steps : list (jsstring * jsstring * bool)
}.

Definition placeholder_caption : jsstring := js "图片生成中或暂无图片".

(** The JSX under [recipe && !loading &&]. *)
Definition card (recipe : value) : option Card :=
  let imageUrl := field (js "imageUrl") recipe in
  r ← child (field (js "rating") recipe);
  rc ← child (field (js "reviewCount") recipe);
  t ← child (field (js "title") recipe);
  c ← child (field (js "cuisine") recipe);
  tt ← child (field (js "totalTime") recipe);
  cal ← child (field (js "calories") recipe);
  sm ← child (field (js "summary") recipe);
  ings ← map_children (field (js "ingredients") recipe);
  sts ← map_children (field (js "steps") recipe);
  Some (mkCard (if truthy imageUrl then Some imageUrl else None)
               r rc t c tt cal sm ings
               (imap (fun idx step =>
                        (Number_toString (Z.of_nat idx + 1), step,
                         negb (bool_decide (idx = (length sts - 1)%nat))))
                     sts)).

(** [{recipe && !loading && (...)}] *)
Definition results (s : State) : Rendered Card :=
  match recipe s with
  | None => Hidden
  | Some r =>
      if negb (truthy r) then
        match child r with Some t => Printed t | None => Crashed end
      else if loading s then Hidden
      else match card r with Some c => Shown c | None => Crashed end
  end.

(** [{error && (...)}] *)
Definition error_box (s : State) : option jsstring :=
  match error s with
  | Some e => if truthy_string e then Some e else None
  | None => None
  end.

(** The chips of the filter panel with their [active] flag; nothing when
    the panel is closed. *)
Definition filter_panel (s : State) : option (list (FilterKey * jsstring * bool)) :=
  if showFilters s
  then Some (map (fun c => (c, chip_active (filters s) c)) chips)
  else None.

(** *** Invariants of the page *)

(** What the user has entered. *)
Definition inputs (s : State) : jsstring * FilterState * bool :=
  (query s, filters s, showFilters s).

(** Every filter but the main ingredient, which is typed in, is unset or
    holds the label of one of its chips. *)
Definition from_chips (f : FilterState) : Prop :=
  forall key, key <> KmainIngredient ->
    filter_get key f = [] \/ (key, filter_get key f) ∈ chips.

End Index.

(** ** The relay endpoint ([src/api/chat.js], [src/unnamed/part_001]) *)

Global Instance Outcome_ret : MRet Outcome := fun _ a => Ok a.
Global Instance Outcome_bind : MBind Outcome := fun _ _ f m =>
  match m with
  | Ok a => f a
  | Throw e => Throw e
  end.

(** [try { body } catch (error) { handler }] *)
Definition try_catch {A} (body : Outcome A) (handler : JsError -> Outcome A)
  : Outcome A :=
  match body with
  | Ok a => Ok a
  | Throw error => handler error
  end.

Module Relay.
Local Open Scope Z_scope.

(** The incoming request: its method, and what [req.json()] settles to. *)
Record Request := mkRequest {
  method : jsstring;
  json : Outcome value
}.

(** The second argument of [fetch]. *)
Record RequestInit := mkInit {
  init_method : jsstring;
  init_headers : list (jsstring * jsstring);
  init_body : option jsstring
}.

(** What [fetch] resolves to: the status line, and what reading the body
    with [text()] and with [json()] settles to. *)
Record FetchResponse := mkFetched {
  fetched_status : Z;
  fetched_text : Outcome jsstring;
  fetched_json : Outcome value
}.

(** [response.ok] *)
Definition ok (r : FetchResponse) : bool :=
  (200 <=? fetched_status r) && (fetched_status r <=? 299).

(** A response built by the handler. *)
Record Response := mkResponse {
  status : Z;
  headers : list (jsstring * jsstring);
  body : option jsstring
}.

(** The platform of the edge function. *)
Record Platform := mkPlatform {
  fetch : jsstring -> RequestInit -> Outcome FetchResponse;
  (* the errors the engine and the Response constructor throw *)
  destructure_TypeError : JsError;
  primitive_TypeError : JsError;
  status_RangeError : JsError;
  null_body_TypeError : JsError
}.

(** The statuses of the Fetch standard that allow no body. *)
Definition null_body_status (s : Z) : bool :=
  bool_decide (s ∈ [101; 103; 204; 205; 304]).

(** [new Response(body, { status, headers })], which throws a
    [RangeError] for a status outside 200..599 and a [TypeError] for a
    body given with a null-body status. *)
Definition new_Response (p : Platform) (body : option jsstring) (status : Z)
           (headers : list (jsstring * jsstring)) : Outcome Response :=
  if (status <? 200) || (599 <? status) then Throw (status_RangeError p)
  else if bool_decide (is_Some body) && null_body_status status
  then Throw (null_body_TypeError p)
  else Ok (mkResponse status headers body).

Definition json_headers : list (jsstring * jsstring) :=
  [(js "Content-Type", js "application/json")].

(** [new Response(JSON.stringify(v), { status, headers: json_headers })] *)
Definition json_response (p : Platform) (v : value) (status : Z)
  : Outcome Response :=
  new_Response p (JSON_stringify v) status json_headers.

Arguments new_Response : simpl never.
Arguments json_response : simpl never.

(** The platform with another [fetch]. *)
Definition with_fetch (f : jsstring -> RequestInit -> Outcome FetchResponse)
           (p : Platform) : Platform :=
  mkPlatform f (destructure_TypeError p) (primitive_TypeError p)
             (status_RangeError p) (null_body_TypeError p).

(** A property of a destructuring pattern: a [TypeError] on [null]. *)
Definition destructure (p : Platform) (v : value) (k : jsstring)
  : Outcome value :=
  match get_prop v k with
  | Some x => Ok x
  | None => Throw (destructure_TypeError p)
  end.

(** [a || b] *)
Definition or_value (a b : value) : value := if truthy a then a else b.

Definition embedded_key : jsstring :=
  js "sk-c422zhoyiteawbh22t08jfon8s08dg923r2h9kiw030uetce".

Definition API_URL : jsstring :=
  js "https://api.xiaomimimo.com/v1/chat/completions".

(** [{ error: error.message }] *)
Definition error_object (error : JsError) : value :=
  JObject [(js "error",
            match message error with
            | Some m => JString m
            | None => JUndefined
            end)].

Section Handler.
Variable p : Platform.
(** The [model] sent upstream, from the parsed body of the request. *)
Variable targetModel : value -> Outcome value.

(** The second argument of [fetch].  The template literal of the
    [Authorization] header converts the key to a string, and throws a
    [TypeError] when the key cannot be converted. *)
Definition upstream_request (messages API_KEY model : value)
  : Outcome RequestInit :=
  match ToString API_KEY with
  | None => Throw (primitive_TypeError p)
  | Some key =>
      Ok (mkInit (js "POST")
            [(js "Content-Type", js "application/json");
             (js "Authorization", js "Bearer " ++ key)]
            (JSON_stringify
               (JObject
                  [(js "model", model);
                   (js "messages", messages);
                   (js "temperature", JNumber (js "0.7"));
                   (js "max_tokens", JNumber (js "2048"));
                   (js "stream", JBool false);
                   (js "response_format",
                    JObject [(js "type", JString (js "json_object"))])])))
  end.

(** [{ error: `Provider Error: ${response.status}`, details: errorText }] *)
Definition provider_error (status : Z) (errorText : jsstring) : value :=
  JObject
    [(js "error",
      JString (js "Provider Error: " ++ Number_toString status));
     (js "details", JString errorText)].

(** The [try] block of the handler. *)
Definition forward (req : Request) : Outcome Response :=
  parsed ← json req;
  messages ← destructure p parsed (js "messages");
  apiKey ← destructure p parsed (js "apiKey");
  model ← targetModel parsed;
  let API_KEY := or_value apiKey (JString embedded_key) in
  init ← upstream_request messages API_KEY model;
  response ← fetch p API_URL init;
  if negb (ok response) then
    errorText ← fetched_text response;
    json_response p (provider_error (fetched_status response) errorText)
                  (fetched_status response)
  else
    data ← fetched_json response;
    json_response p data 200.

Definition handler (req : Request) : Outcome Response :=
  if negb (bool_decide (method req = js "POST")) then
    json_response p (JObject [(js "error", JString (js "Method Not Allowed"))])
                  405
  else
    try_catch (forward req)
              (fun error => json_response p (error_object error) 500).

(** The request was forwarded, and the upstream provider answered it
    with [response]. *)
Definition upstream_answers (req : Request) (response : FetchResponse)
  : Prop :=
  exists parsed messages apiKey model,
    json req = Ok parsed
    /\ destructure p parsed (js "messages") = Ok messages
    /\ destructure p parsed (js "apiKey") = Ok apiKey
    /\ targetModel parsed = Ok model
    /\ exists init,
        upstream_request messages (or_value apiKey (JString embedded_key))
                         model
        = Ok init
        /\ fetch p API_URL init = Ok response.
End Handler.

Arguments upstream_request : simpl never.

End Relay.

(** [src/api/chat.js]: the model name is fixed. *)
Module Chat.
Definition targetModel (parsed : value) : Outcome value :=
  Ok (JString (js "mimilm")).

Definition handler (p : Relay.Platform) (req : Relay.Request)
  : Outcome Relay.Response :=
  Relay.handler p targetModel req.
End Chat.

(** [src/unnamed/part_001]: [model || "mimo-v2-flash"], with [model] taken
    from the body of the request. *)
Module Part001.
Definition targetModel (p : Relay.Platform) (parsed : value) : Outcome value :=
  model ← Relay.destructure p parsed (js "model");
  Ok (Relay.or_value model (JString (js "mimo-v2-flash"))).

Definition handler (p : Relay.Platform) (req : Relay.Request)
  : Outcome Relay.Response :=
  Relay.handler p (targetModel p) req.
End Part001.

(** ** Sample inputs *)

Module Samples.

(** A recipe with the four fields the later schema requires and no
    other. *)
Definition bare_recipe : value :=
  JObject
    [(js "title", JString (js "宫保鸡丁"));
     (js "summary", JString (js "综合了小红书和下厨房的高赞做法"));
     (js "ingredients",
      JArray [JString (js "鸡胸肉 300克"); JString (js "花生米 50克")]);
     (js "steps", JArray [JString (js "鸡肉切丁腌制"); JString (js "大火爆炒")])].

(** A text and the value it denotes. *)
Definition text_of (v : value) : JsonText :=
  mkText (default [] (JSON_stringify v)) (Ok v).

Definition text_response (t : JsonText) : GenerateContentResponse :=
  mkResponse (Some t) None.

Definition image_response : GenerateContentResponse :=
  mkResponse None
    (Some [mkCandidate
             (Some (mkContent
                      (Some [mkPart None;
                             mkPart (Some (mkBlob (Some (js "image/png"))
                                                  (Some (js "iVBORw0KGgo="))))])))]).

(** The text call is the one that carries a response schema. *)
Definition is_text_call (c : Call) : bool :=
  match responseSchema (config (params c)) with
  | Some _ => true
  | None => false
  end.

(** A provider that settles every text call with [t] and every image
    call with [i]; the client can always be built. *)
Definition provider (t i : Outcome GenerateContentResponse) : World :=
  mkWorld (fun k => Ok (mkClient k))
          (fun c => if is_text_call c then t else i).

Definition unavailable : JsError :=
  mkError (Some (js "503 Service Unavailable")).

Definition forbidden : JsError :=
  mkError (Some (js "[403 Forbidden] The caller does not have permission")).

Definition image_down : World :=
  provider (Ok (text_response (text_of bare_recipe))) (Throw unavailable).

Definition key_rejected : World :=
  provider (Throw forbidden) (Throw forbidden).

(** A reply whose title is an object with a property [toString] of its
    own: the template literal of the image prompt throws on it. *)
Definition odd_title : value :=
  JObject
    [(js "title", JObject [(js "toString", JString (js "宫保鸡丁"))]);
     (js "summary", JString (js "综合了小红书和下厨房的高赞做法"));
     (js "ingredients", JArray [JString (js "鸡胸肉 300克")]);
     (js "steps", JArray [JString (js "大火爆炒")])].

Definition odd_title_reply : World :=
  provider (Ok (text_response (text_of odd_title))) (Ok image_response).

(** A credential rejected with status 401. *)
Definition unauthenticated : JsError :=
  mkError
    (Some (js "[401 Unauthorized] Request had invalid authentication credentials.")).

Definition key_unauthenticated : World :=
  provider (Throw unauthenticated) (Throw unauthenticated).

Definition empty_object_reply : World :=
  provider (Ok (text_response empty_object_text)) (Throw unavailable).

Definition empty_object_and_image : World :=
  provider (Ok (text_response empty_object_text)) (Ok image_response).

Definition syntax_error : JsError :=
  mkError (Some (js "Unexpected token '<', is not valid JSON")).

(** A reply whose text is markup, on which [JSON.parse] throws. *)
Definition markup_reply : World :=
  provider (Ok (text_response (mkText (js "<html></html>") (Throw syntax_error))))
           (Ok image_response).

Definition too_many : JsError :=
  mkError (Some (js "[429 Too Many Requests] Resource has been exhausted")).

Definition rate_limited : World := provider (Throw too_many) (Throw too_many).

(** The message of a parser that quotes the text it rejects. *)
Definition quoting_syntax_error : JsError :=
  mkError (Some (js "Unexpected token '<', " ++ dq ++ js "<h1>403 Fo" ++ dq
                 ++ js "... is not valid JSON")).

Definition error_page_reply : World :=
  provider
    (Ok (text_response (mkText (js "<h1>403 Forbidden</h1>")
                               (Throw quoting_syntax_error))))
    (Ok image_response).

(** A client library that refuses to build a client. *)
Definition no_client : World :=
  mkWorld (fun _ => Throw (mkError (Some (js "An API Key must be set"))))
          (fun _ => Throw unavailable).

Definition offline : World :=
  provider (Throw unavailable) (Throw unavailable).

Definition no_filters : FilterState := mkFilters [] [] [] [].

Definition demo_key : jsstring := js "AIzaSy-demo".

(** A page of the later revision with a key and a query typed in. *)
Definition keyed_query : Part000.State :=
  Part000.mkState (js "宫保鸡丁") no_filters false false None None demo_key
                  false.

(** The same page with nothing typed in and a blank as main ingredient. *)
Definition keyed_blank_ingredient : Part000.State :=
  Part000.mkState [] (mkFilters [] [] [] (js " ")) false false None None
                  demo_key false.

Definition plain_query : Index.State :=
  Index.mkState (js "宫保鸡丁") no_filters false false None None.

Definition plain_blank_ingredient : Index.State :=
  Index.mkState [] (mkFilters [] [] [] (js " ")) true false None None.

Definition blank_query : Index.State :=
  Index.setQuery (js "   ") plain_query.

Definition keyed_blank_query : Part000.State :=
  Part000.setQuery (js "   ") keyed_query.

Definition two_filters : FilterState :=
  mkFilters (js "川菜") [] (js "新手") [].

(** A token as typed, the page before it is saved and after. *)
Definition padded_token : jsstring := js "  AIzaSy-demo ".

Definition empty_page : Part000.Page := Part000.mkPage Part000.initial ∅.

Definition saved_page : Part000.Page :=
  Part000.handleSaveKey padded_token empty_page.

(** A page with a query typed in, no key held and the settings open. *)
Definition unkeyed_page : Part000.Page :=
  Part000.mkPage
    (Part000.setShowSettings true
       (Part000.setQuery (js "宫保鸡丁") Part000.initial)) ∅.

(** Fresh sessions over these pages, and the same once Enter was pressed
    in the query field. *)
Definition keyed_session : Part000.Session :=
  Part000.mkSession (Part000.mkPage keyed_query ∅) [].

Definition keyed_searching : Part000.Session :=
  Part000.step offline (Part000.KeyDownQuery (js "Enter")) keyed_session.

Definition plain_session : Index.Session := Index.mkSession plain_query [].

Definition plain_searching : Index.Session :=
  Index.step offline (Some demo_key) (Index.KeyDownQuery (js "Enter"))
             plain_session.

(** The state of the page while that search is awaited. *)
Definition keyed_searching_state : Part000.State :=
  Part000.st (Part000.page keyed_searching).

(** A user who types a query and clicks the button three times, letting
    the first search settle in between. *)
Definition clicks : list Part000.Event :=
  [Part000.ChangeQuery (js "宫保鸡丁"); Part000.ClickSearch;
   Part000.ClickSearch; Part000.Settled 0; Part000.ClickSearch].

Definition plain_clicks : list Index.Event :=
  [Index.ChangeQuery (js "宫保鸡丁"); Index.ClickSearch; Index.ClickSearch;
   Index.Settled 0; Index.ClickSearch].

(** A user who opens the panel, picks filters and types an ingredient. *)
Definition chip_clicks : list Index.Event :=
  [Index.ClickShowFilters; Index.ClickChip KtimeLimit (js "30分钟内");
   Index.ClickChip Kcuisine (js "川菜");
   Index.ChangeMainIngredient (js "鸡肉");
   Index.ClickChip KtimeLimit (js "慢炖"); Index.ClickSearch].

(** The open filter panel with the first cuisine chosen. *)
Definition open_panel : Part000.Session :=
  Part000.mkSession
    (Part000.mkPage
       (Part000.mkState [] (mkFilters (js "川菜") [] [] []) true false None
                        None demo_key false) ∅) [].

Definition plain_open_panel : Index.Session :=
  Index.mkSession
    (Index.mkState [] (mkFilters (js "川菜") [] [] []) true false None None) [].

(** A provider that answers both calls, and the card of its recipe. *)
Definition recipe_and_image : World :=
  provider (Ok (text_response (text_of bare_recipe))) (Ok image_response).

Definition bare_card : Part000.Card :=
  Part000.mkCard
    (Some (JString (js "data:image/png;base64,iVBORw0KGgo=")))
    (js "4.9") (js "宫保鸡丁") [] [] (js "综合了小红书和下厨房的高赞做法")
    [js "鸡胸肉 300克"; js "花生米 50克"]
    [(js "01", js "鸡肉切丁腌制"); (js "02", js "大火爆炒")].

(** A user who starts a search with the key of the environment, opens
    the settings and clears the key; then searches again, by the button
    and by Enter, while the first search settles. *)
Definition search_and_clear : list Part000.Event :=
  [Part000.ChangeQuery (js "宫保鸡丁"); Part000.ClickSearch;
   Part000.ClickSettings; Part000.ClickClearKey].

Definition keyless_searches : list Part000.Event :=
  [Part000.ClickCloseSettings; Part000.KeyDownQuery (js "Enter");
   Part000.Settled 0; Part000.ClickSearch; Part000.Settled 0;
   Part000.KeyDownQuery (js "Enter")].

(** The names of the fields of a recipe. *)
Definition required_fields : list jsstring :=
  [js "title"; js "summary"; js "ingredients"; js "steps"].

Definition declared_fields : list jsstring :=
  [js "title"; js "summary"; js "cuisine"; js "difficulty"; js "totalTime";
   js "calories"; js "ingredients"; js "steps"; js "rating"; js "reviewCount"].

Definition optional_fields : list jsstring :=
  [js "cuisine"; js "difficulty"; js "totalTime"; js "calories"; js "rating";
   js "reviewCount"].

(** The relay: a POST with one message, and a platform whose [fetch]
    settles as given. *)
Definition post : Relay.Request :=
  Relay.mkRequest (js "POST")
    (Ok (JObject
           [(js "messages",
             JArray [JObject [(js "role", JString (js "user"));
                              (js "content", JString (js "hi"))]])])).


Definition platform (r : Outcome Relay.FetchResponse) : Relay.Platform :=
  Relay.mkPlatform (fun _ _ => r)
    (mkError (Some (js "Cannot destructure property 'messages' of null")))
    (mkError (Some (js "Cannot convert object to primitive value")))
    (mkError (Some (js "init.status must be in the range of 200 to 599")))
    (mkError (Some (js "Response with null body status cannot have body"))).

Definition not_json : JsError :=
  mkError (Some (js "Unexpected token U in JSON at position 0")).

Definition unauthorized : Relay.FetchResponse :=
  Relay.mkFetched 401 (Ok (js "Unauthorized")) (Throw not_json).

Definition fetch_failed : JsError := mkError (Some (js "fetch failed")).

(** A status the Response constructor refuses. *)
Definition denied_999 : Relay.FetchResponse :=
  Relay.mkFetched 999 (Ok (js "Request denied")) (Throw not_json).

(** A POST whose body is the JSON text [null]. *)
Definition post_null : Relay.Request := Relay.mkRequest (js "POST") (Ok JNull).

(** A POST whose key is an object with a property [toString] of its
    own, which no template literal can print. *)
Definition post_odd_key : Relay.Request :=
  Relay.mkRequest (js "POST")
    (Ok (JObject [(js "messages", JArray []);
                  (js "apiKey", JObject [(js "toString", JNumber (js "1"))])])).

(** A POST that brings a key and a model of its own. *)
Definition post_with_key : Relay.Request :=
  Relay.mkRequest (js "POST")
    (Ok (JObject
           [(js "messages", JArray []);
            (js "apiKey", JString (js "sk-caller"));
            (js "model", JString (js "mimo-v2-pro"))])).


(** A page of markup sent with status 200. *)
Definition ok_markup : Relay.FetchResponse :=
  Relay.mkFetched 200 (Ok (js "<html></html>")) (Throw not_json).

(** A [fetch] that serves only the requests authorized with the key of
    [post_with_key]. *)
Definition picky_fetch (r : Relay.FetchResponse) (address : jsstring)
           (init : Relay.RequestInit) : Outcome Relay.FetchResponse :=
  if bool_decide (Relay.init_headers init
                  = [(js "Content-Type", js "application/json");
                     (js "Authorization", js "Bearer sk-caller")])
  then Ok r else Throw fetch_failed.

Definition completion : value :=
  JObject [(js "id", JString (js "cmpl-1"));
           (js "choices", JArray [JObject [(js "index", JNumber (js "0"))]])].

Definition completed : Relay.FetchResponse :=
  Relay.mkFetched 200 (Ok (default [] (JSON_stringify completion)))
                  (Ok completion).

End Samples.

(** * Properties *)

(** ** Strings and objects *)

Lemma truthy_string_nonempty (s : jsstring) : truthy_string s = true <-> s <> [].
Proof. destruct s; simpl; split; congruence. Qed.

Lemma truthy_string_empty (s : jsstring) : truthy_string s = false <-> s = [].
Proof. destruct s; simpl; split; congruence. Qed.

Lemma nothing_to_search_spec (query : jsstring) (f : FilterState) :
  nothing_to_search query f = true <-> trim query = [] /\ mainIngredient f = [].
Proof.
  unfold nothing_to_search.
  rewrite andb_true_iff, !negb_true_iff, !truthy_string_empty. tauto.
Qed.

Lemma something_to_search (query : jsstring) (f : FilterState) :
  mainIngredient f <> [] -> nothing_to_search query f = false.
Proof.
  intros H. apply truthy_string_nonempty in H. unfold nothing_to_search.
  rewrite H. apply andb_false_r.
Qed.

Lemma obj_lookup_set_eq k v props : obj_lookup k (obj_set k v props) = Some v.
Proof.
  induction props as [|[k' v'] r IH]; simpl.
  - case_decide; congruence.
  - case_decide; simpl; case_decide; congruence.
Qed.

Lemma obj_lookup_set_ne k k' v props :
  k' <> k -> obj_lookup k' (obj_set k v props) = obj_lookup k' props.
Proof.
  intros Hne. induction props as [|[k0 v0] r IH]; simpl.
  - case_decide; congruence.
  - case_decide; simpl; repeat case_decide; congruence.
Qed.

(** What an object spread followed by [imageUrl] holds: the image, and
    under every other name what the spread value has there, read as
    [undefined] where it has nothing. *)
Lemma field_with_imageUrl (data : value) (img : option jsstring) :
  field (js "imageUrl") (with_imageUrl data img)
  = match img with Some u => JString u | None => JUndefined end
  /\ forall k, k <> js "imageUrl" ->
       field k (with_imageUrl data img) = obj_get k (own_props data).
Proof.
  unfold with_imageUrl, field, obj_get. split.
  - rewrite obj_lookup_set_eq. reflexivity.
  - intros k Hne. rewrite obj_lookup_set_ne by exact Hne. reflexivity.
Qed.

(** ** Filters *)

Lemma filter_get_set_eq key v f : filter_get key (filter_set key v f) = v.
Proof. destruct key; reflexivity. Qed.

Lemma filter_get_set_ne key key' v f :
  key' <> key -> filter_get key' (filter_set key v f) = filter_get key' f.
Proof. destruct key, key'; simpl; congruence. Qed.

(** C8. Toggling a filter key to the value it holds empties the key,
    toggling it to another value stores that value in place of the former
    one, and no other key changes. *)
Theorem toggleFilter_single_select (f : FilterState) (key : FilterKey)
        (value : jsstring) :
  (filter_get key f = value ->
   filter_get key (toggleFilter key value f) = [])
  /\ (filter_get key f <> value ->
      filter_get key (toggleFilter key value f) = value)
  /\ (forall key', key' <> key ->
        filter_get key' (toggleFilter key value f) = filter_get key' f).
Proof.
  unfold toggleFilter. repeat split.
  - intros Heq. rewrite filter_get_set_eq. case_decide; congruence.
  - intros Hne. rewrite filter_get_set_eq. case_decide; congruence.
  - intros key' Hne. apply filter_get_set_ne, Hne.
Qed.

Lemma toggleFilter_single_select_witness :
  filter_get Kcuisine (toggleFilter Kcuisine (js "川菜") Samples.two_filters) = []
  /\ filter_get Kcuisine (toggleFilter Kcuisine (js "粤菜") Samples.two_filters)
     = js "粤菜"
  /\ filter_get Kdifficulty (toggleFilter Kcuisine (js "粤菜") Samples.two_filters)
     = js "新手".
Proof.
  split; [|split].
  - apply (proj1 (toggleFilter_single_select Samples.two_filters Kcuisine
                    (js "川菜"))).
    reflexivity.
  - apply (proj1 (proj2 (toggleFilter_single_select Samples.two_filters
                           Kcuisine (js "粤菜")))).
    vm_compute. discriminate.
  - apply (proj2 (proj2 (toggleFilter_single_select Samples.two_filters
                           Kcuisine (js "粤菜")))).
    discriminate.
Defined.

(** The handler of either revision changes the filters of the state and
    nothing else. *)
Lemma Part000_toggle_state key value (s : Part000.State) :
  Part000.setFilters (toggleFilter key value) s
  = Part000.mkState (Part000.query s) (toggleFilter key value (Part000.filters s))
      (Part000.showFilters s) (Part000.loading s) (Part000.recipe s)
      (Part000.error s) (Part000.apiKey s) (Part000.showSettings s).
Proof. reflexivity. Qed.

Lemma Index_toggle_state key value (s : Index.State) :
  Index.setFilters (toggleFilter key value) s
  = Index.mkState (Index.query s) (toggleFilter key value (Index.filters s))
      (Index.showFilters s) (Index.loading s) (Index.recipe s) (Index.error s).
Proof. reflexivity. Qed.

(** ** The credential *)

Section Credential.
Import Part000.

Lemma load_stored (envKey : option jsstring)
      (storage : gmap jsstring jsstring) (k : jsstring) :
  storage !! storage_key = Some k -> k <> [] ->
  apiKey (load envKey storage) = k /\ showSettings (load envKey storage) = false.
Proof.
  intros Hk Hne. unfold load, initializeApiKey. simpl. rewrite Hk. simpl.
  apply truthy_string_nonempty in Hne. rewrite Hne. simpl. auto.
Qed.

Lemma load_env (envKey : jsstring) (storage : gmap jsstring jsstring) :
  storage !! storage_key = None -> envKey <> [] ->
  apiKey (load (Some envKey) storage) = envKey.
Proof.
  intros Hk Hne. unfold load, initializeApiKey. simpl. rewrite Hk. simpl.
  apply truthy_string_nonempty in Hne. rewrite Hne. reflexivity.
Qed.

Lemma load_absent (envKey : option jsstring)
      (storage : gmap jsstring jsstring) :
  storage !! storage_key = None -> default [] envKey = [] ->
  apiKey (load envKey storage) = [] /\ showSettings (load envKey storage) = true.
Proof.
  intros Hk He. unfold load, initializeApiKey. simpl. rewrite Hk, He. simpl.
  auto.
Qed.

(** A token that is empty after trimming is not saved. *)
Lemma blank_token_is_not_saved (token : jsstring) (p : Page) :
  trim token = [] -> handleSaveKey token p = p.
Proof. intros H. unfold handleSaveKey. rewrite H. reflexivity. Qed.

(** C9. For a token that is not empty after trimming: once saved, the
    credential loads as the trimmed token (which is also the key in
    use); once cleared, it loads as the value of the environment when
    there is one, and is absent (the empty key, with the settings asked
    for) when there is none. *)
Theorem credential_round_trip (token : jsstring) (envKey : option jsstring)
        (p q : Page) :
  (trim token <> [] ->
   apiKey (load envKey (localStorage (handleSaveKey token p))) = trim token
   /\ apiKey (st (handleSaveKey token p)) = trim token)
  /\ (forall e, envKey = Some e -> e <> [] ->
        apiKey (load envKey (localStorage (handleClearKey q))) = e)
  /\ (default [] envKey = [] ->
        apiKey (load envKey (localStorage (handleClearKey q))) = []
        /\ showSettings (load envKey (localStorage (handleClearKey q))) = true).
Proof.
  split; [|split].
  - intros Hne. pose proof Hne as Ht. apply truthy_string_nonempty in Ht.
    unfold handleSaveKey. rewrite Ht. simpl. split; [|reflexivity].
    apply load_stored; [apply lookup_insert_eq | exact Hne].
  - intros e -> He. apply load_env; [apply lookup_delete_eq | exact He].
  - intros He. apply load_absent; [apply lookup_delete_eq | exact He].
Qed.

Lemma credential_round_trip_witness :
  (apiKey (load None (localStorage
                        (handleSaveKey Samples.padded_token Samples.empty_page)))
   = js "AIzaSy-demo"
   /\ apiKey (st (handleSaveKey Samples.padded_token Samples.empty_page))
      = js "AIzaSy-demo")
  /\ apiKey (load (Some (js "env-key"))
                  (localStorage (handleClearKey Samples.saved_page)))
     = js "env-key"
  /\ (apiKey (load None (localStorage (handleClearKey Samples.saved_page))) = []
      /\ showSettings
           (load None (localStorage (handleClearKey Samples.saved_page)))
         = true).
Proof.
  split; [|split].
  - change (js "AIzaSy-demo") with (trim Samples.padded_token).
    apply (proj1 (credential_round_trip Samples.padded_token None
                    Samples.empty_page Samples.saved_page)).
    vm_compute. discriminate.
  - apply (proj1 (proj2 (credential_round_trip Samples.padded_token
                           (Some (js "env-key")) Samples.empty_page
                           Samples.saved_page))
             (js "env-key") eq_refl).
    vm_compute. discriminate.
  - apply (proj2 (proj2 (credential_round_trip Samples.padded_token None
                           Samples.empty_page Samples.saved_page))).
    reflexivity.
Defined.

End Credential.

(** ** handleSearch with a credential store ([src/unnamed/part_000]) *)

Section Part000_search.
Import Part000.
Variable w : World.

Lemma Part000_no_key (s : State) :
  apiKey s = [] ->
  run w (handleSearch s) s = (setShowSettings true s, []).
Proof. intros H. unfold handleSearch. rewrite H. reflexivity. Qed.

Lemma Part000_validation (s : State) :
  apiKey s <> [] -> trim (query s) = [] -> mainIngredient (filters s) = [] ->
  run w (handleSearch s) s = (setError (Some validation_message) s, []).
Proof.
  intros Hkey Hq Hm. apply truthy_string_nonempty in Hkey.
  unfold handleSearch. rewrite Hkey.
  rewrite (proj2 (nothing_to_search_spec _ _) (conj Hq Hm)). reflexivity.
Qed.

(** The [catch] block leaves an error that is not the validation
    message, keeps the recipe and ends the loading; it issues no call. *)
Lemma Part000_catch (err : JsError) (s0 : State) :
  exists e,
    run w (catch err) s0
    = (setLoading false
         (setShowSettings
            (message_includes err (js "403")
             || message_includes err (js "API_KEY_INVALID")
             || showSettings s0)
            (setError (Some e) s0)), [])
    /\ e <> validation_message
    /\ (message_includes err (js "403") = false ->
        message_includes err (js "API_KEY_INVALID") = false ->
        message_includes err (js "429") = false ->
        e = js "生成失败: "
            ++ or_string (default [] (message err)) (js "未知错误")).
Proof.
  unfold catch.
  destruct (message_includes err (js "403")
            || message_includes err (js "API_KEY_INVALID")) eqn:Hauth.
  - eexists. split; [reflexivity|]. split.
    + vm_compute. discriminate.
    + intros H1 H2. rewrite H1, H2 in Hauth. discriminate.
  - destruct (message_includes err (js "429")) eqn:Hrate.
    + eexists. split; [destruct s0; reflexivity|]. split.
      * vm_compute. discriminate.
      * discriminate.
    + eexists. split; [destruct s0; reflexivity|]. split.
      * intros H. apply (f_equal head) in H. vm_compute in H. discriminate.
      * reflexivity.
Qed.

Lemma Part000_catch_no_calls (err : JsError) (s0 : State) :
  run w (catch err) s0 = ((run w (catch err) s0).1, []).
Proof. destruct (Part000_catch err s0) as (e & -> & _). reflexivity. Qed.

Section Reached.
Variables (s : State) (ai : GoogleGenAI).
Hypothesis Hreach : reaches_provider w s ai.

Local Abbreviation text_call := (mkCall ai (textRequest s)).

Lemma Part000_text_rejected (err : JsError) :
  generateContent w text_call = Throw err ->
  run w (handleSearch s) s
  = ((run w (catch err) (pending_state s)).1, [text_call]).
Proof.
  destruct Hreach as (Hkey & Hq & Hai). intros Htext.
  apply truthy_string_nonempty in Hkey.
  unfold handleSearch. rewrite Hkey, Hq. cbn. rewrite Hai. cbn.
  rewrite Htext. fold (pending_state s).
  rewrite Part000_catch_no_calls. reflexivity.
Qed.

Lemma Part000_parse_failed (r : GenerateContentResponse) (err : JsError) :
  generateContent w text_call = Ok r ->
  JSON_parse (text_or_empty_object r) = Throw err ->
  run w (handleSearch s) s
  = ((run w (catch err) (pending_state s)).1, [text_call]).
Proof.
  destruct Hreach as (Hkey & Hq & Hai). intros Htext Hparse.
  apply truthy_string_nonempty in Hkey.
  unfold handleSearch. rewrite Hkey, Hq. cbn. rewrite Hai. cbn.
  rewrite Htext, Hparse. fold (pending_state s).
  rewrite Part000_catch_no_calls. reflexivity.
Qed.

(** The state a search ends in when its text was parsed. *)
Local Abbreviation merged data img :=
  (setLoading false
     (setRecipe (Some (with_imageUrl data img)) (pending_state s))).

(** The inner [try] threw before the image call: the title could not be
    read or could not be printed. *)
Lemma Part000_title_throws (r : GenerateContentResponse) (data : value) :
  generateContent w text_call = Ok r ->
  JSON_parse (text_or_empty_object r) = Ok data ->
  get_prop data (js "title") ≫= imageRequest = None ->
  run w (handleSearch s) s = (merged data None, [text_call]).
Proof.
  destruct Hreach as (Hkey & Hq & Hai). intros Htext Hparse Htitle.
  apply truthy_string_nonempty in Hkey.
  unfold handleSearch. rewrite Hkey, Hq. cbn. rewrite Hai. cbn.
  rewrite Htext, Hparse, Htitle. reflexivity.
Qed.

Lemma Part000_image_rejected (r : GenerateContentResponse)
      (data : value) (request : GenerateContentParameters) (err : JsError) :
  generateContent w text_call = Ok r ->
  JSON_parse (text_or_empty_object r) = Ok data ->
  get_prop data (js "title") ≫= imageRequest = Some request ->
  generateContent w (mkCall ai request) = Throw err ->
  run w (handleSearch s) s
  = (merged data None, [text_call; mkCall ai request]).
Proof.
  destruct Hreach as (Hkey & Hq & Hai). intros Htext Hparse Htitle Himg.
  apply truthy_string_nonempty in Hkey.
  unfold handleSearch. rewrite Hkey, Hq. cbn. rewrite Hai. cbn.
  rewrite Htext, Hparse, Htitle. cbn. rewrite Himg.
  reflexivity.
Qed.

Lemma Part000_image_resolved (r ir : GenerateContentResponse)
      (data : value) (request : GenerateContentParameters) :
  generateContent w text_call = Ok r ->
  JSON_parse (text_or_empty_object r) = Ok data ->
  get_prop data (js "title") ≫= imageRequest = Some request ->
  generateContent w (mkCall ai request) = Ok ir ->
  run w (handleSearch s) s
  = (merged data (generatedImageUrl ir), [text_call; mkCall ai request]).
Proof.
  destruct Hreach as (Hkey & Hq & Hai). intros Htext Hparse Htitle Himg.
  apply truthy_string_nonempty in Hkey.
  unfold handleSearch. rewrite Hkey, Hq. cbn. rewrite Hai. cbn.
  rewrite Htext, Hparse, Htitle. cbn. rewrite Himg.
  reflexivity.
Qed.

(** Whatever the image call does, a parsed text ends in a recipe. *)
Lemma Part000_parsed (r : GenerateContentResponse) (data : value) :
  generateContent w text_call = Ok r ->
  JSON_parse (text_or_empty_object r) = Ok data ->
  exists img calls,
    run w (handleSearch s) s = (merged data img, text_call :: calls).
Proof.
  intros Htext Hparse.
  destruct (get_prop data (js "title") ≫= imageRequest)
    as [request|] eqn:Htitle.
  - destruct (generateContent w (mkCall ai request)) as [ir|err] eqn:Himg.
    + eexists _, _. eapply Part000_image_resolved; eassumption.
    + eexists _, _. eapply Part000_image_rejected; eassumption.
  - eexists _, _. eapply Part000_title_throws; eassumption.
Qed.

(** A search that reaches the provider calls it with the text request
    first and does not end in the validation message. *)
Lemma Part000_reached :
  exists s' calls,
    run w (handleSearch s) s = (s', text_call :: calls)
    /\ error s' <> Some validation_message.
Proof.
  destruct (generateContent w text_call) as [r|err] eqn:Htext.
  - destruct (JSON_parse (text_or_empty_object r)) as [data|err] eqn:Hparse.
    + destruct (Part000_parsed r data Htext Hparse) as (img & calls & ->).
      eexists _, _. split; [reflexivity|]. discriminate.
    + rewrite (Part000_parse_failed r err Htext Hparse).
      destruct (Part000_catch err (pending_state s)) as (e & -> & Hne & _).
      eexists _, _. split; [reflexivity|]. simpl. congruence.
  - rewrite (Part000_text_rejected err Htext).
    destruct (Part000_catch err (pending_state s)) as (e & -> & Hne & _).
    eexists _, _. split; [reflexivity|]. simpl. congruence.
Qed.
End Reached.

End Part000_search.

(** ** handleSearch without a credential store ([src/index.tsx]) *)

Section Index_search.
Import Index.
Variable w : World.
Variable API_KEY : option jsstring.

Lemma Index_validation (s : State) :
  trim (query s) = [] -> mainIngredient (filters s) = [] ->
  run w (handleSearch API_KEY s) s
  = (setError (Some validation_message) s, []).
Proof.
  intros Hq Hm. unfold handleSearch.
  rewrite (proj2 (nothing_to_search_spec _ _) (conj Hq Hm)). reflexivity.
Qed.

Section Reached.
Variables (s : State) (ai : GoogleGenAI).
Hypothesis Hreach : reaches_provider w API_KEY s ai.

Local Abbreviation text_call := (mkCall ai (textRequest s)).
Local Abbreviation image_call := (mkCall ai (imageRequest s)).

(** The state a search ends in when its [catch] block ran. *)
Local Abbreviation failed :=
  (setLoading false (setError (Some generic_failure) (pending_state s))).

Lemma Index_rejected (err : JsError) :
  Promise_all2 (generateContent w text_call) (generateContent w image_call)
  = Throw err ->
  run w (handleSearch API_KEY s) s = (failed, [text_call; image_call]).
Proof.
  destruct Hreach as (Hq & Hai). intros Hall.
  unfold handleSearch. rewrite Hq. cbn. rewrite Hai. cbn.
  rewrite Hall. reflexivity.
Qed.

Lemma Index_parse_failed (r ir : GenerateContentResponse) (err : JsError) :
  generateContent w text_call = Ok r ->
  generateContent w image_call = Ok ir ->
  parse_text r = Throw err ->
  run w (handleSearch API_KEY s) s = (failed, [text_call; image_call]).
Proof.
  destruct Hreach as (Hq & Hai). intros Htext Himg Hparse.
  unfold handleSearch. rewrite Hq. cbn. rewrite Hai. cbn.
  rewrite Htext, Himg. cbn. rewrite Hparse.
  reflexivity.
Qed.

Lemma Index_parsed (r ir : GenerateContentResponse) (data : value) :
  generateContent w text_call = Ok r ->
  generateContent w image_call = Ok ir ->
  parse_text r = Ok data ->
  run w (handleSearch API_KEY s) s
  = (setLoading false
       (if truthy data
        then setRecipe (Some (with_imageUrl data (generatedImageUrl ir)))
                       (pending_state s)
        else pending_state s),
     [text_call; image_call]).
Proof.
  destruct Hreach as (Hq & Hai). intros Htext Himg Hparse.
  unfold handleSearch. rewrite Hq. cbn. rewrite Hai. cbn.
  rewrite Htext, Himg. cbn. rewrite Hparse.
  destruct (truthy data); reflexivity.
Qed.

Lemma Index_reached :
  exists s',
    run w (handleSearch API_KEY s) s = (s', [text_call; image_call])
    /\ error s' <> Some validation_message.
Proof.
  destruct (generateContent w text_call) as [r|err] eqn:Htext.
  - destruct (generateContent w image_call) as [ir|err] eqn:Himg.
    + destruct (parse_text r) as [data|err] eqn:Hparse.
      * rewrite (Index_parsed r ir data Htext Himg Hparse).
        eexists. split; [reflexivity|]. destruct (truthy data); discriminate.
      * rewrite (Index_parse_failed r ir err Htext Himg Hparse).
        eexists. split; [reflexivity|]. vm_compute. discriminate.
    + rewrite (Index_rejected err)
        by (rewrite Htext, Himg; reflexivity).
      eexists. split; [reflexivity|]. vm_compute. discriminate.
  - rewrite (Index_rejected err)
      by (rewrite Htext; reflexivity).
    eexists. split; [reflexivity|]. vm_compute. discriminate.
Qed.
End Reached.

End Index_search.

(** ** The searches: validation, classification and merging *)

(** C6, as the code has it.  A search with nothing to search for (a query
    that is empty after trimming and an empty main ingredient) ends with
    the validation message as its error, issues no call and changes
    nothing else, the recipe included; in the revision with a credential
    store this holds when a key is held, and without a key the handler
    opens the settings instead, again without a call. *)
Theorem empty_search_is_stopped_before_any_call :
  (forall w API_KEY (s : Index.State),
      trim (Index.query s) = [] -> mainIngredient (Index.filters s) = [] ->
      run w (Index.handleSearch API_KEY s) s
      = (Index.setError (Some validation_message) s, []))
  /\ (forall w (s : Part000.State),
        trim (Part000.query s) = [] -> mainIngredient (Part000.filters s) = [] ->
        Part000.apiKey s <> [] ->
        run w (Part000.handleSearch s) s
        = (Part000.setError (Some validation_message) s, []))
  /\ (forall w (s : Part000.State),
        Part000.apiKey s = [] ->
        run w (Part000.handleSearch s) s = (Part000.setShowSettings true s, [])).
Proof.
  split; [|split].
  - intros. apply Index_validation; assumption.
  - intros. apply Part000_validation; assumption.
  - intros. apply Part000_no_key; assumption.
Qed.

Lemma empty_search_is_stopped_before_any_call_witness :
  run Samples.offline (Index.handleSearch None Samples.blank_query)
      Samples.blank_query
  = (Index.setError (Some validation_message) Samples.blank_query, [])
  /\ run Samples.offline (Part000.handleSearch Samples.keyed_blank_query)
         Samples.keyed_blank_query
     = (Part000.setError (Some validation_message) Samples.keyed_blank_query, [])
  /\ run Samples.offline (Part000.handleSearch Part000.initial) Part000.initial
     = (Part000.setShowSettings true Part000.initial, []).
Proof.
  split; [|split].
  - apply (proj1 empty_search_is_stopped_before_any_call); reflexivity.
  - apply (proj1 (proj2 empty_search_is_stopped_before_any_call));
      [reflexivity | reflexivity | vm_compute; discriminate].
  - apply (proj2 (proj2 empty_search_is_stopped_before_any_call)). reflexivity.
Defined.

(** C6, as stated, fails in the revision with a credential store: with no
    key held, a search with an empty query and no main ingredient opens
    the settings and leaves the error unset. *)
Lemma empty_search_without_key_sets_no_error :
  trim (Part000.query Part000.initial) = []
  /\ mainIngredient (Part000.filters Part000.initial) = []
  /\ Part000.error
       (run Samples.offline (Part000.handleSearch Part000.initial)
            Part000.initial).1 = None
  /\ Part000.showSettings
       (run Samples.offline (Part000.handleSearch Part000.initial)
            Part000.initial).1 = true.
Proof. repeat split; reflexivity. Qed.

(** The credential rejections the [catch] block recognises: when the
    text-generation call of a search is rejected with a message that
    contains 403 or API_KEY_INVALID, the search ends with the
    invalid-credential message as its error, the settings modal open and
    no recipe. *)
Lemma authorization_error_reopens_settings (w : World) (s : Part000.State)
        (ai : GoogleGenAI) (err : JsError) :
  Part000.reaches_provider w s ai ->
  generateContent w (mkCall ai (Part000.textRequest s)) = Throw err ->
  Part000.message_includes err (js "403") = true
  \/ Part000.message_includes err (js "API_KEY_INVALID") = true ->
  let s' := (run w (Part000.handleSearch s) s).1 in
  Part000.error s' = Some (js "API Key 无效。请检查设置。")
  /\ Part000.showSettings s' = true
  /\ Part000.recipe s' = None
  /\ Part000.loading s' = false.
Proof.
  intros Hreach Htext Hauth.
  rewrite (Part000_text_rejected w s ai Hreach err Htext).
  unfold Part000.catch.
  replace (Part000.message_includes err (js "403")
           || Part000.message_includes err (js "API_KEY_INVALID")) with true
    by (destruct Hauth as [-> | ->]; [reflexivity | symmetry; apply orb_true_r]).
  cbn. auto.
Qed.

Lemma authorization_error_reopens_settings_witness :
  Part000.error
    (run Samples.key_rejected (Part000.handleSearch Samples.keyed_query)
         Samples.keyed_query).1 = Some (js "API Key 无效。请检查设置。")
  /\ Part000.showSettings
       (run Samples.key_rejected (Part000.handleSearch Samples.keyed_query)
            Samples.keyed_query).1 = true
  /\ Part000.recipe
       (run Samples.key_rejected (Part000.handleSearch Samples.keyed_query)
            Samples.keyed_query).1 = None
  /\ Part000.loading
       (run Samples.key_rejected (Part000.handleSearch Samples.keyed_query)
            Samples.keyed_query).1 = false.
Proof.
  apply (authorization_error_reopens_settings Samples.key_rejected
           Samples.keyed_query (mkClient (Some Samples.demo_key))
           Samples.forbidden).
  - split; [vm_compute; discriminate | split; reflexivity].
  - reflexivity.
  - left. vm_compute. reflexivity.
Defined.

(** C7 fails on the code: a credential rejection is recognised by its
    message alone.  When the text-generation call is rejected with an
    error whose message contains neither 403 nor API_KEY_INVALID, as that
    of a rejection with status 401 does, the search ends as a rate-limit
    or a generic failure: the error is not the invalid-credential
    message, and the settings modal is left as it was. *)
Theorem unrecognised_credential_rejection_is_generic (w : World)
        (s : Part000.State) (ai : GoogleGenAI) (err : JsError) :
  Part000.reaches_provider w s ai ->
  generateContent w (mkCall ai (Part000.textRequest s)) = Throw err ->
  Part000.message_includes err (js "403") = false ->
  Part000.message_includes err (js "API_KEY_INVALID") = false ->
  let s' := (run w (Part000.handleSearch s) s).1 in
  Part000.error s'
  = Some (if Part000.message_includes err (js "429")
          then js "请求太频繁了，请稍后再试。"
          else js "生成失败: "
               ++ or_string (default [] (message err)) (js "未知错误"))
  /\ Part000.error s' <> Some (js "API Key 无效。请检查设置。")
  /\ Part000.showSettings s' = Part000.showSettings s
  /\ Part000.recipe s' = None
  /\ Part000.loading s' = false.
Proof.
  intros Hreach Htext H403 Hinvalid.
  rewrite (Part000_text_rejected w s ai Hreach err Htext).
  unfold Part000.catch. rewrite H403, Hinvalid. cbn [orb].
  destruct (Part000.message_includes err (js "429")); cbn.
  - repeat split; try reflexivity. vm_compute. discriminate.
  - repeat split; try reflexivity.
    intros H. apply (f_equal (fun e => head (default [] e))) in H.
    vm_compute in H. discriminate.
Qed.

Lemma unrecognised_credential_rejection_is_generic_witness :
  Part000.error
    (run Samples.key_unauthenticated
         (Part000.handleSearch Samples.keyed_query) Samples.keyed_query).1
  = Some (js "生成失败: [401 Unauthorized] Request had invalid authentication credentials.")
  /\ Part000.error
       (run Samples.key_unauthenticated
            (Part000.handleSearch Samples.keyed_query) Samples.keyed_query).1
     <> Some (js "API Key 无效。请检查设置。")
  /\ Part000.showSettings
       (run Samples.key_unauthenticated
            (Part000.handleSearch Samples.keyed_query) Samples.keyed_query).1
     = false
  /\ Part000.recipe
       (run Samples.key_unauthenticated
            (Part000.handleSearch Samples.keyed_query) Samples.keyed_query).1
     = None
  /\ Part000.loading
       (run Samples.key_unauthenticated
            (Part000.handleSearch Samples.keyed_query) Samples.keyed_query).1
     = false.
Proof.
  apply (unrecognised_credential_rejection_is_generic
           Samples.key_unauthenticated Samples.keyed_query
           (mkClient (Some Samples.demo_key)) Samples.unauthenticated).
  - split; [vm_compute; discriminate | split; reflexivity].
  - reflexivity.
  - vm_compute. reflexivity.
  - vm_compute. reflexivity.
Defined.

(** C10. A search whose query is empty after trimming and whose main
    ingredient is blank but not empty (a single space, say) passes the
    validation: it does not end in the validation message, and the text
    request is issued. *)
Theorem blank_ingredient_passes_validation (w : World) :
  (forall API_KEY (s : Index.State) ai,
      trim (Index.query s) = [] ->
      mainIngredient (Index.filters s) <> [] ->
      trim (mainIngredient (Index.filters s)) = [] ->
      new_GoogleGenAI w API_KEY = Ok ai ->
      exists s',
        run w (Index.handleSearch API_KEY s) s
        = (s', [mkCall ai (Index.textRequest s); mkCall ai (Index.imageRequest s)])
        /\ Index.error s' <> Some validation_message)
  /\ (forall (s : Part000.State) ai,
        trim (Part000.query s) = [] ->
        mainIngredient (Part000.filters s) <> [] ->
        trim (mainIngredient (Part000.filters s)) = [] ->
        Part000.apiKey s <> [] ->
        new_GoogleGenAI w (Some (Part000.apiKey s)) = Ok ai ->
        exists s' calls,
          run w (Part000.handleSearch s) s
          = (s', mkCall ai (Part000.textRequest s) :: calls)
          /\ Part000.error s' <> Some validation_message).
Proof.
  split.
  - intros API_KEY s ai _ Hm _ Hai. apply Index_reached.
    split; [apply something_to_search, Hm | exact Hai].
  - intros s ai _ Hm _ Hkey Hai. apply Part000_reached.
    split; [exact Hkey | split; [apply something_to_search, Hm | exact Hai]].
Qed.

Lemma blank_ingredient_passes_validation_witness :
  (exists s',
      run Samples.offline
          (Index.handleSearch None Samples.plain_blank_ingredient)
          Samples.plain_blank_ingredient
      = (s', [mkCall (mkClient None)
                     (Index.textRequest Samples.plain_blank_ingredient);
              mkCall (mkClient None)
                     (Index.imageRequest Samples.plain_blank_ingredient)])
      /\ Index.error s' <> Some validation_message)
  /\ (exists s' calls,
        run Samples.offline
            (Part000.handleSearch Samples.keyed_blank_ingredient)
            Samples.keyed_blank_ingredient
        = (s', mkCall (mkClient (Some Samples.demo_key))
                      (Part000.textRequest Samples.keyed_blank_ingredient)
               :: calls)
        /\ Part000.error s' <> Some validation_message).
Proof.
  split.
  - apply (proj1 (blank_ingredient_passes_validation Samples.offline));
      [reflexivity | vm_compute; discriminate | reflexivity | reflexivity].
  - apply (proj2 (blank_ingredient_passes_validation Samples.offline));
      [reflexivity | vm_compute; discriminate | reflexivity
       | vm_compute; discriminate | reflexivity].
Defined.

(** The sequential revision swallows a failure of the image call: when the
    text was parsed and the image call is rejected (or its prompt cannot
    be built), the search ends with the recipe, whose fields other than
    the image are those of the text and whose image is [undefined]. *)
Lemma Part000_image_failure_is_swallowed (w : World) (s : Part000.State)
      (ai : GoogleGenAI) (r : GenerateContentResponse) (data : value) :
  Part000.reaches_provider w s ai ->
  generateContent w (mkCall ai (Part000.textRequest s)) = Ok r ->
  JSON_parse (Part000.text_or_empty_object r) = Ok data ->
  (forall request,
      get_prop data (js "title") ≫= Part000.imageRequest = Some request ->
      exists err, generateContent w (mkCall ai request) = Throw err) ->
  let s' := (run w (Part000.handleSearch s) s).1 in
  Part000.recipe s' = Some (with_imageUrl data None)
  /\ Part000.error s' = None
  /\ Part000.loading s' = false.
Proof.
  intros Hreach Htext Hparse Himg.
  destruct (get_prop data (js "title") ≫= Part000.imageRequest)
    as [request|] eqn:Htitle.
  - destruct (Himg request eq_refl) as [err Herr].
    rewrite (Part000_image_rejected w s ai Hreach r data request err
               Htext Hparse Htitle Herr).
    simpl. auto.
  - rewrite (Part000_title_throws w s ai Hreach r data Htext Hparse Htitle).
    simpl. auto.
Qed.

(** C1 fails in the parallel revision: the two calls are awaited through
    [Promise.all], so that a rejected image call rejects the pair; the
    search then ends in the generic failure, without a recipe, although
    the text call succeeded. *)
Theorem parallel_image_rejection_fails_the_search (w : World)
        (API_KEY : option jsstring) (s : Index.State) (ai : GoogleGenAI)
        (r : GenerateContentResponse) (err : JsError) :
  Index.reaches_provider w API_KEY s ai ->
  generateContent w (mkCall ai (Index.textRequest s)) = Ok r ->
  generateContent w (mkCall ai (Index.imageRequest s)) = Throw err ->
  let s' := (run w (Index.handleSearch API_KEY s) s).1 in
  Index.recipe s' = None
  /\ Index.error s' = Some Index.generic_failure
  /\ Index.loading s' = false.
Proof.
  intros Hreach Htext Himg.
  rewrite (Index_rejected w API_KEY s ai Hreach err)
    by (rewrite Htext, Himg; reflexivity).
  simpl. auto.
Qed.

Lemma parallel_image_rejection_fails_the_search_witness :
  Index.recipe
    (run Samples.image_down
         (Index.handleSearch (Some Samples.demo_key) Samples.plain_query)
         Samples.plain_query).1 = None
  /\ Index.error
       (run Samples.image_down
            (Index.handleSearch (Some Samples.demo_key) Samples.plain_query)
            Samples.plain_query).1 = Some Index.generic_failure
  /\ Index.loading
       (run Samples.image_down
            (Index.handleSearch (Some Samples.demo_key) Samples.plain_query)
            Samples.plain_query).1 = false.
Proof.
  apply (parallel_image_rejection_fails_the_search Samples.image_down
           (Some Samples.demo_key) Samples.plain_query
           (mkClient (Some Samples.demo_key))
           (Samples.text_response (Samples.text_of Samples.bare_recipe))
           Samples.unavailable).
  - split; reflexivity.
  - reflexivity.
  - reflexivity.
Defined.

(** The same provider, asked by the sequential revision, yields the
    recipe. *)
Example sequential_image_rejection_keeps_the_recipe :
  Part000.recipe
    (run Samples.image_down (Part000.handleSearch Samples.keyed_query)
         Samples.keyed_query).1
  = Some (with_imageUrl Samples.bare_recipe None).
Proof. reflexivity. Qed.

(** A title that cannot be converted to a string: the inner [try] throws
    before the image call, which is not made, and the recipe is stored
    without an image although the provider would have sent one. *)
Example unprintable_title_makes_no_image_call :
  Part000.imageRequest (field (js "title") Samples.odd_title) = None
  /\ run Samples.odd_title_reply (Part000.handleSearch Samples.keyed_query)
         Samples.keyed_query
     = (Part000.setLoading false
          (Part000.setRecipe (Some (with_imageUrl Samples.odd_title None))
             (Part000.pending_state Samples.keyed_query)),
        [mkCall (mkClient (Some Samples.demo_key))
                (Part000.textRequest Samples.keyed_query)]).
Proof. split; reflexivity. Qed.

(** What the two revisions parse: the sequential one reads a missing or
    empty text as the empty object, the parallel one throws on it. *)
Lemma parsed_text :
  (forall r,
      Part000.text_or_empty_object r = empty_object_text
      \/ exists t, text r = Some t /\ source t <> []
                   /\ Part000.text_or_empty_object r = t)
  /\ (forall r,
        Index.parse_text r
        = Throw (mkError (Some (js "Text generation failed")))
        \/ exists t, text r = Some t /\ source t <> []
                     /\ Index.parse_text r = JSON_parse t).
Proof.
  split; intros r; unfold Part000.text_or_empty_object, Index.parse_text;
    (destruct (text r) as [t|]; [|left; reflexivity]);
    (destruct (truthy_string (source t)) eqn:Ht; [|left; reflexivity]);
    right; exists t; apply truthy_string_nonempty in Ht; auto.
Qed.

(** C3, as the code has it.  Once the text call is fulfilled, and in the
    parallel revision the image call with it, the text of the response
    is parsed and not validated.  Whatever [JSON.parse] yields becomes
    the recipe, with the fields it lacks left unset, be they optional or
    required (the parallel revision sets neither a recipe nor an error
    for a falsy value); the search then fails when the text cannot be
    parsed, in the parallel revision also when there is no text, and the
    sequential revision classifies the error by its message, as a
    generation failure unless it mentions 403, API_KEY_INVALID or
    429. *)
Theorem response_parsing_is_optimistic (w : World) :
  (forall (s : Part000.State) ai r,
      Part000.reaches_provider w s ai ->
      generateContent w (mkCall ai (Part000.textRequest s)) = Ok r ->
      let s' := (run w (Part000.handleSearch s) s).1 in
      (forall data,
          JSON_parse (Part000.text_or_empty_object r) = Ok data ->
          exists img,
            Part000.recipe s' = Some (with_imageUrl data img)
            /\ Part000.error s' = None)
      /\ (forall err,
            JSON_parse (Part000.text_or_empty_object r) = Throw err ->
            Part000.recipe s' = None
            /\ exists e,
                Part000.error s' = Some e
                /\ (Part000.message_includes err (js "403") = false ->
                    Part000.message_includes err (js "API_KEY_INVALID") = false ->
                    Part000.message_includes err (js "429") = false ->
                    e = js "生成失败: "
                        ++ or_string (default [] (message err)) (js "未知错误"))))
  /\ (forall API_KEY (s : Index.State) ai r ir,
        Index.reaches_provider w API_KEY s ai ->
        generateContent w (mkCall ai (Index.textRequest s)) = Ok r ->
        generateContent w (mkCall ai (Index.imageRequest s)) = Ok ir ->
        let s' := (run w (Index.handleSearch API_KEY s) s).1 in
        (forall data,
            Index.parse_text r = Ok data -> truthy data = true ->
            Index.recipe s'
            = Some (with_imageUrl data (Index.generatedImageUrl ir))
            /\ Index.error s' = None)
        /\ (forall data,
              Index.parse_text r = Ok data -> truthy data = false ->
              Index.recipe s' = None /\ Index.error s' = None)
        /\ (forall err,
              Index.parse_text r = Throw err ->
              Index.recipe s' = None
              /\ Index.error s' = Some Index.generic_failure)).
Proof.
  split.
  - intros s ai r Hreach Htext s'. subst s'. split.
    + intros data Hparse.
      destruct (Part000_parsed w s ai Hreach r data Htext Hparse)
        as (img & calls & ->).
      exists img. simpl. auto.
    + intros err Hparse.
      rewrite (Part000_parse_failed w s ai Hreach r err Htext Hparse).
      destruct (Part000_catch w err (Part000.pending_state s))
        as (e & -> & _ & He).
      simpl. split; [reflexivity|]. exists e. auto.
  - intros API_KEY s ai r ir Hreach Htext Himg s'. subst s'.
    split; [|split].
    + intros data Hparse Htruthy.
      rewrite (Index_parsed w API_KEY s ai Hreach r ir data Htext Himg Hparse).
      rewrite Htruthy. simpl. auto.
    + intros data Hparse Htruthy.
      rewrite (Index_parsed w API_KEY s ai Hreach r ir data Htext Himg Hparse).
      rewrite Htruthy. simpl. auto.
    + intros err Hparse.
      rewrite (Index_parse_failed w API_KEY s ai Hreach r ir err Htext Himg Hparse).
      simpl. auto.
Qed.

Lemma response_parsing_is_optimistic_witness :
  (exists img,
      Part000.recipe
        (run Samples.empty_object_reply
             (Part000.handleSearch Samples.keyed_query) Samples.keyed_query).1
      = Some (with_imageUrl (JObject []) img)
      /\ Part000.error
           (run Samples.empty_object_reply
                (Part000.handleSearch Samples.keyed_query) Samples.keyed_query).1
         = None)
  /\ Part000.recipe
       (run Samples.markup_reply
            (Part000.handleSearch Samples.keyed_query) Samples.keyed_query).1
     = None
  /\ (Index.recipe
        (run Samples.empty_object_and_image
             (Index.handleSearch None Samples.plain_query) Samples.plain_query).1
      = Some (with_imageUrl (JObject [])
                (Index.generatedImageUrl Samples.image_response))
      /\ Index.error
           (run Samples.empty_object_and_image
                (Index.handleSearch None Samples.plain_query)
                Samples.plain_query).1
         = None)
  /\ Index.error
       (run Samples.markup_reply
            (Index.handleSearch None Samples.plain_query) Samples.plain_query).1
     = Some Index.generic_failure.
Proof.
  split; [|split; [|split]].
  - apply (proj1 (proj1 (response_parsing_is_optimistic Samples.empty_object_reply)
                    Samples.keyed_query (mkClient (Some Samples.demo_key))
                    (Samples.text_response empty_object_text)
                    ltac:(split; [vm_compute; discriminate | split; reflexivity])
                    eq_refl)
             (JObject []) eq_refl).
  - apply (proj2 (proj1 (response_parsing_is_optimistic Samples.markup_reply)
                    Samples.keyed_query (mkClient (Some Samples.demo_key))
                    _
                    ltac:(split; [vm_compute; discriminate | split; reflexivity])
                    eq_refl)
             Samples.syntax_error eq_refl).
  - apply (proj1 (proj2 (response_parsing_is_optimistic
                           Samples.empty_object_and_image)
                    None Samples.plain_query (mkClient None)
                    (Samples.text_response empty_object_text)
                    Samples.image_response
                    ltac:(split; reflexivity) eq_refl eq_refl)
             (JObject []) eq_refl eq_refl).
  - apply (proj2 (proj2 (proj2 (response_parsing_is_optimistic
                                  Samples.markup_reply)
                           None Samples.plain_query (mkClient None) _
                           Samples.image_response
                           ltac:(split; reflexivity) eq_refl eq_refl))
             Samples.syntax_error eq_refl).
Defined.

(** C3, as stated, fails: a response whose text is the empty object lacks
    all four required fields, and the search ends with a recipe (on which
    every one of them reads [undefined]) and without an error. *)
Lemma missing_required_fields_are_accepted :
  Part000.recipe
    (run Samples.empty_object_reply
         (Part000.handleSearch Samples.keyed_query) Samples.keyed_query).1
  = Some (JObject [(js "imageUrl", JUndefined)])
  /\ Part000.error
       (run Samples.empty_object_reply
            (Part000.handleSearch Samples.keyed_query) Samples.keyed_query).1
     = None
  /\ Index.recipe
       (run Samples.empty_object_and_image
            (Index.handleSearch None Samples.plain_query) Samples.plain_query).1
     = Some (JObject [(js "imageUrl",
                       JString (js "data:image/png;base64,iVBORw0KGgo="))])
  /\ Index.error
       (run Samples.empty_object_and_image
            (Index.handleSearch None Samples.plain_query) Samples.plain_query).1
     = None.
Proof. vm_compute. repeat split; reflexivity. Qed.

(** ** The output schema *)

(** C4, as the code has it.  Whatever the query and the filters, the
    schema of the text request declares the ten fields of a recipe; the
    revision with a credential store requires exactly title, summary,
    ingredients and steps, and the earlier revision requires all but
    calories and reviewCount. *)
Theorem schema_required_fields :
  (forall s : Part000.State,
      exists sch,
        responseSchema (config (Part000.textRequest s)) = Some sch
        /\ required sch = Samples.required_fields
        /\ map fst (properties sch) = Samples.declared_fields
        /\ Forall (fun k => k ∈ map fst (properties sch) /\ k ∉ required sch)
                  Samples.optional_fields)
  /\ (forall s : Index.State,
        exists sch,
          responseSchema (config (Index.textRequest s)) = Some sch
          /\ required sch
             = [js "title"; js "summary"; js "cuisine"; js "difficulty";
                js "totalTime"; js "ingredients"; js "steps"; js "rating"]
          /\ map fst (properties sch) = Samples.declared_fields
          /\ Forall (fun k => k ∈ map fst (properties sch) /\ k ∉ required sch)
                    [js "calories"; js "reviewCount"]).
Proof.
  split; intros s; eexists; (split; [reflexivity|]); (split; [reflexivity|]);
    (split; [reflexivity | refine (bool_decide_unpack _ _); vm_compute; exact I]).
Qed.

(** C4, as stated, fails in the earlier revision, whose schema requires
    eight fields, cuisine and rating among them. *)
Lemma earlier_schema_requires_more :
  (required <$> responseSchema (config (Index.textRequest Samples.plain_query)))
  <> Some Samples.required_fields
  /\ (required <$> responseSchema (config (Index.textRequest Samples.plain_query)))
     = Some [js "title"; js "summary"; js "cuisine"; js "difficulty";
             js "totalTime"; js "ingredients"; js "steps"; js "rating"].
Proof. split; [vm_compute; discriminate | reflexivity]. Qed.

(** ** Searches in flight *)

(** The button is disabled while a search is loading. *)
Lemma ClickSearch_while_loading :
  (forall w (x : Part000.Session),
      Part000.loading (Part000.st (Part000.page x)) = true ->
      Part000.step w Part000.ClickSearch x = x)
  /\ (forall w API_KEY (x : Index.Session),
        Index.loading (Index.st x) = true ->
        Index.step w API_KEY Index.ClickSearch x = x).
Proof. split; intros; simpl; rewrite H; reflexivity. Qed.

(** A handler that winds down, run to its next [await], has either ended
    with the flag cleared or is suspended with the flag untouched. *)
Lemma advance_winds_down {S} (loading : S -> bool) (w : World) (t : Task S) :
  winds_down loading t ->
  forall s,
    match advance w t s with
    | (s', None) => loading s' = false
    | (s', Some t') => loading s' = loading s /\ winds_down loading t'
    end.
Proof.
  induction t as [|f k IH|key k IH|c k IH|c1 c2 k IH]; simpl.
  - intros [].
  - intros [[-> Hf]|[Hf Hk]] s.
    + simpl. apply Hf.
    + specialize (IH Hk (f s)). destruct (advance w k (f s)) as [s' [t'|]].
      * destruct IH as [IH Ht']. split; [congruence | exact Ht'].
      * exact IH.
  - intros Hk s. apply IH, Hk.
  - intros Hk s. split; [reflexivity | exact Hk].
  - intros Hk s. split; [reflexivity | exact Hk].
Qed.

Lemma settle_winds_down {S} (loading : S -> bool) (w : World) (t : Task S) :
  winds_down loading t ->
  forall s,
    match settle w t s with
    | (s', None) => loading s' = false
    | (s', Some t') => loading s' = loading s /\ winds_down loading t'
    end.
Proof.
  intros Ht s. destruct t as [|f k|key k|c k|c1 c2 k]; simpl settle.
  - destruct Ht.
  - apply (advance_winds_down loading w (Update f k) Ht).
  - apply (advance_winds_down loading w (Construct key k) Ht).
  - apply advance_winds_down, Ht.
  - apply advance_winds_down, Ht.
Qed.

Lemma Part000_catch_winds_down (err : JsError) :
  winds_down Part000.loading (Part000.catch err).
Proof.
  unfold Part000.catch, Part000.finally.
  destruct (_ || _); [|destruct (Part000.message_includes _ _)]; simpl;
    repeat (right; split; [reflexivity|]); left; split; reflexivity.
Qed.

(** Called while nothing is loading, [handleSearch] either returns with
    nothing loading or is suspended with the flag set. *)
Lemma Part000_handleSearch_start (w : World) (s : Part000.State) :
  Part000.loading s = false ->
  match advance w (Part000.handleSearch s) s with
  | (s', None) => Part000.loading s' = false
  | (s', Some t) => Part000.loading s' = true /\ winds_down Part000.loading t
  end.
Proof.
  intros Hl. unfold Part000.handleSearch.
  destruct (negb _); [exact Hl|]. destruct (nothing_to_search _ _); [exact Hl|].
  cbn. destruct (new_GoogleGenAI w _) as [ai|err].
  - cbn. split; [reflexivity|]. intros [r|err]; [|apply Part000_catch_winds_down].
    destruct (JSON_parse _) as [data|err]; [|apply Part000_catch_winds_down].
    destruct (get_prop data _ ≫= Part000.imageRequest) as [request|].
    + simpl. intros [ir|err]; right; (split; [reflexivity|]); left;
        split; reflexivity.
    + right. split; [reflexivity|]. left. split; reflexivity.
  - pose proof (advance_winds_down Part000.loading w _
                  (Part000_catch_winds_down err)
                  (Part000.setRecipe None
                     (Part000.setError None (Part000.setLoading true s)))) as H.
    destruct (advance w (Part000.catch err) _) as [s' [t'|]].
    + destruct H as [-> H]. split; [reflexivity | exact H].
    + exact H.
Qed.

Lemma Index_handleSearch_start (w : World) (API_KEY : option jsstring)
      (s : Index.State) :
  Index.loading s = false ->
  match advance w (Index.handleSearch API_KEY s) s with
  | (s', None) => Index.loading s' = false
  | (s', Some t) => Index.loading s' = true /\ winds_down Index.loading t
  end.
Proof.
  intros Hl. unfold Index.handleSearch.
  destruct (nothing_to_search _ _); [exact Hl|].
  cbn. destruct (new_GoogleGenAI w _) as [ai|err]; cbn; [|reflexivity].
  split; [reflexivity|].
  assert (Hc : forall err, winds_down Index.loading (Index.catch err)).
  { intros err. right. split; [reflexivity|]. left. split; reflexivity. }
  intros [[r ir]|err]; [|apply Hc].
  destruct (Index.parse_text r) as [data|err]; [|apply Hc].
  destruct (truthy data).
  - right. split; [reflexivity|]. left. split; reflexivity.
  - left. split; reflexivity.
Qed.

(** Through the button alone, and through every event but Enter in the
    query field, at most one search is in flight. *)
Lemma Part000_one_at_a_time (w : World) (e : Part000.Event)
      (x : Part000.Session) :
  Part000.not_Enter e -> Part000.one_at_a_time x ->
  Part000.one_at_a_time (Part000.step w e x).
Proof.
  intros He Hx. destruct x as [[s ls] sus].
  assert (Hcall : Part000.loading s = false -> sus = [] ->
                  Part000.one_at_a_time
                    (Part000.call_handleSearch w
                       (Part000.mkSession (Part000.mkPage s ls) sus))).
  { intros Hl ->. unfold Part000.call_handleSearch. simpl.
    pose proof (Part000_handleSearch_start w s Hl) as H.
    destruct (advance w (Part000.handleSearch s) s) as [s' [t|]].
    - right. simpl. destruct H. eauto.
    - left. simpl. auto. }
  destruct e; simpl in *; unfold Part000.handleSaveKey;
    try (repeat match goal with |- context [if ?b then _ else _] => destruct b end;
         exact Hx).
  - rewrite bool_decide_eq_false_2 by exact He. exact Hx.
  - destruct (Part000.loading s) eqn:Hl; [exact Hx|].
    destruct Hx as [[_ Hs]|[Hx _]]; simpl in *; [|congruence].
    apply Hcall; [reflexivity | exact Hs].
  - destruct Hx as [[Hl Hs]|[Hl (t & Hs & Ht)]]; simpl in *; subst sus.
    + rewrite lookup_nil. left. simpl. auto.
    + destruct i as [|i]; simpl; [|right; simpl; eauto].
      pose proof (settle_winds_down Part000.loading w t Ht s) as H.
      destruct (settle w t s) as [s' [t'|]]; simpl.
      * right. simpl. destruct H as [-> H]. eauto.
      * left. simpl. auto.
Qed.

Lemma Index_one_at_a_time (w : World) (API_KEY : option jsstring)
      (e : Index.Event) (x : Index.Session) :
  Index.not_Enter e -> Index.one_at_a_time x ->
  Index.one_at_a_time (Index.step w API_KEY e x).
Proof.
  intros He Hx. destruct x as [s sus].
  destruct e; simpl in *;
    try (repeat match goal with |- context [if ?b then _ else _] => destruct b end;
         exact Hx).
  - rewrite bool_decide_eq_false_2 by exact He. exact Hx.
  - destruct (Index.loading s) eqn:Hl; [exact Hx|].
    destruct Hx as [[_ Hs]|[Hx _]]; simpl in *; [|congruence]. subst sus.
    unfold Index.call_handleSearch. simpl.
    pose proof (Index_handleSearch_start w API_KEY s Hl) as H.
    destruct (advance w (Index.handleSearch API_KEY s) s) as [s' [t|]].
    + right. simpl. destruct H. eauto.
    + left. simpl. auto.
  - destruct Hx as [[Hl Hs]|[Hl (t & Hs & Ht)]]; simpl in *; subst sus.
    + rewrite lookup_nil. left. simpl. auto.
    + destruct i as [|i]; simpl; [|right; simpl; eauto].
      pose proof (settle_winds_down Index.loading w t Ht s) as H.
      destruct (settle w t s) as [s' [t'|]]; simpl.
      * right. simpl. destruct H as [-> H]. eauto.
      * left. simpl. auto.
Qed.

Lemma one_at_a_time_in_flight :
  (forall x, Part000.one_at_a_time x -> (Part000.searches_in_flight x <= 1)%nat)
  /\ (forall x, Index.one_at_a_time x -> (Index.searches_in_flight x <= 1)%nat).
Proof.
  split; intros x [[_ H]|[_ (t & H & _)]];
    unfold Part000.searches_in_flight, Index.searches_in_flight;
    rewrite H; simpl; lia.
Qed.

(** Without Enter pressed in the query field, a session never has more
    than one search in flight. *)
Lemma sessions_without_Enter (w : World) :
  (forall es x,
      Forall Part000.not_Enter es -> Part000.one_at_a_time x ->
      (Part000.searches_in_flight (Part000.steps w es x) <= 1)%nat)
  /\ (forall API_KEY es x,
        Forall Index.not_Enter es -> Index.one_at_a_time x ->
        (Index.searches_in_flight (Index.steps w API_KEY es x) <= 1)%nat).
Proof.
  split.
  - intros es. induction es as [|e es IH]; intros x Hes Hx.
    + apply one_at_a_time_in_flight, Hx.
    + inversion Hes; subst. apply IH; [assumption|].
      apply Part000_one_at_a_time; assumption.
  - intros API_KEY es. induction es as [|e es IH]; intros x Hes Hx.
    + apply one_at_a_time_in_flight, Hx.
    + inversion Hes; subst. apply IH; [assumption|].
      apply Index_one_at_a_time; assumption.
Qed.

(** C2 fails through the query field: its key handler calls
    [handleSearch] on Enter whether or not a search is loading, and each
    such call that reaches the provider adds a search in flight. *)
Theorem Enter_starts_another_search (w : World) :
  (forall (x : Part000.Session) ai,
      Part000.loading (Part000.st (Part000.page x)) = true ->
      Part000.reaches_provider w (Part000.st (Part000.page x)) ai ->
      Part000.searches_in_flight
        (Part000.step w (Part000.KeyDownQuery (js "Enter")) x)
      = S (Part000.searches_in_flight x))
  /\ (forall API_KEY (x : Index.Session) ai,
        Index.loading (Index.st x) = true ->
        Index.reaches_provider w API_KEY (Index.st x) ai ->
        Index.searches_in_flight
          (Index.step w API_KEY (Index.KeyDownQuery (js "Enter")) x)
        = S (Index.searches_in_flight x)).
Proof.
  split.
  - intros x ai _ (Hkey & Hq & Hai). apply truthy_string_nonempty in Hkey.
    unfold Part000.searches_in_flight, Part000.step, Part000.call_handleSearch.
    rewrite bool_decide_eq_true_2 by reflexivity.
    unfold Part000.handleSearch. rewrite Hkey, Hq. cbn. rewrite Hai. cbn.
    rewrite length_app. simpl. lia.
  - intros API_KEY x ai _ (Hq & Hai).
    unfold Index.searches_in_flight, Index.step, Index.call_handleSearch.
    rewrite bool_decide_eq_true_2 by reflexivity.
    unfold Index.handleSearch. rewrite Hq. cbn. rewrite Hai. cbn.
    rewrite length_app. simpl. lia.
Qed.

Lemma Enter_starts_another_search_witness :
  (Part000.loading (Part000.st (Part000.page Samples.keyed_searching)) = true
   /\ Part000.searches_in_flight
        (Part000.step Samples.offline (Part000.KeyDownQuery (js "Enter"))
                      Samples.keyed_searching)
      = S (Part000.searches_in_flight Samples.keyed_searching))
  /\ (Index.loading (Index.st Samples.plain_searching) = true
      /\ Index.searches_in_flight
           (Index.step Samples.offline (Some Samples.demo_key)
                       (Index.KeyDownQuery (js "Enter")) Samples.plain_searching)
         = S (Index.searches_in_flight Samples.plain_searching)).
Proof.
  split; (split; [reflexivity|]).
  - apply (proj1 (Enter_starts_another_search Samples.offline)
             Samples.keyed_searching (mkClient (Some Samples.demo_key)));
      [reflexivity | split; [vm_compute; discriminate | split; reflexivity]].
  - apply (proj2 (Enter_starts_another_search Samples.offline)
             (Some Samples.demo_key) Samples.plain_searching
             (mkClient (Some Samples.demo_key)));
      [reflexivity | split; reflexivity].
Defined.

(** Two presses of Enter leave two searches in flight. *)
Example two_searches_in_flight :
  Part000.searches_in_flight
    (Part000.steps Samples.offline
       [Part000.KeyDownQuery (js "Enter"); Part000.KeyDownQuery (js "Enter")]
       Samples.keyed_session) = 2%nat
  /\ Index.searches_in_flight
       (Index.steps Samples.offline (Some Samples.demo_key)
          [Index.KeyDownQuery (js "Enter"); Index.KeyDownQuery (js "Enter")]
          Samples.plain_session) = 2%nat.
Proof. split; reflexivity. Qed.

(** ** The relay endpoint *)

Section Relay_handler.
Import Relay.
Local Open Scope Z_scope.
Variable p : Platform.
Variable targetModel : value -> Outcome value.

Lemma new_Response_accepts (b : option jsstring) (s : Z)
      (h : list (jsstring * jsstring)) :
  200 <= s <= 599 -> null_body_status s = false ->
  new_Response p b s h = Ok (mkResponse s h b).
Proof.
  intros Hs Hn. unfold new_Response. rewrite Hn, andb_false_r.
  replace (s <? 200) with false by (symmetry; apply Z.ltb_ge; lia).
  replace (599 <? s) with false by (symmetry; apply Z.ltb_ge; lia).
  reflexivity.
Qed.

Lemma handler_not_POST (req : Request) :
  method req <> js "POST" ->
  handler p targetModel req
  = Ok (mkResponse 405 json_headers
          (JSON_stringify
             (JObject [(js "error", JString (js "Method Not Allowed"))]))).
Proof.
  intros Hm. unfold handler. rewrite bool_decide_eq_false_2 by exact Hm.
  apply new_Response_accepts; [lia | reflexivity].
Qed.

Lemma handler_caught (req : Request) (err : JsError) :
  method req = js "POST" ->
  forward p targetModel req = Throw err ->
  handler p targetModel req
  = Ok (mkResponse 500 json_headers (JSON_stringify (error_object err))).
Proof.
  intros Hm Hf. unfold handler. rewrite bool_decide_eq_true_2 by exact Hm.
  rewrite Hf. apply new_Response_accepts; [lia | reflexivity].
Qed.

Lemma handler_passes (req : Request) (resp : Response) :
  method req = js "POST" ->
  forward p targetModel req = Ok resp ->
  handler p targetModel req = Ok resp.
Proof.
  intros Hm Hf. unfold handler. rewrite bool_decide_eq_true_2 by exact Hm.
  rewrite Hf. reflexivity.
Qed.

(** The handler always answers: its promise is never rejected. *)
Lemma handler_answers (req : Request) :
  exists resp, handler p targetModel req = Ok resp.
Proof.
  destruct (decide (method req = js "POST")) as [Hm|Hm].
  - destruct (forward p targetModel req) as [resp|err] eqn:Hf.
    + exists resp. apply handler_passes; assumption.
    + eexists. apply handler_caught; eassumption.
  - eexists. apply handler_not_POST, Hm.
Qed.

Lemma forward_answered (req : Request) (response : FetchResponse) :
  upstream_answers p targetModel req response ->
  forward p targetModel req
  = if negb (ok response) then
      errorText ← fetched_text response;
      json_response p (provider_error (fetched_status response) errorText)
                    (fetched_status response)
    else
      data ← fetched_json response;
      json_response p data 200.
Proof.
  intros (parsed & messages & apiKey & model & Hj & Hm & Hk & Ht
          & init & Hi & Hf).
  unfold forward. rewrite Hj. cbn. rewrite Hm. cbn. rewrite Hk. cbn.
  rewrite Ht. cbn. rewrite Hi. cbn. rewrite Hf. reflexivity.
Qed.



(** The errors the [try] block can throw: the body of the request
    cannot be read, [fetch] is rejected, the body of the upstream
    response cannot be read. *)
Lemma forward_request_unreadable (req : Request) (err : JsError) :
  json req = Throw err -> forward p targetModel req = Throw err.
Proof. intros H. unfold forward. rewrite H. reflexivity. Qed.

Lemma forward_body_unreadable (req : Request) (response : FetchResponse)
      (err : JsError) :
  upstream_answers p targetModel req response ->
  (if ok response then fetched_json response = Throw err
   else fetched_text response = Throw err) ->
  forward p targetModel req = Throw err.
Proof.
  intros Hup H. rewrite (forward_answered req response Hup).
  destruct (ok response); cbn; rewrite H; reflexivity.
Qed.

End Relay_handler.






Lemma sample_upstream_answers (response : Relay.FetchResponse) :
  Relay.upstream_answers (Samples.platform (Ok response)) Chat.targetModel
                         Samples.post response.
Proof.
  eexists _, _, _, _. repeat split; try reflexivity.
  eexists. split; reflexivity.
Qed.



(** A key that cannot be converted to a string: the template literal of
    the [Authorization] header throws, nothing is forwarded, and the
    relay answers 500 whatever the provider would have said. *)
Example unprintable_key_is_answered_500 :
  Chat.handler (Samples.platform (Ok Samples.unauthorized))
               Samples.post_odd_key
  = Ok (Relay.mkResponse 500 Relay.json_headers
          (JSON_stringify
             (JObject
                [(js "error",
                  JString (js "Cannot convert object to primitive value"))])))
  /\ forall response,
       ~ Relay.upstream_answers (Samples.platform (Ok Samples.unauthorized))
           Chat.targetModel Samples.post_odd_key response.
Proof.
  split; [reflexivity|].
  intros response (parsed & messages & apiKey & model & Hj & Hm & Hk & _
                   & init & Hi & _).
  injection Hj as <-. injection Hk as <-. discriminate Hi.
Qed.

(** An upstream status that the Response constructor refuses ends in the
    [catch] block: the relay answers 500. *)
Example refused_status_is_answered_500 :
  Chat.handler (Samples.platform (Ok Samples.denied_999)) Samples.post
  = Ok (Relay.mkResponse 500 Relay.json_headers
          (JSON_stringify
             (Relay.error_object
                (Relay.status_RangeError (Samples.platform (Ok Samples.denied_999)))))).
Proof. reflexivity. Qed.

(** The later revision of the relay answers alike. *)
Lemma Part001_relay_responses (p : Relay.Platform) (req : Relay.Request) :
  (Relay.method req <> js "POST" ->
   exists b, Part001.handler p req = Ok (Relay.mkResponse 405 Relay.json_headers b))
  /\ (Relay.method req = js "POST" ->
      forall err,
        Relay.forward p (Part001.targetModel p) req = Throw err ->
        Part001.handler p req
        = Ok (Relay.mkResponse 500 Relay.json_headers
                (JSON_stringify (Relay.error_object err))))
  /\ exists resp, Part001.handler p req = Ok resp.
Proof.
  split; [|split].
  - intros Hm. eexists. apply handler_not_POST, Hm.
  - intros Hm err Hf. apply handler_caught; assumption.
  - apply handler_answers.
Qed.

(** * Further properties of the handlers *)

(** ** Handlers as trees *)

Lemma run_winds_down {S} (loading : S -> bool) (w : World) (t : Task S) :
  winds_down loading t -> forall s, loading (run w t s).1 = false.
Proof.
  induction t as [|f k IH|key k IH|c k IH|c1 c2 k IH]; simpl.
  - intros [].
  - intros [[-> Hf]|[Hf Hk]] s; [apply Hf | apply IH, Hk].
  - intros Hk s. apply IH, Hk.
  - intros Hk s. specialize (IH _ (Hk (generateContent w c)) s).
    destruct (run w (k (generateContent w c)) s). exact IH.
  - intros Hk s.
    specialize (IH _ (Hk (Promise_all2 (generateContent w c1)
                                       (generateContent w c2))) s).
    destruct (run w (k _) s). exact IH.
Qed.

Lemma run_every_update {S V} (view : S -> V) (w : World) (t : Task S) :
  every_update (fun f => forall s, view (f s) = view s) t ->
  forall s, view (run w t s).1 = view s.
Proof.
  induction t as [|f k IH|key k IH|c k IH|c1 c2 k IH]; simpl.
  - reflexivity.
  - intros [Hf Hk] s. rewrite (IH Hk). apply Hf.
  - intros Hk s. apply IH, Hk.
  - intros Hk s. specialize (IH _ (Hk (generateContent w c)) s).
    destruct (run w (k (generateContent w c)) s). exact IH.
  - intros Hk s.
    specialize (IH _ (Hk (Promise_all2 (generateContent w c1)
                                       (generateContent w c2))) s).
    destruct (run w (k _) s). exact IH.
Qed.

Lemma advance_every_update {S V} (view : S -> V) (w : World) (t : Task S) :
  every_update (fun f => forall s, view (f s) = view s) t ->
  forall s,
    view (advance w t s).1 = view s
    /\ forall t', (advance w t s).2 = Some t' ->
                  every_update (fun f => forall s, view (f s) = view s) t'.
Proof.
  induction t as [|f k IH|key k IH|c k IH|c1 c2 k IH]; simpl.
  - intros _ s. split; [reflexivity | discriminate].
  - intros [Hf Hk] s. destruct (IH Hk (f s)) as [H1 H2].
    split; [rewrite H1; apply Hf | exact H2].
  - intros Hk s. apply IH, Hk.
  - intros Hk s. split; [reflexivity|]. intros t' [= <-]. exact Hk.
  - intros Hk s. split; [reflexivity|]. intros t' [= <-]. exact Hk.
Qed.

Lemma settle_every_update {S V} (view : S -> V) (w : World) (t : Task S) :
  every_update (fun f => forall s, view (f s) = view s) t ->
  forall s,
    view (settle w t s).1 = view s
    /\ forall t', (settle w t s).2 = Some t' ->
                  every_update (fun f => forall s, view (f s) = view s) t'.
Proof.
  intros Ht s. destruct t as [|f k|key k|c k|c1 c2 k]; simpl settle.
  - apply (advance_every_update view w Done Ht).
  - apply (advance_every_update view w (Update f k) Ht).
  - apply (advance_every_update view w (Construct key k) Ht).
  - apply advance_every_update, Ht.
  - apply advance_every_update, Ht.
Qed.

Lemma Part000_catch_keeps_inputs (err : JsError) :
  every_update (fun f => forall s, Part000.inputs (f s) = Part000.inputs s)
               (Part000.catch err).
Proof.
  unfold Part000.catch, Part000.finally.
  destruct (_ || _); [|destruct (Part000.message_includes _ _)]; simpl;
    repeat split.
Qed.

Lemma Part000_handleSearch_keeps_inputs (s : Part000.State) :
  every_update (fun f => forall s, Part000.inputs (f s) = Part000.inputs s)
               (Part000.handleSearch s).
Proof.
  unfold Part000.handleSearch.
  destruct (negb _); [simpl; auto|].
  destruct (nothing_to_search _ _); [simpl; auto|].
  simpl. repeat (split; [reflexivity|]).
  intros [ai|err]; [|apply Part000_catch_keeps_inputs].
  simpl. intros [r|err]; [|apply Part000_catch_keeps_inputs].
  destruct (JSON_parse _) as [data|err]; [|apply Part000_catch_keeps_inputs].
  destruct (get_prop data _ ≫= Part000.imageRequest) as [request|]; simpl.
  - intros [ir|err]; simpl; auto.
  - auto.
Qed.

Lemma Index_handleSearch_keeps_inputs (API_KEY : option jsstring)
      (s : Index.State) :
  every_update (fun f => forall s, Index.inputs (f s) = Index.inputs s)
               (Index.handleSearch API_KEY s).
Proof.
  unfold Index.handleSearch.
  destruct (nothing_to_search _ _); [simpl; auto|].
  simpl. repeat (split; [reflexivity|]).
  intros [ai|err]; [|simpl; auto].
  simpl. intros [[r ir]|err]; [|simpl; auto].
  destruct (Index.parse_text r) as [data|err]; [|simpl; auto].
  destruct (truthy data); simpl; auto.
Qed.

Lemma Part000_handleSearch_winds_down (s : Part000.State) :
  Part000.apiKey s <> [] ->
  nothing_to_search (Part000.query s) (Part000.filters s) = false ->
  exists k, Part000.handleSearch s = Update (Part000.setLoading true) k
            /\ winds_down Part000.loading k.
Proof.
  intros Hkey Hq. apply truthy_string_nonempty in Hkey.
  unfold Part000.handleSearch. rewrite Hkey, Hq. simpl.
  eexists. split; [reflexivity|]. simpl.
  right. split; [reflexivity|]. right. split; [reflexivity|].
  intros [ai|err]; [|apply Part000_catch_winds_down].
  simpl. intros [r|err]; [|apply Part000_catch_winds_down].
  destruct (JSON_parse _) as [data|err]; [|apply Part000_catch_winds_down].
  destruct (get_prop data _ ≫= Part000.imageRequest) as [request|]; simpl.
  - intros [ir|err]; right; (split; [reflexivity|]); left; split; reflexivity.
  - right. split; [reflexivity|]. left. split; reflexivity.
Qed.

Lemma Index_handleSearch_winds_down (API_KEY : option jsstring)
      (s : Index.State) :
  nothing_to_search (Index.query s) (Index.filters s) = false ->
  exists k, Index.handleSearch API_KEY s = Update (Index.setLoading true) k
            /\ winds_down Index.loading k.
Proof.
  intros Hq. unfold Index.handleSearch. rewrite Hq.
  eexists. split; [reflexivity|]. simpl.
  right. split; [reflexivity|]. right. split; [reflexivity|].
  assert (Hc : forall err, winds_down Index.loading (Index.catch err)).
  { intros err. right. split; [reflexivity|]. left. split; reflexivity. }
  intros [ai|err]; [|apply Hc].
  simpl. intros [[r ir]|err]; [|apply Hc].
  destruct (Index.parse_text r) as [data|err]; [|apply Hc].
  destruct (truthy data).
  - right. split; [reflexivity|]. left. split; reflexivity.
  - left. split; reflexivity.
Qed.

(** ** handleSearch *)

(** X1. A search that passes its guards ends with the loading flag
    cleared, whatever the provider does and whatever the state it runs
    on (the [finally] block); a search stopped by a guard leaves the flag
    as it finds it. *)
Theorem search_always_ends_loading (w : World) :
  (forall (s s0 : Part000.State),
      (Part000.apiKey s <> [] ->
       nothing_to_search (Part000.query s) (Part000.filters s) = false ->
       Part000.loading (run w (Part000.handleSearch s) s0).1 = false)
      /\ (Part000.apiKey s = []
          \/ nothing_to_search (Part000.query s) (Part000.filters s) = true ->
          Part000.loading (run w (Part000.handleSearch s) s0).1
          = Part000.loading s0))
  /\ (forall API_KEY (s s0 : Index.State),
        (nothing_to_search (Index.query s) (Index.filters s) = false ->
         Index.loading (run w (Index.handleSearch API_KEY s) s0).1 = false)
        /\ (nothing_to_search (Index.query s) (Index.filters s) = true ->
            Index.loading (run w (Index.handleSearch API_KEY s) s0).1
            = Index.loading s0)).
Proof.
  split.
  - intros s s0. split.
    + intros Hkey Hq.
      destruct (Part000_handleSearch_winds_down s Hkey Hq) as (k & -> & Hk).
      simpl. apply run_winds_down, Hk.
    + intros H. unfold Part000.handleSearch.
      destruct (truthy_string (Part000.apiKey s)) eqn:Hkey; simpl.
      * destruct H as [H|H].
        -- apply truthy_string_nonempty in Hkey. contradiction.
        -- rewrite H. reflexivity.
      * reflexivity.
  - intros API_KEY s s0. split.
    + intros Hq.
      destruct (Index_handleSearch_winds_down API_KEY s Hq) as (k & -> & Hk).
      simpl. apply run_winds_down, Hk.
    + intros Hq. unfold Index.handleSearch. rewrite Hq. reflexivity.
Qed.

Lemma search_always_ends_loading_witness :
  Part000.loading
    (run Samples.key_rejected (Part000.handleSearch Samples.keyed_query)
         Samples.keyed_searching_state).1 = false
  /\ Part000.loading
       (run Samples.offline (Part000.handleSearch Part000.initial)
            Samples.keyed_searching_state).1 = true
  /\ Index.loading
       (run Samples.image_down (Index.handleSearch None Samples.plain_query)
            Samples.plain_query).1 = false
  /\ Index.loading
       (run Samples.offline (Index.handleSearch None Samples.blank_query)
            (Index.setLoading true Samples.blank_query)).1 = true.
Proof.
  split; [|split; [|split]].
  - apply (proj1 (proj1 (search_always_ends_loading Samples.key_rejected)
                    Samples.keyed_query Samples.keyed_searching_state));
      [vm_compute; discriminate | reflexivity].
  - apply (proj2 (proj1 (search_always_ends_loading Samples.offline)
                    Part000.initial Samples.keyed_searching_state)).
    left. reflexivity.
  - apply (proj1 (proj2 (search_always_ends_loading Samples.image_down)
                    None Samples.plain_query Samples.plain_query)).
    reflexivity.
  - apply (proj2 (proj2 (search_always_ends_loading Samples.offline)
                    None Samples.blank_query
                    (Index.setLoading true Samples.blank_query))).
    reflexivity.
Defined.

(** X2. A search never touches what the user entered: the query, the
    filters, the state of the filter panel and the key are, at its end,
    those of the state it ran on. *)
Theorem search_keeps_the_inputs (w : World) :
  (forall (s s0 : Part000.State),
      Part000.inputs (run w (Part000.handleSearch s) s0).1 = Part000.inputs s0)
  /\ (forall API_KEY (s s0 : Index.State),
        Index.inputs (run w (Index.handleSearch API_KEY s) s0).1
        = Index.inputs s0).
Proof.
  split.
  - intros s s0. apply run_every_update, Part000_handleSearch_keeps_inputs.
  - intros K s s0. apply run_every_update, Index_handleSearch_keeps_inputs.
Qed.

(** X3. The calls of a search.  The sequential revision issues nothing, or
    the text call alone, or the text call followed by one image call, and
    the latter only when the text call was fulfilled, its text parsed,
    the title read and the prompt built from it; the parallel revision
    issues nothing or both calls at once.  No call is ever repeated. *)
Theorem calls_of_a_search (w : World) :
  (forall s : Part000.State,
      let calls := (run w (Part000.handleSearch s) s).2 in
      calls = []
      \/ (exists ai, calls = [mkCall ai (Part000.textRequest s)])
      \/ (exists ai r data title request,
             generateContent w (mkCall ai (Part000.textRequest s)) = Ok r
             /\ JSON_parse (Part000.text_or_empty_object r) = Ok data
             /\ get_prop data (js "title") = Some title
             /\ Part000.imageRequest title = Some request
             /\ calls = [mkCall ai (Part000.textRequest s);
                         mkCall ai request]))
  /\ (forall API_KEY (s : Index.State),
        let calls := (run w (Index.handleSearch API_KEY s) s).2 in
        calls = []
        \/ exists ai, calls = [mkCall ai (Index.textRequest s);
                               mkCall ai (Index.imageRequest s)]).
Proof.
  split.
  - intros s calls. subst calls.
    destruct (decide (Part000.apiKey s = [])) as [Hkey|Hkey];
      [left; rewrite Part000_no_key by exact Hkey; reflexivity|].
    destruct (nothing_to_search (Part000.query s) (Part000.filters s)) eqn:Hq.
    { left. apply nothing_to_search_spec in Hq as [Hq Hm].
      rewrite Part000_validation by assumption. reflexivity. }
    destruct (new_GoogleGenAI w (Some (Part000.apiKey s))) as [ai|err] eqn:Hai.
    2:{ left. apply truthy_string_nonempty in Hkey.
        unfold Part000.handleSearch. rewrite Hkey, Hq. cbn. rewrite Hai. cbn.
        rewrite Part000_catch_no_calls. reflexivity. }
    assert (Hreach : Part000.reaches_provider w s ai) by (repeat split; assumption).
    destruct (generateContent w (mkCall ai (Part000.textRequest s)))
      as [r|err] eqn:Htext.
    2:{ right. left. exists ai.
        rewrite (Part000_text_rejected w s ai Hreach err Htext). reflexivity. }
    destruct (JSON_parse (Part000.text_or_empty_object r)) as [data|err] eqn:Hp.
    2:{ right. left. exists ai.
        rewrite (Part000_parse_failed w s ai Hreach r err Htext Hp). reflexivity. }
    destruct (get_prop data (js "title") ≫= Part000.imageRequest)
      as [request|] eqn:Ht.
    2:{ right. left. exists ai.
        rewrite (Part000_title_throws w s ai Hreach r data Htext Hp Ht).
        reflexivity. }
    assert (Hread : exists title,
               get_prop data (js "title") = Some title
               /\ Part000.imageRequest title = Some request).
    { destruct (get_prop data (js "title")) as [title|]; [|discriminate].
      exists title. split; [reflexivity | exact Ht]. }
    destruct Hread as (title & Hread & Hbuilt).
    right. right. exists ai, r, data, title, request.
    repeat split; try assumption.
    destruct (generateContent w (mkCall ai request)) as [ir|err] eqn:Hi.
    + rewrite (Part000_image_resolved w s ai Hreach r ir data request
                 Htext Hp Ht Hi).
      reflexivity.
    + rewrite (Part000_image_rejected w s ai Hreach r data request err
                 Htext Hp Ht Hi).
      reflexivity.
  - intros API_KEY s calls. subst calls.
    destruct (nothing_to_search (Index.query s) (Index.filters s)) eqn:Hq.
    { left. apply nothing_to_search_spec in Hq as [Hq Hm].
      rewrite Index_validation by assumption. reflexivity. }
    destruct (new_GoogleGenAI w API_KEY) as [ai|err] eqn:Hai.
    + right. exists ai.
      destruct (Index_reached w API_KEY s ai (conj Hq Hai)) as (s' & -> & _).
      reflexivity.
    + left. unfold Index.handleSearch. rewrite Hq. cbn. rewrite Hai.
      reflexivity.
Qed.

(** X4. When the text call is rejected with a rate-limit signal (a
    message that contains 429 and neither 403 nor API_KEY_INVALID), the
    search ends with the retry-later message, without a recipe, and the
    settings stay as they were. *)
Theorem rate_limit_is_reported (w : World) (s : Part000.State)
        (ai : GoogleGenAI) (err : JsError) :
  Part000.reaches_provider w s ai ->
  generateContent w (mkCall ai (Part000.textRequest s)) = Throw err ->
  Part000.message_includes err (js "403") = false ->
  Part000.message_includes err (js "API_KEY_INVALID") = false ->
  Part000.message_includes err (js "429") = true ->
  let s' := (run w (Part000.handleSearch s) s).1 in
  Part000.error s' = Some (js "请求太频繁了，请稍后再试。")
  /\ Part000.showSettings s' = Part000.showSettings s
  /\ Part000.recipe s' = None
  /\ Part000.loading s' = false.
Proof.
  intros Hreach Htext H403 Hkey H429.
  rewrite (Part000_text_rejected w s ai Hreach err Htext).
  unfold Part000.catch. rewrite H403, Hkey, H429. cbn. auto.
Qed.

Lemma rate_limit_is_reported_witness :
  Part000.error
    (run Samples.rate_limited (Part000.handleSearch Samples.keyed_query)
         Samples.keyed_query).1 = Some (js "请求太频繁了，请稍后再试。")
  /\ Part000.showSettings
       (run Samples.rate_limited (Part000.handleSearch Samples.keyed_query)
            Samples.keyed_query).1 = Part000.showSettings Samples.keyed_query
  /\ Part000.recipe
       (run Samples.rate_limited (Part000.handleSearch Samples.keyed_query)
            Samples.keyed_query).1 = None
  /\ Part000.loading
       (run Samples.rate_limited (Part000.handleSearch Samples.keyed_query)
            Samples.keyed_query).1 = false.
Proof.
  apply (rate_limit_is_reported Samples.rate_limited Samples.keyed_query
           (mkClient (Some Samples.demo_key)) Samples.too_many).
  - split; [vm_compute; discriminate | split; reflexivity].
  - reflexivity.
  - vm_compute. reflexivity.
  - vm_compute. reflexivity.
  - vm_compute. reflexivity.
Defined.

(** X5. When the text call is rejected with any other error, the search
    ends with the generic failure message followed by the message of the
    error, or by "unknown error" when the error has no message or an
    empty one; there is no recipe and the settings stay as they were. *)
Theorem other_failures_carry_the_detail (w : World) (s : Part000.State)
        (ai : GoogleGenAI) (err : JsError) :
  Part000.reaches_provider w s ai ->
  generateContent w (mkCall ai (Part000.textRequest s)) = Throw err ->
  Part000.message_includes err (js "403") = false ->
  Part000.message_includes err (js "API_KEY_INVALID") = false ->
  Part000.message_includes err (js "429") = false ->
  let s' := (run w (Part000.handleSearch s) s).1 in
  Part000.error s'
  = Some (js "生成失败: "
          ++ match message err with
             | Some (c :: m) => c :: m
             | _ => js "未知错误"
             end)
  /\ Part000.showSettings s' = Part000.showSettings s
  /\ Part000.recipe s' = None
  /\ Part000.loading s' = false.
Proof.
  intros Hreach Htext H403 Hkey H429.
  rewrite (Part000_text_rejected w s ai Hreach err Htext).
  unfold Part000.catch. rewrite H403, Hkey, H429. cbn.
  repeat split. destruct (message err) as [[|c m]|]; reflexivity.
Qed.

Lemma other_failures_carry_the_detail_witness :
  Part000.error
    (run Samples.offline (Part000.handleSearch Samples.keyed_query)
         Samples.keyed_query).1
  = Some (js "生成失败: " ++ js "503 Service Unavailable")
  /\ Part000.showSettings
       (run Samples.offline (Part000.handleSearch Samples.keyed_query)
            Samples.keyed_query).1 = Part000.showSettings Samples.keyed_query
  /\ Part000.recipe
       (run Samples.offline (Part000.handleSearch Samples.keyed_query)
            Samples.keyed_query).1 = None
  /\ Part000.loading
       (run Samples.offline (Part000.handleSearch Samples.keyed_query)
            Samples.keyed_query).1 = false.
Proof.
  apply (other_failures_carry_the_detail Samples.offline Samples.keyed_query
           (mkClient (Some Samples.demo_key)) Samples.unavailable).
  - split; [vm_compute; discriminate | split; reflexivity].
  - reflexivity.
  - vm_compute. reflexivity.
  - vm_compute. reflexivity.
  - vm_compute. reflexivity.
Defined.

(** X6. The errors of the [try] block are classified alike wherever they
    arise: a text that cannot be parsed, or a client that cannot be
    built, with an error whose message contains 403 or API_KEY_INVALID,
    ends the search with the invalid-credential message and the settings
    open, as a rejected call does. *)
Theorem local_errors_are_classified_too (w : World) (s : Part000.State)
        (err : JsError) :
  Part000.apiKey s <> [] ->
  nothing_to_search (Part000.query s) (Part000.filters s) = false ->
  Part000.message_includes err (js "403") = true
  \/ Part000.message_includes err (js "API_KEY_INVALID") = true ->
  new_GoogleGenAI w (Some (Part000.apiKey s)) = Throw err
  \/ (exists ai r,
         new_GoogleGenAI w (Some (Part000.apiKey s)) = Ok ai
         /\ generateContent w (mkCall ai (Part000.textRequest s)) = Ok r
         /\ JSON_parse (Part000.text_or_empty_object r) = Throw err) ->
  let s' := (run w (Part000.handleSearch s) s).1 in
  Part000.error s' = Some (js "API Key 无效。请检查设置。")
  /\ Part000.showSettings s' = true
  /\ Part000.recipe s' = None
  /\ Part000.loading s' = false.
Proof.
  intros Hkey Hq Hauth Hsrc.
  assert (Hc : forall s0,
             (run w (Part000.catch err) s0).1
             = Part000.setLoading false
                 (Part000.setShowSettings true
                    (Part000.setError (Some (js "API Key 无效。请检查设置。")) s0))).
  { intros s0. unfold Part000.catch.
    replace (Part000.message_includes err (js "403")
             || Part000.message_includes err (js "API_KEY_INVALID")) with true
      by (destruct Hauth as [-> | ->];
          [reflexivity | symmetry; apply orb_true_r]).
    reflexivity. }
  destruct Hsrc as [Hai|(ai & r & Hai & Htext & Hp)].
  - pose proof Hkey as Hk. apply truthy_string_nonempty in Hk.
    unfold Part000.handleSearch. rewrite Hk, Hq. cbn. rewrite Hai. cbn.
    rewrite Hc. cbn. auto.
  - rewrite (Part000_parse_failed w s ai (conj Hkey (conj Hq Hai)) r err Htext Hp).
    rewrite Hc. cbn. auto.
Qed.

Lemma local_errors_are_classified_too_witness :
  Part000.error
    (run Samples.error_page_reply (Part000.handleSearch Samples.keyed_query)
         Samples.keyed_query).1 = Some (js "API Key 无效。请检查设置。")
  /\ Part000.showSettings
       (run Samples.error_page_reply (Part000.handleSearch Samples.keyed_query)
            Samples.keyed_query).1 = true
  /\ Part000.recipe
       (run Samples.error_page_reply (Part000.handleSearch Samples.keyed_query)
            Samples.keyed_query).1 = None
  /\ Part000.loading
       (run Samples.error_page_reply (Part000.handleSearch Samples.keyed_query)
            Samples.keyed_query).1 = false.
Proof.
  apply (local_errors_are_classified_too Samples.error_page_reply
           Samples.keyed_query Samples.quoting_syntax_error).
  - vm_compute. discriminate.
  - reflexivity.
  - left. vm_compute. reflexivity.
  - right. eexists _, _. repeat split; reflexivity.
Defined.

(** X7. The parallel revision tells failures apart in no way.  A search
    that passes the validation ends without an error or with the one
    fixed failure message, and in the latter case without a recipe; a
    client that cannot be built gives that message without any call. *)
Theorem parallel_failures_are_generic (w : World) (API_KEY : option jsstring)
        (s : Index.State) :
  nothing_to_search (Index.query s) (Index.filters s) = false ->
  let s' := (run w (Index.handleSearch API_KEY s) s).1 in
  (Index.error s' = None
   \/ (Index.error s' = Some Index.generic_failure /\ Index.recipe s' = None))
  /\ Index.loading s' = false
  /\ (forall err, new_GoogleGenAI w API_KEY = Throw err ->
        Index.error s' = Some Index.generic_failure
        /\ (run w (Index.handleSearch API_KEY s) s).2 = []).
Proof.
  intros Hq s'. subst s'.
  destruct (new_GoogleGenAI w API_KEY) as [ai|err0] eqn:Hai.
  - assert (Hreach : Index.reaches_provider w API_KEY s ai) by (split; assumption).
    split; [|split; [|discriminate]].
    + destruct (Promise_all2
                  (generateContent w (mkCall ai (Index.textRequest s)))
                  (generateContent w (mkCall ai (Index.imageRequest s))))
        as [[r ir]|err] eqn:Hall.
      * destruct (generateContent w (mkCall ai (Index.textRequest s)))
          as [r'|] eqn:Ht; [|discriminate].
        destruct (generateContent w (mkCall ai (Index.imageRequest s)))
          as [ir'|] eqn:Hi; [|discriminate].
        injection Hall as -> ->.
        destruct (Index.parse_text r) as [data|err] eqn:Hp.
        -- rewrite (Index_parsed w API_KEY s ai Hreach r ir data Ht Hi Hp).
           left. destruct (truthy data); reflexivity.
        -- rewrite (Index_parse_failed w API_KEY s ai Hreach r ir err Ht Hi Hp).
           right. split; reflexivity.
      * rewrite (Index_rejected w API_KEY s ai Hreach err Hall).
        right. split; reflexivity.
    + destruct (Index_handleSearch_winds_down API_KEY s Hq) as (k & -> & Hk).
      simpl. apply run_winds_down, Hk.
  - unfold Index.handleSearch. rewrite Hq. cbn. rewrite Hai. cbn.
    split; [right; split; reflexivity|]. split; [reflexivity|].
    intros err _. split; reflexivity.
Qed.

Lemma parallel_failures_are_generic_witness :
  (Index.error
     (run Samples.no_client (Index.handleSearch None Samples.plain_query)
          Samples.plain_query).1 = None
   \/ (Index.error
         (run Samples.no_client (Index.handleSearch None Samples.plain_query)
              Samples.plain_query).1 = Some Index.generic_failure
       /\ Index.recipe
            (run Samples.no_client (Index.handleSearch None Samples.plain_query)
                 Samples.plain_query).1 = None))
  /\ Index.loading
       (run Samples.no_client (Index.handleSearch None Samples.plain_query)
            Samples.plain_query).1 = false
  /\ (Index.error
        (run Samples.no_client (Index.handleSearch None Samples.plain_query)
             Samples.plain_query).1 = Some Index.generic_failure
      /\ (run Samples.no_client (Index.handleSearch None Samples.plain_query)
              Samples.plain_query).2 = []).
Proof.
  pose proof (parallel_failures_are_generic Samples.no_client None
                Samples.plain_query eq_refl) as (H1 & H2 & H3).
  split; [exact H1 | split; [exact H2 | exact (H3 _ eq_refl)]].
Defined.

(** ** The image and the merged record *)

Lemma first_inline_find (ps : list Part) :
  Index.first_inline ps
  = (part ← find has_inlineData ps; data_uri <$> inlineData part).
Proof.
  induction ps as [|p ps IH]; [reflexivity|]. simpl. unfold has_inlineData.
  destruct (inlineData p) as [b|] eqn:Hp; simpl.
  - rewrite Hp. reflexivity.
  - exact IH.
Qed.

(** X8. The two revisions take the same image from a response: the loop
    left at the first part with inline data and the search with [find]
    yield the same data URI, or none alike. *)
Theorem revisions_extract_the_same_image (r : GenerateContentResponse) :
  Index.generatedImageUrl r = Part000.generatedImageUrl r.
Proof.
  unfold Index.generatedImageUrl, Part000.generatedImageUrl.
  destruct (first_parts r) as [ps|]; [|reflexivity]. simpl.
  apply first_inline_find.
Qed.

Lemma first_inline_skips (before : list Part) (part : Part) (after : list Part) :
  Forall (fun p => inlineData p = None) before ->
  Index.first_inline (before ++ part :: after)
  = match inlineData part with
    | Some b => Some (data_uri b)
    | None => Index.first_inline after
    end.
Proof.
  induction 1 as [|p before Hp _ IH]; [reflexivity|].
  simpl. rewrite Hp. exact IH.
Qed.

(** X9. The image of a response is that of the first part, among the
    parts of its first candidate, that carries inline data: the parts
    before it are skipped and those after it ignored; its address is
    [data:<mime type>;base64,<data>].  A response without candidates,
    without parts, or whose parts carry no inline data has no image. *)
Theorem first_inline_part_is_the_image (r : GenerateContentResponse) :
  (forall c rest before part after b,
      candidates r = Some (c :: rest) ->
      content c = Some (mkContent (Some (before ++ part :: after))) ->
      Forall (fun p => inlineData p = None) before ->
      inlineData part = Some b ->
      Part000.generatedImageUrl r
      = Some (js "data:" ++ template_string (mimeType b) ++ js ";base64,"
              ++ template_string (data b)))
  /\ (forall ps,
        first_parts r = Some ps -> Forall (fun p => inlineData p = None) ps ->
        Part000.generatedImageUrl r = None)
  /\ (first_parts r = None -> Part000.generatedImageUrl r = None).
Proof.
  split; [|split].
  - intros c rest before part after b Hc Hcontent Hbefore Hpart.
    unfold Part000.generatedImageUrl, first_parts.
    rewrite Hc. simpl. rewrite Hcontent. simpl.
    rewrite <- first_inline_find, first_inline_skips by exact Hbefore.
    rewrite Hpart. reflexivity.
  - intros ps Hps Hall. unfold Part000.generatedImageUrl. rewrite Hps. simpl.
    rewrite <- first_inline_find. clear Hps.
    induction Hall as [|p ps Hp _ IH]; [reflexivity|].
    simpl. rewrite Hp. exact IH.
  - intros H. unfold Part000.generatedImageUrl. rewrite H. reflexivity.
Qed.

Lemma first_inline_part_is_the_image_witness :
  Part000.generatedImageUrl Samples.image_response
  = Some (js "data:" ++ template_string (Some (js "image/png")) ++ js ";base64,"
          ++ template_string (Some (js "iVBORw0KGgo=")))
  /\ Part000.generatedImageUrl
       (Samples.text_response empty_object_text) = None.
Proof.
  split.
  - apply (proj1 (first_inline_part_is_the_image Samples.image_response)
             _ [] [mkPart None] _ []
             (mkBlob (Some (js "image/png")) (Some (js "iVBORw0KGgo=")))
             eq_refl eq_refl).
    + repeat constructor.
    + reflexivity.
  - apply (proj2 (proj2 (first_inline_part_is_the_image
                           (Samples.text_response empty_object_text)))).
    reflexivity.
Defined.

Lemma obj_set_keys (k : jsstring) (v : value) (props : list (jsstring * value)) :
  map fst (obj_set k v props)
  = if bool_decide (k ∈ map fst props) then map fst props
    else map fst props ++ [k].
Proof.
  induction props as [|[k' v'] r IH].
  - reflexivity.
  - cbn [obj_set map fst]. destruct (decide (k' = k)) as [Hk|Hk].
    + subst k'. rewrite bool_decide_eq_true_2 by apply list_elem_of_here.
      reflexivity.
    + cbn [map fst]. rewrite IH. case_bool_decide as Hin.
      * rewrite bool_decide_eq_true_2 by (apply list_elem_of_further, Hin).
        reflexivity.
      * rewrite bool_decide_eq_false_2; [reflexivity|].
        rewrite elem_of_cons. intros [->|H]; [congruence | contradiction].
Qed.

(** X10. The record set at the end of a search is the parsed value with
    the image put in: its properties are those of the parsed value in
    their order, with [imageUrl] in the place it had or else added last;
    [imageUrl] holds the generated image, or [undefined] when there is
    none, also when the text carried an [imageUrl] of its own; every
    other property reads as in the parsed value. *)
Theorem merged_record (data : value) (img : option jsstring) :
  (exists props,
      with_imageUrl data img = JObject props
      /\ map fst props
         = if bool_decide (js "imageUrl" ∈ map fst (own_props data))
           then map fst (own_props data)
           else map fst (own_props data) ++ [js "imageUrl"])
  /\ field (js "imageUrl") (with_imageUrl data img)
     = match img with Some u => JString u | None => JUndefined end
  /\ forall k, k <> js "imageUrl" ->
       field k (with_imageUrl data img) = obj_get k (own_props data).
Proof.
  split; [|apply field_with_imageUrl].
  eexists. split; [reflexivity|]. apply obj_set_keys.
Qed.

Lemma merged_record_witness :
  field (js "title") (with_imageUrl Samples.bare_recipe None)
  = obj_get (js "title") (own_props Samples.bare_recipe).
Proof.
  apply (proj2 (proj2 (merged_record Samples.bare_recipe None))).
  vm_compute. discriminate.
Defined.

(** ** The prompt *)

(** X11. The description of the filters in the prompt lists the filters
    that are set, each as [name: value], in the order cuisine, time
    limit, difficulty, main ingredient, separated by a comma and a blank;
    a filter that is not set leaves no trace, and with no filter set the
    description is empty. *)
Theorem filterDesc_lists_the_set_filters (f : FilterState) :
  filterDesc f
  = join_with (js ", ")
      (omap (fun '(name, v) =>
               match v with
               | [] => None
               | _ :: _ => Some (name ++ js ": " ++ v)
               end)
            [(js "菜系", cuisine f); (js "时间限制", timeLimit f);
             (js "难度", difficulty f); (js "主要食材", mainIngredient f)])
  /\ (filterDesc f = []
      <-> cuisine f = [] /\ timeLimit f = [] /\ difficulty f = []
          /\ mainIngredient f = []).
Proof.
  destruct f as [[|c1 v1] [|c2 v2] [|c3 v3] [|c4 v4]];
    (split; [vm_compute; reflexivity|]);
    vm_compute; split; intros H; try discriminate; try reflexivity;
    try (destruct H as (H1 & H2 & H3 & H4); discriminate); auto.
Qed.

(** ** The credential store *)

Lemma trimStart_fixed (s : jsstring) :
  match s with [] => True | c :: _ => isWhiteSpace c = false end ->
  trimStart s = s.
Proof. destruct s as [|c r]; simpl; [reflexivity|]. intros ->. reflexivity. Qed.

Lemma trimStart_head (s : jsstring) :
  match trimStart s with [] => True | c :: _ => isWhiteSpace c = false end.
Proof.
  induction s as [|c r IH]; simpl; [exact I|].
  destruct (isWhiteSpace c) eqn:Hc; [exact IH | exact Hc].
Qed.

Lemma trimStart_snoc (l : jsstring) (c : N) :
  isWhiteSpace c = false -> exists l', trimStart (l ++ [c]) = l' ++ [c].
Proof.
  intros Hc. induction l as [|d l IH]; simpl.
  - rewrite Hc. exists []. reflexivity.
  - destruct (isWhiteSpace d); [exact IH|]. exists (d :: l). reflexivity.
Qed.

Lemma trimEnd_head (s : jsstring) :
  match s with [] => True | c :: _ => isWhiteSpace c = false end ->
  match trimEnd s with [] => True | c :: _ => isWhiteSpace c = false end.
Proof.
  destruct s as [|c r]; [intros _; exact I|]. intros Hc.
  unfold trimEnd. simpl rev.
  destruct (trimStart_snoc (rev r) c Hc) as [l' ->].
  rewrite rev_app_distr. simpl. exact Hc.
Qed.

(** Trimming twice is trimming once. *)
Lemma trim_trim (s : jsstring) : trim (trim s) = trim s.
Proof.
  unfold trim at 1.
  rewrite (trimStart_fixed (trim s)) by (apply trimEnd_head, trimStart_head).
  unfold trim, trimEnd at 1.
  rewrite (trimStart_fixed (rev (trimEnd (trimStart s)))).
  - apply rev_involutive.
  - unfold trimEnd. rewrite rev_involutive. apply trimStart_head.
Qed.

Lemma Part000_step_storage (w : World) (e : Part000.Event) (x : Part000.Session) :
  Part000.localStorage (Part000.page (Part000.step w e x))
  = match e with
    | Part000.SubmitKey value =>
        if Part000.showSettings (Part000.st (Part000.page x))
           && truthy_string (trim value)
        then <[Part000.storage_key := trim value]>
               (Part000.localStorage (Part000.page x))
        else Part000.localStorage (Part000.page x)
    | Part000.ClickClearKey =>
        if Part000.showSettings (Part000.st (Part000.page x))
           && truthy_string (Part000.apiKey (Part000.st (Part000.page x)))
        then delete Part000.storage_key (Part000.localStorage (Part000.page x))
        else Part000.localStorage (Part000.page x)
    | _ => Part000.localStorage (Part000.page x)
    end.
Proof.
  destruct x as [[s ls] sus].
  destruct e; simpl; unfold Part000.call_handleSearch, Part000.handleSaveKey;
    simpl;
    repeat (match goal with
            | |- context [if ?b then _ else _] => destruct b
            | |- context [let '(_, _) := ?p in _] => destruct p
            | |- context [match ?o with Some _ => _ | None => _ end] => destruct o
            end; simpl); reflexivity.
Qed.

(** X12. The page never persists an empty or a padded key: whatever the
    events, a stored key that is not empty and is its own trimming stays
    so, and a slot that is empty is only ever filled with such a key. *)
Theorem stored_key_stays_normal (w : World) (es : list Part000.Event)
        (x : Part000.Session) :
  Part000.stored_key_normal (Part000.localStorage (Part000.page x)) ->
  Part000.stored_key_normal
    (Part000.localStorage (Part000.page (Part000.steps w es x))).
Proof.
  revert x. induction es as [|e es IH]; intros x Hx; [exact Hx|].
  simpl. apply IH. rewrite Part000_step_storage.
  destruct e; try exact Hx.
  - destruct (_ && _) eqn:Hb; [|exact Hx].
    apply andb_true_iff in Hb as [_ Ht]. apply truthy_string_nonempty in Ht.
    intros k. rewrite lookup_insert_eq. intros [= <-].
    split; [exact Ht | apply trim_trim].
  - destruct (_ && _); [|exact Hx].
    intros k. rewrite lookup_delete_eq. discriminate.
Qed.

Lemma stored_key_stays_normal_witness :
  js "AIzaSy-demo" <> [] /\ trim (js "AIzaSy-demo") = js "AIzaSy-demo".
Proof.
  refine (stored_key_stays_normal Samples.offline
            [Part000.SubmitKey Samples.padded_token; Part000.ClickSearch]
            (Part000.mounted None ∅) _ (js "AIzaSy-demo") _).
  - intros k. vm_compute. discriminate.
  - vm_compute. reflexivity.
Defined.

(** X13. Saving and clearing the key touch one slot of the storage: every
    other slot is, after any events, as it was.  Of two keys saved one
    after the other the second is stored, unless it is blank, in which
    case the first stays. *)
Theorem only_the_key_slot_is_written (w : World) :
  (forall es x k,
      k <> Part000.storage_key ->
      Part000.localStorage (Part000.page (Part000.steps w es x)) !! k
      = Part000.localStorage (Part000.page x) !! k)
  /\ (forall first second p,
        trim first <> [] ->
        Part000.localStorage
          (Part000.handleSaveKey second (Part000.handleSaveKey first p))
        !! Part000.storage_key
        = Some (match trim second with [] => trim first | c :: r => c :: r end)).
Proof.
  split.
  - intros es. induction es as [|e es IH]; intros x k Hk; [reflexivity|].
    simpl. rewrite IH by exact Hk. rewrite Part000_step_storage.
    destruct e; try reflexivity.
    + destruct (_ && _); [|reflexivity]. apply lookup_insert_ne. congruence.
    + destruct (_ && _); [|reflexivity]. apply lookup_delete_ne. congruence.
  - intros first second p Hf. apply truthy_string_nonempty in Hf.
    unfold Part000.handleSaveKey at 2. rewrite Hf.
    unfold Part000.handleSaveKey.
    destruct (trim second) as [|c r]; simpl; apply lookup_insert_eq.
Qed.

Lemma only_the_key_slot_is_written_witness :
  Part000.localStorage
    (Part000.page
       (Part000.steps Samples.offline
          [Part000.SubmitKey Samples.padded_token; Part000.ClickClearKey]
          (Part000.mounted None {[js "theme" := js "dark"]})))
  !! js "theme" = Some (js "dark")
  /\ Part000.localStorage
       (Part000.handleSaveKey (js " ")
          (Part000.handleSaveKey Samples.padded_token Samples.empty_page))
     !! Part000.storage_key = Some (js "AIzaSy-demo").
Proof.
  split.
  - rewrite (proj1 (only_the_key_slot_is_written Samples.offline)
               [Part000.SubmitKey Samples.padded_token; Part000.ClickClearKey]
               (Part000.mounted None {[js "theme" := js "dark"]})
               (js "theme")) by (vm_compute; discriminate).
    apply lookup_singleton_eq.
  - rewrite (proj2 (only_the_key_slot_is_written Samples.offline)
               Samples.padded_token (js " ") Samples.empty_page)
      by (vm_compute; discriminate).
    reflexivity.
Defined.

(** X14. Once a key is saved, the settings are closed, the error is gone,
    and a search with something to search for goes to the provider with a
    client built from the trimmed key. *)
Theorem saved_key_is_the_one_used (w : World) (p : Part000.Page)
        (value : jsstring) (ai : GoogleGenAI) :
  trim value <> [] ->
  nothing_to_search (Part000.query (Part000.st p)) (Part000.filters (Part000.st p))
  = false ->
  new_GoogleGenAI w (Some (trim value)) = Ok ai ->
  let s := Part000.st (Part000.handleSaveKey value p) in
  Part000.showSettings s = false
  /\ Part000.error s = None
  /\ exists s' calls,
      run w (Part000.handleSearch s) s
      = (s', mkCall ai (Part000.textRequest s) :: calls).
Proof.
  intros Hv Hq Hai s. subst s.
  pose proof Hv as Ht. apply truthy_string_nonempty in Ht.
  unfold Part000.handleSaveKey. rewrite Ht. simpl.
  split; [reflexivity|]. split; [reflexivity|].
  destruct (Part000_reached w
              (Part000.setError None
                 (Part000.setShowSettings false
                    (Part000.setApiKey (trim value) (Part000.st p)))) ai)
    as (s' & calls & H & _).
  - split; [exact Hv | split; [exact Hq | exact Hai]].
  - eauto.
Qed.

Lemma saved_key_is_the_one_used_witness :
  Part000.showSettings
    (Part000.st (Part000.handleSaveKey Samples.padded_token Samples.unkeyed_page))
  = false
  /\ Part000.error
       (Part000.st (Part000.handleSaveKey Samples.padded_token Samples.unkeyed_page))
     = None
  /\ exists s' calls,
      run Samples.offline
          (Part000.handleSearch
             (Part000.st (Part000.handleSaveKey Samples.padded_token
                                                Samples.unkeyed_page)))
          (Part000.st (Part000.handleSaveKey Samples.padded_token
                                             Samples.unkeyed_page))
      = (s', mkCall (mkClient (Some (js "AIzaSy-demo")))
                    (Part000.textRequest
                       (Part000.st (Part000.handleSaveKey Samples.padded_token
                                                          Samples.unkeyed_page)))
             :: calls).
Proof.
  apply (saved_key_is_the_one_used Samples.offline Samples.unkeyed_page
           Samples.padded_token (mkClient (Some (js "AIzaSy-demo")))).
  - vm_compute. discriminate.
  - reflexivity.
  - reflexivity.
Defined.

(** ** The relay endpoint, further *)

Section Relay_more.
Import Relay.
Local Open Scope Z_scope.
Variable p : Platform.
Variable targetModel : value -> Outcome value.

Lemma new_Response_inv (b : option jsstring) (s : Z)
      (h : list (jsstring * jsstring)) (resp : Response) :
  new_Response p b s h = Ok resp ->
  resp = mkResponse s h b /\ 200 <= s <= 599
  /\ (is_Some b -> null_body_status s = false).
Proof.
  unfold new_Response.
  destruct (s <? 200) eqn:H1; [discriminate|].
  destruct (599 <? s) eqn:H2; [discriminate|]. simpl.
  apply Z.ltb_ge in H1, H2.
  destruct (bool_decide (is_Some b) && null_body_status s) eqn:H3;
    [discriminate|].
  intros [= <-]. split; [reflexivity|]. split; [lia|].
  intros Hb. apply andb_false_iff in H3 as [H3|H3]; [|exact H3].
  apply bool_decide_eq_false in H3. contradiction.
Qed.


Lemma provider_error_text (status : Z) (errorText : jsstring) :
  exists b, JSON_stringify (provider_error status errorText) = Some b.
Proof. eexists. reflexivity. Qed.

Lemma forward_inv (req : Request) (resp : Response) :
  forward p targetModel req = Ok resp ->
  exists response,
    upstream_answers p targetModel req response
    /\ ((ok response = true
         /\ exists data, fetched_json response = Ok data
                         /\ resp = mkResponse 200 json_headers
                                              (JSON_stringify data))
        \/ (exists errorText,
               fetched_text response = Ok errorText
               /\ resp = mkResponse (fetched_status response) json_headers
                           (JSON_stringify
                              (provider_error (fetched_status response)
                                              errorText))
               /\ 300 <= fetched_status response <= 599
               /\ fetched_status response <> 304)).
Proof.
  intros H. unfold forward in H.
  destruct (json req) as [parsed|] eqn:Hj; [|discriminate]. cbn in H.
  destruct (destructure p parsed (js "messages")) as [messages|] eqn:Hm;
    [|discriminate]. cbn in H.
  destruct (destructure p parsed (js "apiKey")) as [apiKey|] eqn:Hk;
    [|discriminate]. cbn in H.
  destruct (targetModel parsed) as [model|] eqn:Ht; [|discriminate]. cbn in H.
  destruct (upstream_request p messages _ model) as [init|] eqn:Hi;
    [|discriminate]. cbn in H.
  destruct (fetch p API_URL init) as [response|] eqn:Hf; [|discriminate].
  cbn in H. exists response. split.
  { exists parsed, messages, apiKey, model. repeat split; try assumption.
    exists init. split; assumption. }
  destruct (ok response) eqn:Hok; cbn in H.
  - left. split; [reflexivity|].
    destruct (fetched_json response) as [data|]; [|discriminate]. cbn in H.
    exists data. split; [reflexivity|].
    apply new_Response_inv in H as [-> _]. reflexivity.
  - right. destruct (fetched_text response) as [errorText|]; [|discriminate].
    cbn in H. exists errorText. split; [reflexivity|].
    unfold json_response in H.
    destruct (provider_error_text (fetched_status response) errorText)
      as [b Hb].
    rewrite Hb in H. apply new_Response_inv in H as (-> & Hs & Hn).
    rewrite Hb. split; [reflexivity|].
    specialize (Hn ltac:(eauto)).
    unfold ok in Hok. apply andb_false_iff in Hok.
    unfold null_body_status in Hn. apply bool_decide_eq_false in Hn.
    rewrite !elem_of_cons, elem_of_nil in Hn.
    split; [|lia].
    destruct Hok as [Hok|Hok]; [apply Z.leb_gt in Hok | apply Z.leb_gt in Hok];
      lia.
Qed.

Lemma handler_answer (req : Request) :
  exists resp,
    handler p targetModel req = Ok resp
    /\ headers resp = json_headers
    /\ (status resp = 405 /\ method req <> js "POST"
        \/ status resp = 500
        \/ (exists response,
               upstream_answers p targetModel req response
               /\ (ok response = true /\ status resp = 200
                   \/ (status resp = fetched_status response
                       /\ 300 <= fetched_status response <= 599
                       /\ fetched_status response <> 304)))).
Proof.
  destruct (decide (method req = js "POST")) as [Hm|Hm].
  - destruct (forward p targetModel req) as [resp|err] eqn:Hf.
    + exists resp. split; [apply handler_passes; assumption|].
      apply forward_inv in Hf
          as (response & Hup & [(Hok & data & _ & ->)|(t & _ & -> & Hs & H304)]).
      * split; [reflexivity|]. right. right. exists response. auto.
      * split; [reflexivity|]. right. right. exists response.
        split; [exact Hup|]. right. auto.
    + eexists. split; [apply handler_caught; eassumption|].
      split; [reflexivity|]. right. left. reflexivity.
  - eexists. split; [apply handler_not_POST, Hm|].
    split; [reflexivity|]. left. auto.
Qed.


Lemma forward_fetch_rejected (req : Request) (parsed messages apiKey model : value)
      (init : RequestInit) (err : JsError) :
  json req = Ok parsed ->
  destructure p parsed (js "messages") = Ok messages ->
  destructure p parsed (js "apiKey") = Ok apiKey ->
  targetModel parsed = Ok model ->
  upstream_request p messages (or_value apiKey (JString embedded_key)) model
  = Ok init ->
  fetch p API_URL init = Throw err ->
  forward p targetModel req = Throw err.
Proof.
  intros Hj Hm Hk Ht Hi Hf. unfold forward. rewrite Hj. cbn. rewrite Hm. cbn.
  rewrite Hk. cbn. rewrite Ht. cbn. rewrite Hi. cbn. rewrite Hf. reflexivity.
Qed.

(** The request is not built when the key cannot be converted to a
    string: [fetch] is not called. *)
Lemma forward_request_not_built (req : Request)
      (parsed messages apiKey model : value) (err : JsError) :
  json req = Ok parsed ->
  destructure p parsed (js "messages") = Ok messages ->
  destructure p parsed (js "apiKey") = Ok apiKey ->
  targetModel parsed = Ok model ->
  upstream_request p messages (or_value apiKey (JString embedded_key)) model
  = Throw err ->
  forward p targetModel req = Throw err.
Proof.
  intros Hj Hm Hk Ht Hi. unfold forward. rewrite Hj. cbn. rewrite Hm. cbn.
  rewrite Hk. cbn. rewrite Ht. cbn. rewrite Hi. reflexivity.
Qed.

Lemma forward_null_body (req : Request) (parsed : value) :
  json req = Ok parsed -> get_prop parsed (js "messages") = None ->
  forward p targetModel req = Throw (destructure_TypeError p).
Proof.
  intros Hj Hn. unfold forward. rewrite Hj. cbn. unfold destructure.
  rewrite Hn. reflexivity.
Qed.

End Relay_more.

(** X15. The relay always answers: the promise of the handler is fulfilled
    for every request and every behaviour of the platform, with a response
    of content type JSON.  A request that is not a POST gets status 405;
    a POST gets 200, 500, or the status of an upstream failure, which is
    then between 300 and 599 and not 304. *)
Theorem relay_always_answers (p : Relay.Platform) (req : Relay.Request) :
  (exists resp,
      Chat.handler p req = Ok resp
      /\ Relay.headers resp = [(js "Content-Type", js "application/json")]
      /\ (Relay.method req <> js "POST" -> Relay.status resp = 405%Z)
      /\ (Relay.method req = js "POST" ->
          Relay.status resp = 200%Z \/ Relay.status resp = 500%Z
          \/ exists response,
              Relay.upstream_answers p Chat.targetModel req response
              /\ Relay.status resp = Relay.fetched_status response
              /\ (300 <= Relay.fetched_status response <= 599)%Z
              /\ Relay.fetched_status response <> 304%Z))
  /\ (exists resp,
        Part001.handler p req = Ok resp
        /\ Relay.headers resp = [(js "Content-Type", js "application/json")]
        /\ (Relay.method req <> js "POST" -> Relay.status resp = 405%Z)
        /\ (Relay.method req = js "POST" ->
            Relay.status resp = 200%Z \/ Relay.status resp = 500%Z
            \/ exists response,
                Relay.upstream_answers p (Part001.targetModel p) req response
                /\ Relay.status resp = Relay.fetched_status response
                /\ (300 <= Relay.fetched_status response <= 599)%Z
                /\ Relay.fetched_status response <> 304%Z)).
Proof.
  split.
  - destruct (handler_answer p Chat.targetModel req) as (resp & H & Hh & Hs).
    exists resp. split; [exact H|]. split; [exact Hh|]. split.
    + intros Hm. rewrite (handler_not_POST p Chat.targetModel req Hm) in H.
      injection H as <-. reflexivity.
    + intros Hm.
      destruct Hs as [[_ Hn]|[Hs|(response & Hup & [[_ Hs]|Hs])]];
        [contradiction | auto | auto |].
      right. right. exists response. tauto.
  - destruct (handler_answer p (Part001.targetModel p) req)
      as (resp & H & Hh & Hs).
    exists resp. split; [exact H|]. split; [exact Hh|]. split.
    + intros Hm.
      rewrite (handler_not_POST p (Part001.targetModel p) req Hm) in H.
      injection H as <-. reflexivity.
    + intros Hm.
      destruct Hs as [[_ Hn]|[Hs|(response & Hup & [[_ Hs]|Hs])]];
        [contradiction | auto | auto |].
      right. right. exists response. tauto.
Qed.

(** X16. The relay contacts the provider only for a POST whose body is
    read as JSON and is not [null]: for any other request its answer is
    the same whatever [fetch] would do. *)
Theorem relay_needs_a_readable_POST (p : Relay.Platform) (req : Relay.Request)
        (f f' : jsstring -> Relay.RequestInit -> Outcome Relay.FetchResponse) :
  Relay.method req <> js "POST"
  \/ (exists err, Relay.json req = Throw err)
  \/ Relay.json req = Ok JNull ->
  Chat.handler (Relay.with_fetch f p) req
  = Chat.handler (Relay.with_fetch f' p) req
  /\ Part001.handler (Relay.with_fetch f p) req
     = Part001.handler (Relay.with_fetch f' p) req.
Proof.
  unfold Chat.handler, Part001.handler.
  intros [Hm|H].
  - rewrite !handler_not_POST by exact Hm. split; reflexivity.
  - destruct (decide (Relay.method req = js "POST")) as [Hm|Hm];
      [|rewrite !handler_not_POST by exact Hm; split; reflexivity].
    destruct H as [[err Hj]|Hj].
    + rewrite !(handler_caught _ _ req err Hm)
        by (apply forward_request_unreadable, Hj).
      split; reflexivity.
    + rewrite !(handler_caught _ _ req _ Hm
                  (forward_null_body _ _ req JNull Hj eq_refl)).
      split; reflexivity.
Qed.

Lemma relay_needs_a_readable_POST_witness :
  Chat.handler (Relay.with_fetch (fun _ _ => Ok Samples.completed)
                                 (Samples.platform (Ok Samples.unauthorized)))
               Samples.post_null
  = Chat.handler (Relay.with_fetch (fun _ _ => Throw Samples.fetch_failed)
                                   (Samples.platform (Ok Samples.unauthorized)))
                 Samples.post_null
  /\ Part001.handler (Relay.with_fetch (fun _ _ => Ok Samples.completed)
                                       (Samples.platform (Ok Samples.unauthorized)))
                     Samples.post_null
     = Part001.handler (Relay.with_fetch (fun _ _ => Throw Samples.fetch_failed)
                                         (Samples.platform (Ok Samples.unauthorized)))
                       Samples.post_null.
Proof.
  apply (relay_needs_a_readable_POST _ Samples.post_null).
  right. right. reflexivity.
Defined.

(** X17. What the relay sends.  For a POST whose body is an object, the
    answer depends on [fetch] through one request only: a POST to the
    fixed address, with the JSON content type and the authorization
    [Bearer] followed by the key of the caller, or by the embedded key
    when the caller gave none, and with the messages of the caller, the
    fixed sampling settings and the model, which is fixed in the first
    revision and the caller's, or a default, in the later one.  When the
    key cannot be converted to a string nothing is sent, and the answer
    does not depend on [fetch] at all. *)
Theorem relay_sends_one_request (p : Relay.Platform) (req : Relay.Request)
        (fields : list (jsstring * value))
        (f f' : jsstring -> Relay.RequestInit -> Outcome Relay.FetchResponse) :
  Relay.method req = js "POST" ->
  Relay.json req = Ok (JObject fields) ->
  let key :=
    if truthy (obj_get (js "apiKey") fields) then obj_get (js "apiKey") fields
    else JString (js "sk-c422zhoyiteawbh22t08jfon8s08dg923r2h9kiw030uetce") in
  let sent bearer model :=
    Relay.mkInit (js "POST")
      [(js "Content-Type", js "application/json");
       (js "Authorization", js "Bearer " ++ bearer)]
      (JSON_stringify
         (JObject
            [(js "model", model);
             (js "messages", obj_get (js "messages") fields);
             (js "temperature", JNumber (js "0.7"));
             (js "max_tokens", JNumber (js "2048"));
             (js "stream", JBool false);
             (js "response_format",
              JObject [(js "type", JString (js "json_object"))])])) in
  let address := js "https://api.xiaomimimo.com/v1/chat/completions" in
  ((forall bearer,
       ToString key = Some bearer ->
       f address (sent bearer (JString (js "mimilm")))
       = f' address (sent bearer (JString (js "mimilm")))) ->
   Chat.handler (Relay.with_fetch f p) req
   = Chat.handler (Relay.with_fetch f' p) req)
  /\ (let model :=
        if truthy (obj_get (js "model") fields) then obj_get (js "model") fields
        else JString (js "mimo-v2-flash") in
      (forall bearer,
          ToString key = Some bearer ->
          f address (sent bearer model) = f' address (sent bearer model)) ->
      Part001.handler (Relay.with_fetch f p) req
      = Part001.handler (Relay.with_fetch f' p) req).
Proof.
  intros Hm Hj key sent address. split.
  - intros Hf. unfold Chat.handler, Relay.handler.
    rewrite !bool_decide_eq_true_2 by exact Hm. cbn [negb].
    unfold Relay.forward. rewrite Hj. cbn.
    unfold Relay.upstream_request.
    change (Relay.or_value _ (JString Relay.embedded_key)) with key.
    destruct (ToString key) as [bearer|]; [|reflexivity]. cbn.
    specialize (Hf bearer eq_refl).
    change (f Relay.API_URL _)
      with (f address (sent bearer (JString (js "mimilm")))).
    change (f' Relay.API_URL _)
      with (f' address (sent bearer (JString (js "mimilm")))).
    rewrite Hf. reflexivity.
  - intros model Hf. unfold Part001.handler, Relay.handler.
    rewrite !bool_decide_eq_true_2 by exact Hm. cbn [negb].
    unfold Relay.forward. rewrite Hj. cbn.
    unfold Relay.upstream_request.
    change (Relay.or_value _ (JString Relay.embedded_key)) with key.
    destruct (ToString key) as [bearer|]; [|reflexivity]. cbn.
    specialize (Hf bearer eq_refl).
    change (f Relay.API_URL _) with (f address (sent bearer model)).
    change (f' Relay.API_URL _) with (f' address (sent bearer model)).
    rewrite Hf. reflexivity.
Qed.

Lemma relay_sends_one_request_witness :
  Chat.handler (Relay.with_fetch (fun _ _ => Ok Samples.completed)
                                 (Samples.platform (Ok Samples.unauthorized)))
               Samples.post_with_key
  = Chat.handler (Relay.with_fetch (Samples.picky_fetch Samples.completed)
                                   (Samples.platform (Ok Samples.unauthorized)))
                 Samples.post_with_key
  /\ Part001.handler (Relay.with_fetch (fun _ _ => Ok Samples.completed)
                                       (Samples.platform (Ok Samples.unauthorized)))
                     Samples.post_with_key
     = Part001.handler (Relay.with_fetch (Samples.picky_fetch Samples.completed)
                                         (Samples.platform (Ok Samples.unauthorized)))
                       Samples.post_with_key.
Proof.
  pose proof (relay_sends_one_request
                (Samples.platform (Ok Samples.unauthorized))
                Samples.post_with_key
                [(js "messages", JArray []);
                 (js "apiKey", JString (js "sk-caller"));
                 (js "model", JString (js "mimo-v2-pro"))]
                (fun _ _ => Ok Samples.completed)
                (Samples.picky_fetch Samples.completed)
                eq_refl eq_refl) as [H1 H2].
  split; [apply H1 | apply H2]; intros bearer [= <-]; reflexivity.
Defined.



(** X19. Whatever goes wrong between the method check and the answer ends
    in status 500 with the message of the error: a request body that is
    not JSON, a body that is [null], a key that cannot be converted to a
    string, a rejected [fetch], an upstream success whose body is not
    JSON, an upstream failure whose body cannot be read. *)
Theorem relay_failures_are_answered_500 (p : Relay.Platform)
        (req : Relay.Request) :
  Relay.method req = js "POST" ->
  let answer err :=
    Ok (Relay.mkResponse 500 Relay.json_headers
          (JSON_stringify (Relay.error_object err))) in
  (forall err, Relay.json req = Throw err -> Chat.handler p req = answer err)
  /\ (Relay.json req = Ok JNull ->
      Chat.handler p req = answer (Relay.destructure_TypeError p))
  /\ (forall fields,
        Relay.json req = Ok (JObject fields) ->
        ToString (Relay.or_value (obj_get (js "apiKey") fields)
                                 (JString Relay.embedded_key)) = None ->
        Chat.handler p req = answer (Relay.primitive_TypeError p))
  /\ (forall fields init err,
        Relay.json req = Ok (JObject fields) ->
        Relay.upstream_request p (obj_get (js "messages") fields)
          (Relay.or_value (obj_get (js "apiKey") fields)
                          (JString Relay.embedded_key))
          (JString (js "mimilm"))
        = Ok init ->
        Relay.fetch p Relay.API_URL init = Throw err ->
        Chat.handler p req = answer err)
  /\ (forall response err,
        Relay.upstream_answers p Chat.targetModel req response ->
        (Relay.ok response = true /\ Relay.fetched_json response = Throw err)
        \/ (Relay.ok response = false /\ Relay.fetched_text response = Throw err) ->
        Chat.handler p req = answer err).
Proof.
  intros Hm answer. subst answer. unfold Chat.handler. repeat split.
  - intros err Hj. apply handler_caught; [exact Hm|].
    apply forward_request_unreadable, Hj.
  - intros Hj. apply handler_caught; [exact Hm|].
    apply (forward_null_body p Chat.targetModel req JNull Hj eq_refl).
  - intros fields Hj Hkey. apply handler_caught; [exact Hm|].
    eapply forward_request_not_built;
      [exact Hj | reflexivity | reflexivity | reflexivity|].
    unfold Relay.upstream_request. rewrite Hkey. reflexivity.
  - intros fields init err Hj Hi Hf. apply handler_caught; [exact Hm|].
    eapply forward_fetch_rejected; [exact Hj | reflexivity | reflexivity
                                    | reflexivity | exact Hi | exact Hf].
  - intros response err Hup H. apply handler_caught; [exact Hm|].
    apply (forward_body_unreadable p Chat.targetModel req response err Hup).
    destruct H as [[-> H]|[-> H]]; exact H.
Qed.

Lemma relay_failures_are_answered_500_witness :
  Chat.handler (Samples.platform (Ok Samples.completed)) Samples.post_null
  = Ok (Relay.mkResponse 500 Relay.json_headers
          (JSON_stringify
             (Relay.error_object
                (Relay.destructure_TypeError
                   (Samples.platform (Ok Samples.completed))))))
  /\ Chat.handler (Samples.platform (Throw Samples.fetch_failed)) Samples.post
     = Ok (Relay.mkResponse 500 Relay.json_headers
             (JSON_stringify (Relay.error_object Samples.fetch_failed)))
  /\ Chat.handler (Samples.platform (Ok Samples.ok_markup)) Samples.post
     = Ok (Relay.mkResponse 500 Relay.json_headers
             (JSON_stringify (Relay.error_object Samples.not_json)))
  /\ Chat.handler (Samples.platform (Ok Samples.completed))
                  Samples.post_odd_key
     = Ok (Relay.mkResponse 500 Relay.json_headers
             (JSON_stringify
                (Relay.error_object
                   (Relay.primitive_TypeError
                      (Samples.platform (Ok Samples.completed)))))).
Proof.
  split; [|split; [|split]].
  - apply (proj1 (proj2 (relay_failures_are_answered_500
                           (Samples.platform (Ok Samples.completed))
                           Samples.post_null eq_refl))).
    reflexivity.
  - eapply (proj1 (proj2 (proj2 (proj2 (relay_failures_are_answered_500
                                  (Samples.platform (Throw Samples.fetch_failed))
                                  Samples.post eq_refl))))
              [(js "messages",
                JArray [JObject [(js "role", JString (js "user"));
                                 (js "content", JString (js "hi"))]])]
              _ Samples.fetch_failed eq_refl eq_refl).
    reflexivity.
  - apply (proj2 (proj2 (proj2 (proj2 (relay_failures_are_answered_500
                                  (Samples.platform (Ok Samples.ok_markup))
                                  Samples.post eq_refl))))
             Samples.ok_markup Samples.not_json
             (sample_upstream_answers Samples.ok_markup)).
    left. split; reflexivity.
  - apply (proj1 (proj2 (proj2 (relay_failures_are_answered_500
                                  (Samples.platform (Ok Samples.completed))
                                  Samples.post_odd_key eq_refl)))
             [(js "messages", JArray []);
              (js "apiKey", JObject [(js "toString", JNumber (js "1"))])]
             eq_refl eq_refl).
Defined.

(** ** The page as a transition system, further *)

Lemma Part000_steps_one_at_a_time (w : World) (es : list Part000.Event)
      (x : Part000.Session) :
  Forall Part000.not_Enter es -> Part000.one_at_a_time x ->
  Part000.one_at_a_time (Part000.steps w es x).
Proof.
  revert x. induction es as [|e es IH]; intros x Hes Hx; [exact Hx|].
  inversion Hes; subst. simpl. apply IH; [assumption|].
  apply Part000_one_at_a_time; assumption.
Qed.

Lemma Index_steps_one_at_a_time (w : World) (API_KEY : option jsstring)
      (es : list Index.Event) (x : Index.Session) :
  Forall Index.not_Enter es -> Index.one_at_a_time x ->
  Index.one_at_a_time (Index.steps w API_KEY es x).
Proof.
  revert x. induction es as [|e es IH]; intros x Hes Hx; [exact Hx|].
  inversion Hes; subst. simpl. apply IH; [assumption|].
  apply Index_one_at_a_time; assumption.
Qed.

(** X20. From the mounted page on, as long as Enter is not pressed in the
    query field, at most one search is in flight, and the loading flag is
    set exactly while one is: the disabled button does its work. *)
Theorem button_allows_one_search (w : World) :
  (forall envKey storage es,
      Forall Part000.not_Enter es ->
      let x := Part000.steps w es (Part000.mounted envKey storage) in
      (Part000.searches_in_flight x <= 1)%nat
      /\ (Part000.loading (Part000.st (Part000.page x)) = true
          <-> Part000.searches_in_flight x = 1%nat))
  /\ (forall API_KEY es,
        Forall Index.not_Enter es ->
        let x := Index.steps w API_KEY es (Index.mkSession Index.initial []) in
        (Index.searches_in_flight x <= 1)%nat
        /\ (Index.loading (Index.st x) = true
            <-> Index.searches_in_flight x = 1%nat)).
Proof.
  split.
  - intros envKey storage es Hes x.
    assert (Hx : Part000.one_at_a_time x).
    { apply Part000_steps_one_at_a_time; [exact Hes|]. left.
      unfold Part000.mounted, Part000.initializeApiKey. simpl.
      repeat match goal with |- context [if ?b then _ else _] => destruct b end;
        split; reflexivity. }
    unfold Part000.searches_in_flight.
    destruct Hx as [[Hl ->]|[Hl (t & -> & _)]]; rewrite Hl; simpl;
      split; try lia; split; intros; congruence.
  - intros API_KEY es Hes x.
    assert (Hx : Index.one_at_a_time x).
    { apply Index_steps_one_at_a_time; [exact Hes|]. left. split; reflexivity. }
    unfold Index.searches_in_flight.
    destruct Hx as [[Hl ->]|[Hl (t & -> & _)]]; rewrite Hl; simpl;
      split; try lia; split; intros; congruence.
Qed.

Lemma button_allows_one_search_witness :
  ((Part000.searches_in_flight
      (Part000.steps Samples.offline Samples.clicks
                     (Part000.mounted (Some Samples.demo_key) ∅)) <= 1)%nat
   /\ (Part000.loading
         (Part000.st (Part000.page
            (Part000.steps Samples.offline Samples.clicks
                           (Part000.mounted (Some Samples.demo_key) ∅))))
       = true
       <-> Part000.searches_in_flight
             (Part000.steps Samples.offline Samples.clicks
                            (Part000.mounted (Some Samples.demo_key) ∅))
           = 1%nat))
  /\ ((Index.searches_in_flight
         (Index.steps Samples.offline None Samples.plain_clicks
                      (Index.mkSession Index.initial [])) <= 1)%nat
      /\ (Index.loading
            (Index.st (Index.steps Samples.offline None Samples.plain_clicks
                                   (Index.mkSession Index.initial [])))
          = true
          <-> Index.searches_in_flight
                (Index.steps Samples.offline None Samples.plain_clicks
                             (Index.mkSession Index.initial []))
              = 1%nat)).
Proof.
  split.
  - apply (proj1 (button_allows_one_search Samples.offline)
             (Some Samples.demo_key) ∅ Samples.clicks).
    repeat constructor.
  - apply (proj2 (button_allows_one_search Samples.offline)
             None Samples.plain_clicks).
    repeat constructor.
Defined.

Lemma Part000_no_chip_for (key : FilterKey) (v : jsstring) :
  key = KtimeLimit \/ key = KmainIngredient -> (key, v) ∉ Part000.chips.
Proof.
  intros Hk. unfold Part000.chips.
  rewrite elem_of_app, !list_elem_of_fmap.
  intros [(l & [= -> _] & _)|(l & [= -> _] & _)]; destruct Hk; discriminate.
Qed.

Lemma toggleFilter_from_chips (chips : list (FilterKey * jsstring))
      (key : FilterKey) (value : jsstring) (f : FilterState) (key' : FilterKey) :
  (key, value) ∈ chips ->
  filter_get key' f = [] \/ (key', filter_get key' f) ∈ chips ->
  filter_get key' (toggleFilter key value f) = []
  \/ (key', filter_get key' (toggleFilter key value f)) ∈ chips.
Proof.
  intros Hc Hf. unfold toggleFilter.
  destruct (decide (key' = key)) as [->|Hne].
  - rewrite filter_get_set_eq. case_decide; auto.
  - rewrite filter_get_set_ne by exact Hne. exact Hf.
Qed.

(** The invariant behind the next theorem: the filters come from the
    chips, and no suspended search will touch the inputs. *)
Lemma Part000_step_from_chips (w : World) (e : Part000.Event)
      (x : Part000.Session) :
  Part000.from_chips (Part000.filters (Part000.st (Part000.page x)))
  /\ Forall (every_update
               (fun f => forall s, Part000.inputs (f s) = Part000.inputs s))
            (Part000.suspended x) ->
  Part000.from_chips
    (Part000.filters (Part000.st (Part000.page (Part000.step w e x))))
  /\ Forall (every_update
               (fun f => forall s, Part000.inputs (f s) = Part000.inputs s))
            (Part000.suspended (Part000.step w e x)).
Proof.
  intros [Hf Hs]. destruct x as [[s ls] sus]. simpl in Hf, Hs.
  assert (Hcall :
            let x' := Part000.call_handleSearch w
                        (Part000.mkSession (Part000.mkPage s ls) sus) in
            Part000.from_chips (Part000.filters (Part000.st (Part000.page x')))
            /\ Forall (every_update
                         (fun f => forall s,
                              Part000.inputs (f s) = Part000.inputs s))
                      (Part000.suspended x')).
  { unfold Part000.call_handleSearch. simpl.
    destruct (advance_every_update Part000.inputs w (Part000.handleSearch s)
                (Part000_handleSearch_keeps_inputs s) s) as [Hi Ht].
    destruct (advance w (Part000.handleSearch s) s) as [s' t]. simpl in *.
    split.
    - injection Hi as _ Hfil _ _. rewrite Hfil. exact Hf.
    - apply Forall_app. split; [exact Hs|].
      destruct t as [t|]; simpl; [|constructor].
      constructor; [apply Ht; reflexivity | constructor]. }
  destruct e; simpl; unfold Part000.handleSaveKey;
    try (repeat (match goal with
                 | |- context [if ?b then _ else _] => destruct b eqn:?
                 end; simpl); split; assumption).
  - destruct (bool_decide _); [exact Hcall | split; assumption].
  - destruct (Part000.loading s); [split; assumption | exact Hcall].
  - destruct (_ && _) eqn:Hb; [|split; assumption]. simpl.
    apply andb_true_iff in Hb as [_ Hc]. apply bool_decide_eq_true in Hc.
    split; [|exact Hs]. intros key'.
    apply toggleFilter_from_chips; [exact Hc | apply Hf].
  - destruct (sus !! i) as [t|] eqn:Hi; [|split; assumption].
    assert (Ht : every_update
                   (fun f => forall s, Part000.inputs (f s) = Part000.inputs s) t).
    { rewrite Forall_forall in Hs. apply Hs.
      eapply list_elem_of_lookup_2, Hi. }
    destruct (settle_every_update Part000.inputs w t Ht s) as [Hin Ht'].
    destruct (settle w t s) as [s' t']. simpl in *. split.
    + injection Hin as _ Hfil _ _. rewrite Hfil. exact Hf.
    + apply Forall_app. split.
      * rewrite Forall_forall in Hs |- *. intros u Hu. apply Hs.
        eapply list_elem_of_delete_inv, Hu.
      * destruct t' as [t'|]; simpl; [|constructor].
        constructor; [apply Ht'; reflexivity | constructor].
Qed.

Lemma Part000_mounted_from_chips (envKey : option jsstring)
      (storage : gmap jsstring jsstring) :
  Part000.from_chips
    (Part000.filters
       (Part000.st (Part000.page (Part000.mounted envKey storage))))
  /\ Forall (every_update
               (fun f => forall s, Part000.inputs (f s) = Part000.inputs s))
            (Part000.suspended (Part000.mounted envKey storage)).
Proof.
  split; [|constructor]. intros key.
  unfold Part000.mounted, Part000.initializeApiKey. simpl.
  repeat match goal with |- context [if ?b then _ else _] => destruct b end;
    left; destruct key; reflexivity.
Qed.

Lemma Part000_steps_from_chips (w : World) (es : list Part000.Event)
      (x : Part000.Session) :
  Part000.from_chips (Part000.filters (Part000.st (Part000.page x)))
  /\ Forall (every_update
               (fun f => forall s, Part000.inputs (f s) = Part000.inputs s))
            (Part000.suspended x) ->
  Part000.from_chips
    (Part000.filters (Part000.st (Part000.page (Part000.steps w es x))))
  /\ Forall (every_update
               (fun f => forall s, Part000.inputs (f s) = Part000.inputs s))
            (Part000.suspended (Part000.steps w es x)).
Proof.
  revert x. induction es as [|e es IH]; intros x Hx; [exact Hx|].
  simpl. apply IH, Part000_step_from_chips, Hx.
Qed.

(** X21. In the revision with a credential store the filters are, at any
    time, unset or the label of a chip; the time limit and the main
    ingredient, for which the page has no control, are never set, so that
    there is something to search for exactly when the query is not
    blank. *)
Theorem filters_come_from_the_chips (w : World) (envKey : option jsstring)
        (storage : gmap jsstring jsstring) (es : list Part000.Event) :
  let s := Part000.st (Part000.page
                         (Part000.steps w es (Part000.mounted envKey storage))) in
  (forall key, filter_get key (Part000.filters s) = []
               \/ (key, filter_get key (Part000.filters s)) ∈ Part000.chips)
  /\ timeLimit (Part000.filters s) = []
  /\ mainIngredient (Part000.filters s) = []
  /\ nothing_to_search (Part000.query s) (Part000.filters s)
     = negb (truthy_string (trim (Part000.query s))).
Proof.
  intros s.
  assert (H : Part000.from_chips (Part000.filters s)).
  { apply (Part000_steps_from_chips w es),
      (Part000_mounted_from_chips envKey storage). }
  split; [exact H|].
  assert (Ht : timeLimit (Part000.filters s) = []).
  { destruct (H KtimeLimit) as [Ht|Ht]; [exact Ht|].
    exfalso. revert Ht. apply Part000_no_chip_for. auto. }
  assert (Hm : mainIngredient (Part000.filters s) = []).
  { destruct (H KmainIngredient) as [Hm|Hm]; [exact Hm|].
    exfalso. revert Hm. apply Part000_no_chip_for. auto. }
  split; [exact Ht|]. split; [exact Hm|].
  unfold nothing_to_search. rewrite Hm. simpl. apply andb_true_r.
Qed.

(** Without a key no event but the submission of one starts a search or
    brings a key back. *)
Lemma Part000_step_without_key (w : World) (e : Part000.Event)
      (x : Part000.Session) :
  (forall value, e <> Part000.SubmitKey value) ->
  Forall (every_update
            (fun f => forall s, Part000.inputs (f s) = Part000.inputs s))
         (Part000.suspended x) ->
  Part000.apiKey (Part000.st (Part000.page x)) = [] ->
  Part000.apiKey (Part000.st (Part000.page (Part000.step w e x))) = []
  /\ (Part000.searches_in_flight (Part000.step w e x)
      <= Part000.searches_in_flight x)%nat.
Proof.
  intros He Hs Hkey. destruct x as [[s ls] sus]. simpl in Hs, Hkey.
  unfold Part000.searches_in_flight.
  assert (Hcall : Part000.call_handleSearch w
                    (Part000.mkSession (Part000.mkPage s ls) sus)
                  = Part000.mkSession
                      (Part000.mkPage (Part000.setShowSettings true s) ls) sus).
  { unfold Part000.call_handleSearch, Part000.handleSearch. simpl.
    rewrite Hkey. simpl. rewrite app_nil_r. reflexivity. }
  destruct e; simpl.
  - auto.
  - destruct (bool_decide _); [rewrite Hcall|]; simpl; auto.
  - destruct (Part000.loading s); [|rewrite Hcall]; simpl; auto.
  - auto.
  - destruct (_ && _); simpl; auto.
  - auto.
  - destruct (Part000.showSettings s); simpl; auto.
  - destruct (He _ eq_refl).
  - rewrite Hkey, andb_false_r. simpl. auto.
  - destruct (sus !! i) as [t|] eqn:Hi; [|simpl; auto].
    assert (Ht : every_update
                   (fun f => forall s, Part000.inputs (f s) = Part000.inputs s) t).
    { rewrite Forall_forall in Hs. apply Hs.
      eapply list_elem_of_lookup_2, Hi. }
    destruct (settle_every_update Part000.inputs w t Ht s) as [Hin _].
    destruct (settle w t s) as [s' t']. simpl in *. split.
    + injection Hin as _ _ _ Hk. congruence.
    + rewrite length_app, length_delete by (rewrite Hi; eauto).
      apply lookup_lt_Some in Hi. destruct t'; simpl; lia.
Qed.

(** X22. Without a key nothing is searched.  Once the page holds no key,
    as after clearing it, and until a key is submitted in the settings,
    the key stays absent and no search is started, whatever is typed,
    clicked or settled: the searches in flight can only become fewer.  A
    key of the environment is not read again. *)
Theorem no_search_until_a_key_is_saved (w : World)
        (envKey : option jsstring) (storage : gmap jsstring jsstring)
        (before after : list Part000.Event) :
  let x := Part000.steps w before (Part000.mounted envKey storage) in
  Part000.apiKey (Part000.st (Part000.page x)) = [] ->
  Forall (fun e => forall value, e <> Part000.SubmitKey value) after ->
  Part000.apiKey (Part000.st (Part000.page (Part000.steps w after x))) = []
  /\ (Part000.searches_in_flight (Part000.steps w after x)
      <= Part000.searches_in_flight x)%nat.
Proof.
  intros x.
  pose proof (Part000_steps_from_chips w before _
                (Part000_mounted_from_chips envKey storage)) as Hx.
  fold x in Hx. clearbody x. revert x Hx.
  induction after as [|e es IH]; intros x Hx Hkey Hes; [simpl; auto|].
  inversion Hes as [|? ? He Hes']; subst. simpl.
  destruct (Part000_step_without_key w e x He (proj2 Hx) Hkey) as [Hk Hle].
  destruct (IH (Part000.step w e x)
               (Part000_step_from_chips w e x Hx) Hk Hes') as [Hk' Hle'].
  split; [exact Hk'|]. lia.
Qed.

Lemma no_search_until_a_key_is_saved_witness :
  Part000.apiKey
    (Part000.st (Part000.page
       (Part000.steps Samples.recipe_and_image Samples.keyless_searches
          (Part000.steps Samples.recipe_and_image Samples.search_and_clear
             (Part000.mounted (Some Samples.demo_key) ∅))))) = []
  /\ (Part000.searches_in_flight
        (Part000.steps Samples.recipe_and_image Samples.keyless_searches
           (Part000.steps Samples.recipe_and_image Samples.search_and_clear
              (Part000.mounted (Some Samples.demo_key) ∅)))
      <= Part000.searches_in_flight
           (Part000.steps Samples.recipe_and_image Samples.search_and_clear
              (Part000.mounted (Some Samples.demo_key) ∅)))%nat.
Proof.
  apply (no_search_until_a_key_is_saved Samples.recipe_and_image
           (Some Samples.demo_key) ∅ Samples.search_and_clear
           Samples.keyless_searches).
  - vm_compute. reflexivity.
  - repeat constructor; discriminate.
Defined.

Lemma Index_step_from_chips (w : World) (API_KEY : option jsstring)
      (e : Index.Event) (x : Index.Session) :
  Index.from_chips (Index.filters (Index.st x))
  /\ Forall (every_update
               (fun f => forall s, Index.inputs (f s) = Index.inputs s))
            (Index.suspended x) ->
  Index.from_chips (Index.filters (Index.st (Index.step w API_KEY e x)))
  /\ Forall (every_update
               (fun f => forall s, Index.inputs (f s) = Index.inputs s))
            (Index.suspended (Index.step w API_KEY e x)).
Proof.
  intros [Hf Hs]. destruct x as [s sus]. simpl in Hf, Hs.
  assert (Hcall :
            let x' := Index.call_handleSearch w API_KEY (Index.mkSession s sus) in
            Index.from_chips (Index.filters (Index.st x'))
            /\ Forall (every_update
                         (fun f => forall s, Index.inputs (f s) = Index.inputs s))
                      (Index.suspended x')).
  { unfold Index.call_handleSearch. simpl.
    destruct (advance_every_update Index.inputs w (Index.handleSearch API_KEY s)
                (Index_handleSearch_keeps_inputs API_KEY s) s) as [Hi Ht].
    destruct (advance w (Index.handleSearch API_KEY s) s) as [s' t].
    simpl in *. split.
    - injection Hi as _ Hfil _. rewrite Hfil. exact Hf.
    - apply Forall_app. split; [exact Hs|].
      destruct t as [t|]; simpl; [|constructor].
      constructor; [apply Ht; reflexivity | constructor]. }
  destruct e; simpl.
  - split; assumption.
  - destruct (bool_decide _); [exact Hcall | split; assumption].
  - destruct (Index.loading s); [split; assumption | exact Hcall].
  - split; assumption.
  - destruct (_ && _) eqn:Hb; [|split; assumption]. simpl.
    apply andb_true_iff in Hb as [_ Hc]. apply bool_decide_eq_true in Hc.
    split; [|exact Hs]. intros key' Hk.
    apply toggleFilter_from_chips; [exact Hc | apply Hf, Hk].
  - destruct (Index.showFilters s); [|split; assumption]. simpl.
    split; [|exact Hs]. intros key' Hk.
    destruct key'; [apply (Hf Kcuisine Hk) | apply (Hf KtimeLimit Hk)
                    | apply (Hf Kdifficulty Hk) | congruence].
  - destruct (sus !! i) as [t|] eqn:Hi; [|split; assumption].
    assert (Ht : every_update
                   (fun f => forall s, Index.inputs (f s) = Index.inputs s) t).
    { rewrite Forall_forall in Hs. apply Hs.
      eapply list_elem_of_lookup_2, Hi. }
    destruct (settle_every_update Index.inputs w t Ht s) as [Hin Ht'].
    destruct (settle w t s) as [s' t']. simpl in *. split.
    + injection Hin as _ Hfil _. rewrite Hfil. exact Hf.
    + apply Forall_app. split.
      * rewrite Forall_forall in Hs |- *. intros u Hu. apply Hs.
        eapply list_elem_of_delete_inv, Hu.
      * destruct t' as [t'|]; simpl; [|constructor].
        constructor; [apply Ht'; reflexivity | constructor].
Qed.

(** X23. In the revision without a credential store the main ingredient
    is the one filter that is typed in: each of the others is, at any
    time, unset or the label of one of its chips. *)
Theorem only_the_ingredient_is_typed (w : World) (API_KEY : option jsstring)
        (es : list Index.Event) (key : FilterKey) :
  key <> KmainIngredient ->
  let f := Index.filters
             (Index.st (Index.steps w API_KEY es
                                    (Index.mkSession Index.initial []))) in
  filter_get key f = [] \/ (key, filter_get key f) ∈ Index.chips.
Proof.
  intros Hk f. subst f.
  enough (Hinv : forall x,
             Index.from_chips (Index.filters (Index.st x))
             /\ Forall (every_update
                          (fun f => forall s,
                               Index.inputs (f s) = Index.inputs s))
                       (Index.suspended x) ->
             Index.from_chips
               (Index.filters (Index.st (Index.steps w API_KEY es x)))).
  { apply Hinv; [|exact Hk]. split; [|constructor].
    intros key' _. left. destruct key'; reflexivity. }
  induction es as [|e es IH]; intros x Hx; [apply Hx|].
  simpl. apply IH, Index_step_from_chips, Hx.
Qed.

Lemma only_the_ingredient_is_typed_witness :
  filter_get KtimeLimit
    (Index.filters
       (Index.st (Index.steps Samples.offline None Samples.chip_clicks
                              (Index.mkSession Index.initial [])))) = []
  \/ (KtimeLimit,
      filter_get KtimeLimit
        (Index.filters
           (Index.st (Index.steps Samples.offline None Samples.chip_clicks
                                  (Index.mkSession Index.initial [])))))
     ∈ Index.chips.
Proof.
  apply (only_the_ingredient_is_typed Samples.offline None
           Samples.chip_clicks KtimeLimit).
  discriminate.
Defined.

Lemma toggle_on_chips (chips : list (FilterKey * jsstring)) (f : FilterState)
      (key : FilterKey) (value : jsstring) :
  Forall (fun c => c.2 <> []) chips -> (key, value) ∈ chips ->
  chip_active (toggleFilter key value f) (key, value)
  = negb (chip_active f (key, value))
  /\ (forall label, label <> value -> (key, label) ∈ chips ->
        chip_active (toggleFilter key value f) (key, label) = false)
  /\ (forall c, c.1 <> key ->
        chip_active (toggleFilter key value f) c = chip_active f c).
Proof.
  intros Hne Hc. rewrite Forall_forall in Hne.
  pose proof (Hne _ Hc) as Hv. simpl in Hv.
  unfold chip_active, toggleFilter. simpl. repeat split.
  - rewrite filter_get_set_eq.
    destruct (decide (filter_get key f = value)) as [Heq|Hneq].
    + rewrite (bool_decide_eq_true_2 _ Heq). simpl.
      apply bool_decide_eq_false_2. congruence.
    + rewrite (bool_decide_eq_false_2 _ Hneq). simpl.
      apply bool_decide_eq_true_2. reflexivity.
  - intros label Hl Hin. rewrite filter_get_set_eq.
    pose proof (Hne _ Hin) as Hlne. simpl in Hlne.
    apply bool_decide_eq_false_2. case_decide; congruence.
  - intros c Hk. rewrite filter_get_set_ne by exact Hk. reflexivity.
Qed.

(** X24. A click on a chip of the open filter panel, in either revision:
    the chip changes between active and inactive, every other chip of its
    group is inactive afterwards, and the chips of the other groups are
    as they were. *)
Theorem chip_click_on_the_panel (w : World) (key : FilterKey)
        (value : jsstring) :
  (forall x,
      Part000.showFilters (Part000.st (Part000.page x)) = true ->
      (key, value) ∈ Part000.chips ->
      let f := Part000.filters (Part000.st (Part000.page x)) in
      let f' := Part000.filters
                  (Part000.st (Part000.page
                     (Part000.step w (Part000.ClickChip key value) x))) in
      chip_active f' (key, value) = negb (chip_active f (key, value))
      /\ (forall label, label <> value -> (key, label) ∈ Part000.chips ->
            chip_active f' (key, label) = false)
      /\ (forall c, c.1 <> key -> chip_active f' c = chip_active f c))
  /\ (forall API_KEY x,
        Index.showFilters (Index.st x) = true ->
        (key, value) ∈ Index.chips ->
        let f := Index.filters (Index.st x) in
        let f' := Index.filters
                    (Index.st (Index.step w API_KEY
                                          (Index.ClickChip key value) x)) in
        chip_active f' (key, value) = negb (chip_active f (key, value))
        /\ (forall label, label <> value -> (key, label) ∈ Index.chips ->
              chip_active f' (key, label) = false)
        /\ (forall c, c.1 <> key -> chip_active f' c = chip_active f c)).
Proof.
  split.
  - intros x Hshow Hc f f'. subst f f'. simpl. rewrite Hshow.
    rewrite (bool_decide_eq_true_2 _ Hc). simpl.
    apply (toggle_on_chips Part000.chips); [|exact Hc].
    refine (bool_decide_unpack _ _). vm_compute. exact I.
  - intros API_KEY x Hshow Hc f f'. subst f f'. simpl. rewrite Hshow.
    rewrite (bool_decide_eq_true_2 _ Hc). simpl.
    apply (toggle_on_chips Index.chips); [|exact Hc].
    refine (bool_decide_unpack _ _). vm_compute. exact I.
Qed.

Lemma chip_click_on_the_panel_witness :
  (chip_active
     (Part000.filters
        (Part000.st (Part000.page
           (Part000.step Samples.offline
              (Part000.ClickChip Kcuisine (js "粤菜")) Samples.open_panel))))
     (Kcuisine, js "粤菜") = true
   /\ chip_active
        (Part000.filters
           (Part000.st (Part000.page
              (Part000.step Samples.offline
                 (Part000.ClickChip Kcuisine (js "粤菜")) Samples.open_panel))))
        (Kcuisine, js "川菜") = false)
  /\ chip_active
       (Index.filters
          (Index.st (Index.step Samples.offline None
                       (Index.ClickChip Kcuisine (js "川菜"))
                       Samples.plain_open_panel)))
       (Kcuisine, js "川菜") = false.
Proof.
  split; [split|].
  - apply (proj1 (proj1 (chip_click_on_the_panel Samples.offline Kcuisine
                           (js "粤菜"))
                    Samples.open_panel eq_refl
                    ltac:(refine (bool_decide_unpack _ _); vm_compute;
                          exact I))).
  - apply (proj1 (proj2 (proj1 (chip_click_on_the_panel Samples.offline
                                  Kcuisine (js "粤菜"))
                           Samples.open_panel eq_refl
                           ltac:(refine (bool_decide_unpack _ _); vm_compute;
                                 exact I)))
             (js "川菜")).
    + vm_compute. discriminate.
    + refine (bool_decide_unpack _ _). vm_compute. exact I.
  - apply (proj1 (proj2 (chip_click_on_the_panel Samples.offline Kcuisine
                           (js "川菜"))
                    None Samples.plain_open_panel eq_refl
                    ltac:(refine (bool_decide_unpack _ _); vm_compute;
                          exact I))).
Defined.

(** ** What the page shows after a search *)

Lemma child_None (v : value) : child v = None <-> renderable v = false.
Proof. unfold child. destruct (renderable v); split; congruence. Qed.

(** A falsy value is never an object: [recipe.rating || '4.9'] is
    refused exactly when the rating is. *)
Lemma child_or_default (v : value) (d : jsstring) :
  child (if truthy v then v else JString d) = None <-> renderable v = false.
Proof.
  rewrite child_None. destruct (truthy v) eqn:Hv; [reflexivity|].
  destruct v; simpl in *; split; congruence.
Qed.

Lemma field_merged (props : list (jsstring * value)) (img : option jsstring)
      (k : jsstring) :
  k <> js "imageUrl" ->
  field k (with_imageUrl (JObject props) img) = obj_get k props.
Proof. intros Hk. apply (proj2 (field_with_imageUrl (JObject props) img) k Hk). Qed.

Lemma data_uri_truthy (b : Blob) : truthy_string (data_uri b) = true.
Proof.
  unfold data_uri. destruct (js "data:") eqn:E; [|reflexivity].
  vm_compute in E. discriminate.
Qed.

Lemma Part000_generated_truthy (ir : GenerateContentResponse) (u : jsstring) :
  Part000.generatedImageUrl ir = Some u -> truthy_string u = true.
Proof.
  unfold Part000.generatedImageUrl.
  destruct (first_parts ir) as [ps|]; simpl; [|discriminate].
  destruct (find has_inlineData ps) as [part|]; simpl; [|discriminate].
  destruct (inlineData part) as [b|]; simpl; [|discriminate].
  intros [= <-]. apply data_uri_truthy.
Qed.

Lemma Part000_card_None (rec : value) :
  Part000.card rec = None
  <-> Exists (fun k => renderable (field k rec) = false)
             [js "rating"; js "title"; js "totalTime"; js "difficulty";
              js "summary"]
      \/ Exists (fun k => map_children (field k rec) = None)
                [js "ingredients"; js "steps"].
Proof.
  rewrite !Exists_cons, !Exists_nil. unfold Part000.card.
  rewrite <- (child_or_default (field (js "rating") rec) (js "4.9")).
  rewrite <- !child_None.
  destruct (child (if truthy _ then _ else _)); simpl; [|tauto].
  destruct (child (field (js "title") rec)); simpl; [|tauto].
  destruct (child (field (js "totalTime") rec)); simpl; [|tauto].
  destruct (child (field (js "difficulty") rec)); simpl; [|tauto].
  destruct (child (field (js "summary") rec)); simpl; [|tauto].
  destruct (map_children (field (js "ingredients") rec)); simpl; [|tauto].
  destruct (map_children (field (js "steps") rec)); simpl; [|tauto].
  split; [discriminate|].
  intros [[?|[?|[?|[?|[?|[]]]]]]|[?|[?|[]]]]; discriminate.
Qed.

Lemma Part000_card_image (rec : value) (c : Part000.Card) :
  Part000.card rec = Some c ->
  Part000.card_image c
  = if truthy (field (js "imageUrl") rec)
    then Some (field (js "imageUrl") rec) else None.
Proof.
  unfold Part000.card.
  destruct (child (if truthy _ then _ else _)); simpl; [|discriminate].
  destruct (child (field (js "title") rec)); simpl; [|discriminate].
  destruct (child (field (js "totalTime") rec)); simpl; [|discriminate].
  destruct (child (field (js "difficulty") rec)); simpl; [|discriminate].
  destruct (child (field (js "summary") rec)); simpl; [|discriminate].
  destruct (map_children (field (js "ingredients") rec)); simpl; [|discriminate].
  destruct (map_children (field (js "steps") rec)); simpl; [|discriminate].
  intros [= <-]. reflexivity.
Qed.

Lemma Part000_results_merged (s0 : Part000.State) (data : value)
      (img : option jsstring) :
  Part000.results
    (Part000.setLoading false
       (Part000.setRecipe (Some (with_imageUrl data img)) s0))
  = match Part000.card (with_imageUrl data img) with
    | Some c => Shown c
    | None => Crashed
    end.
Proof. reflexivity. Qed.

Ltac names_differ :=
  let H := fresh in intros H; vm_compute in H; discriminate.

(** X25. The page after a search of the sequential revision whose reply
    parsed to an object.  The reply is put on the page unchecked: the
    card is shown, or rendering throws and the page is lost.  It is lost
    exactly when the rating, the title, the total time, the difficulty or
    the summary is an object (or an array that holds one), or when the
    ingredients or the steps are not an array of values that can be
    printed; a reply without them, as the empty object is, loses the
    page. *)
Theorem unchecked_reply_can_lose_the_page (w : World) (s : Part000.State)
        (ai : GoogleGenAI) (r : GenerateContentResponse)
        (props : list (jsstring * value)) :
  Part000.reaches_provider w s ai ->
  generateContent w (mkCall ai (Part000.textRequest s)) = Ok r ->
  JSON_parse (Part000.text_or_empty_object r) = Ok (JObject props) ->
  let s' := (run w (Part000.handleSearch s) s).1 in
  (Part000.results s' = Crashed \/ exists c, Part000.results s' = Shown c)
  /\ (Part000.results s' = Crashed
      <-> Exists (fun k => renderable (obj_get k props) = false)
                 [js "rating"; js "title"; js "totalTime"; js "difficulty";
                  js "summary"]
          \/ Exists (fun k => map_children (obj_get k props) = None)
                    [js "ingredients"; js "steps"]).
Proof.
  intros Hreach Htext Hparse s'.
  destruct (Part000_parsed w s ai Hreach r (JObject props) Htext Hparse)
    as (img & calls & Hrun).
  subst s'. rewrite Hrun. cbn [fst]. rewrite Part000_results_merged.
  pose proof (Part000_card_None (with_imageUrl (JObject props) img)) as Hc.
  rewrite !Exists_cons, !Exists_nil in Hc.
  rewrite !field_merged in Hc by names_differ.
  rewrite !Exists_cons, !Exists_nil.
  destruct (Part000.card (with_imageUrl (JObject props) img)) as [c|].
  - split; [right; eexists; reflexivity|].
    rewrite <- Hc. split; discriminate.
  - split; [left; reflexivity|].
    rewrite <- Hc. split; reflexivity.
Qed.

Lemma unchecked_reply_can_lose_the_page_witness :
  Part000.results
    (run Samples.empty_object_reply (Part000.handleSearch Samples.keyed_query)
         Samples.keyed_query).1 = Crashed.
Proof.
  apply (proj2 (unchecked_reply_can_lose_the_page Samples.empty_object_reply
                  Samples.keyed_query (mkClient (Some Samples.demo_key))
                  (Samples.text_response empty_object_text) []
                  ltac:(split; [vm_compute; discriminate | split; reflexivity])
                  eq_refl eq_refl)).
  right. apply Exists_cons_hd. reflexivity.
Defined.

(** X26. The image of the card in the sequential revision is the
    generated one or none: when the card is shown, its image is the data
    URI extracted from the reply of the image call made for the title,
    and the placeholder when that call was rejected, its reply holds no
    inline data, or no call was made because the prompt could not be
    built.  An [imageUrl] of the text reply is never shown. *)
Theorem card_image_is_the_generated_one (w : World) (s : Part000.State)
        (ai : GoogleGenAI) (r : GenerateContentResponse)
        (props : list (jsstring * value)) (c : Part000.Card) :
  Part000.reaches_provider w s ai ->
  generateContent w (mkCall ai (Part000.textRequest s)) = Ok r ->
  JSON_parse (Part000.text_or_empty_object r) = Ok (JObject props) ->
  Part000.results (run w (Part000.handleSearch s) s).1 = Shown c ->
  Part000.card_image c
  = match Part000.imageRequest (obj_get (js "title") props) with
    | Some request =>
        match generateContent w (mkCall ai request) with
        | Ok ir => JString <$> Part000.generatedImageUrl ir
        | Throw _ => None
        end
    | None => None
    end.
Proof.
  intros Hreach Htext Hparse.
  assert (Htitle : get_prop (JObject props) (js "title")
                   ≫= Part000.imageRequest
                   = Part000.imageRequest (obj_get (js "title") props))
    by reflexivity.
  assert (Himage : forall img,
             Part000.results
               (Part000.setLoading false
                  (Part000.setRecipe
                     (Some (with_imageUrl (JObject props) img))
                     (Part000.pending_state s))) = Shown c ->
             Part000.card_image c
             = (if truthy_string (default [] img) then JString <$> img
                else None)).
  { intros img. rewrite Part000_results_merged.
    destruct (Part000.card _) as [c'|] eqn:Hc; [|discriminate].
    intros [= ->]. rewrite (Part000_card_image _ _ Hc).
    rewrite (proj1 (field_with_imageUrl (JObject props) img)).
    destruct img as [u|]; reflexivity. }
  destruct (Part000.imageRequest (obj_get (js "title") props))
    as [request|] eqn:Hbuilt.
  - destruct (generateContent w (mkCall ai request)) as [ir|err] eqn:Himg.
    + rewrite (Part000_image_resolved w s ai Hreach r ir (JObject props)
                 request Htext Hparse Htitle Himg).
      cbn [fst]. intros Hres. rewrite (Himage _ Hres).
      destruct (Part000.generatedImageUrl ir) as [u|] eqn:Hu; [|reflexivity].
      simpl. rewrite (Part000_generated_truthy ir u Hu). reflexivity.
    + rewrite (Part000_image_rejected w s ai Hreach r (JObject props)
                 request err Htext Hparse Htitle Himg).
      cbn [fst]. intros Hres. rewrite (Himage _ Hres). reflexivity.
  - rewrite (Part000_title_throws w s ai Hreach r (JObject props)
               Htext Hparse Htitle).
    cbn [fst]. intros Hres. rewrite (Himage _ Hres). reflexivity.
Qed.

Lemma card_image_is_the_generated_one_witness :
  Part000.results
    (run Samples.recipe_and_image (Part000.handleSearch Samples.keyed_query)
         Samples.keyed_query).1 = Shown Samples.bare_card
  /\ Part000.card_image Samples.bare_card
     = Some (JString (js "data:image/png;base64,iVBORw0KGgo=")).
Proof.
  assert (H : Part000.results
                (run Samples.recipe_and_image
                     (Part000.handleSearch Samples.keyed_query)
                     Samples.keyed_query).1 = Shown Samples.bare_card)
    by (vm_compute; reflexivity).
  split; [exact H|].
  apply (card_image_is_the_generated_one Samples.recipe_and_image
           Samples.keyed_query (mkClient (Some Samples.demo_key))
           (Samples.text_response (Samples.text_of Samples.bare_recipe))
           (own_props Samples.bare_recipe) Samples.bare_card
           ltac:(split; [vm_compute; discriminate | split; reflexivity])
           eq_refl eq_refl H).
Defined.

Lemma first_inline_truthy (ps : list Part) (u : jsstring) :
  Index.first_inline ps = Some u -> truthy_string u = true.
Proof.
  induction ps as [|part ps IH]; simpl; [discriminate|].
  destruct (inlineData part) as [b|]; [|exact IH].
  intros [= <-]. apply data_uri_truthy.
Qed.

Lemma Index_card_None (rec : value) :
  Index.card rec = None
  <-> Exists (fun k => renderable (field k rec) = false)
             [js "rating"; js "reviewCount"; js "title"; js "cuisine";
              js "totalTime"; js "calories"; js "summary"]
      \/ Exists (fun k => map_children (field k rec) = None)
                [js "ingredients"; js "steps"].
Proof.
  rewrite !Exists_cons, !Exists_nil. unfold Index.card.
  rewrite <- !child_None.
  destruct (child (field (js "rating") rec)); simpl; [|tauto].
  destruct (child (field (js "reviewCount") rec)); simpl; [|tauto].
  destruct (child (field (js "title") rec)); simpl; [|tauto].
  destruct (child (field (js "cuisine") rec)); simpl; [|tauto].
  destruct (child (field (js "totalTime") rec)); simpl; [|tauto].
  destruct (child (field (js "calories") rec)); simpl; [|tauto].
  destruct (child (field (js "summary") rec)); simpl; [|tauto].
  destruct (map_children (field (js "ingredients") rec)); simpl; [|tauto].
  destruct (map_children (field (js "steps") rec)); simpl; [|tauto].
  split; [discriminate|].
  intros [[?|[?|[?|[?|[?|[?|[?|[]]]]]]]]|[?|[?|[]]]]; discriminate.
Qed.

Lemma Index_card_image (rec : value) (c : Index.Card) :
  Index.card rec = Some c ->
  Index.card_image c
  = if truthy (field (js "imageUrl") rec)
    then Some (field (js "imageUrl") rec) else None.
Proof.
  unfold Index.card.
  destruct (child (field (js "rating") rec)); simpl; [|discriminate].
  destruct (child (field (js "reviewCount") rec)); simpl; [|discriminate].
  destruct (child (field (js "title") rec)); simpl; [|discriminate].
  destruct (child (field (js "cuisine") rec)); simpl; [|discriminate].
  destruct (child (field (js "totalTime") rec)); simpl; [|discriminate].
  destruct (child (field (js "calories") rec)); simpl; [|discriminate].
  destruct (child (field (js "summary") rec)); simpl; [|discriminate].
  destruct (map_children (field (js "ingredients") rec)); simpl; [|discriminate].
  destruct (map_children (field (js "steps") rec)); simpl; [|discriminate].
  intros [= <-]. reflexivity.
Qed.

(** X27. The page after a search of the parallel revision whose two
    calls were fulfilled and whose text parsed to an object.  The card
    is shown, or rendering throws and the page is lost; it is lost
    exactly when one of the seven printed fields is an object (or an
    array that holds one), or when the ingredients or the steps are not
    an array of values that can be printed.  The image of a card that is
    shown is the generated one, or the placeholder when the image reply
    holds no inline data. *)
Theorem parallel_reply_can_lose_the_page (w : World)
        (API_KEY : option jsstring) (s : Index.State) (ai : GoogleGenAI)
        (r ir : GenerateContentResponse) (props : list (jsstring * value)) :
  Index.reaches_provider w API_KEY s ai ->
  generateContent w (mkCall ai (Index.textRequest s)) = Ok r ->
  generateContent w (mkCall ai (Index.imageRequest s)) = Ok ir ->
  Index.parse_text r = Ok (JObject props) ->
  let s' := (run w (Index.handleSearch API_KEY s) s).1 in
  (Index.results s' = Crashed
   <-> Exists (fun k => renderable (obj_get k props) = false)
              [js "rating"; js "reviewCount"; js "title"; js "cuisine";
               js "totalTime"; js "calories"; js "summary"]
       \/ Exists (fun k => map_children (obj_get k props) = None)
                 [js "ingredients"; js "steps"])
  /\ (Index.results s' = Crashed
      \/ exists c, Index.results s' = Shown c
                   /\ Index.card_image c
                      = JString <$> Index.generatedImageUrl ir).
Proof.
  intros Hreach Htext Himg Hparse s'. subst s'.
  rewrite (Index_parsed w API_KEY s ai Hreach r ir (JObject props)
             Htext Himg Hparse).
  cbn [fst truthy].
  change (Index.results _)
    with (match Index.card (with_imageUrl (JObject props)
                              (Index.generatedImageUrl ir)) with
          | Some c => Shown c
          | None => @Crashed Index.Card
          end).
  pose proof (Index_card_None
                (with_imageUrl (JObject props) (Index.generatedImageUrl ir)))
    as Hc.
  rewrite !Exists_cons, !Exists_nil in Hc.
  rewrite !field_merged in Hc by names_differ.
  rewrite !Exists_cons, !Exists_nil.
  destruct (Index.card _) as [c|] eqn:Hcard.
  - split; [rewrite <- Hc; split; discriminate|].
    right. exists c. split; [reflexivity|].
    rewrite (Index_card_image _ _ Hcard).
    rewrite (proj1 (field_with_imageUrl (JObject props) _)).
    destruct (Index.generatedImageUrl ir) as [u|] eqn:Hu; [|reflexivity].
    simpl. unfold Index.generatedImageUrl in Hu.
    destruct (first_parts ir) as [ps|]; simpl in Hu; [|discriminate].
    rewrite (first_inline_truthy ps u Hu). reflexivity.
  - split; [rewrite <- Hc; split; reflexivity|]. left. reflexivity.
Qed.

Lemma parallel_reply_can_lose_the_page_witness :
  Index.results
    (run Samples.empty_object_and_image
         (Index.handleSearch (Some Samples.demo_key) Samples.plain_query)
         Samples.plain_query).1 = Crashed.
Proof.
  apply (proj2 (proj1 (parallel_reply_can_lose_the_page
                         Samples.empty_object_and_image
                         (Some Samples.demo_key) Samples.plain_query
                         (mkClient (Some Samples.demo_key))
                         (Samples.text_response empty_object_text)
                         Samples.image_response []
                         ltac:(split; reflexivity) eq_refl eq_refl eq_refl))).
  right. apply Exists_cons_hd. reflexivity.
Defined.

(** The failure message is put before the detail, and holds no [Key]
    itself. *)
Lemma includes_Key_after_prefix (d : jsstring) :
  includes (js "生成失败: " ++ d) (js "Key") = includes d (js "Key").
Proof.
  let p := eval vm_compute in (js "生成失败: ") in
  change (js "生成失败: ") with p.
  let k := eval vm_compute in (js "Key") in change (js "Key") with k.
  reflexivity.
Qed.

Lemma truthy_after_prefix (d : jsstring) :
  truthy_string (js "生成失败: " ++ d) = true.
Proof.
  let p := eval vm_compute in (js "生成失败: ") in
  change (js "生成失败: ") with p.
  reflexivity.
Qed.

(** X28. The link to the settings under the error of a search whose text
    call was rejected: the error box is shown, and the link is under it
    when the failure was taken for a credential error, or when it was
    taken neither for that nor for rate limiting and the message of the
    error itself holds the word Key.  The rate-limit message never has
    the link. *)
Theorem settings_link_under_the_error (w : World) (s : Part000.State)
        (ai : GoogleGenAI) (err : JsError) :
  Part000.reaches_provider w s ai ->
  generateContent w (mkCall ai (Part000.textRequest s)) = Throw err ->
  let s' := (run w (Part000.handleSearch s) s).1 in
  exists m,
    Part000.error s' = Some m
    /\ Part000.error_box s'
       = Some (m,
               Part000.message_includes err (js "403")
               || Part000.message_includes err (js "API_KEY_INVALID")
               || negb (Part000.message_includes err (js "429"))
                  && Part000.message_includes err (js "Key")).
Proof.
  intros Hreach Htext s'. subst s'.
  rewrite (Part000_text_rejected w s ai Hreach err Htext). cbn [fst].
  unfold Part000.catch.
  destruct (Part000.message_includes err (js "403")
            || Part000.message_includes err (js "API_KEY_INVALID")).
  - eexists. split; [reflexivity|]. vm_compute. reflexivity.
  - destruct (Part000.message_includes err (js "429")).
    + eexists. split; [reflexivity|]. vm_compute. reflexivity.
    + eexists. split; [reflexivity|].
      unfold Part000.error_box. cbn [run fst Part000.finally].
      cbn [Part000.error Part000.setLoading Part000.setError].
      rewrite truthy_after_prefix, includes_Key_after_prefix.
      unfold Part000.message_includes.
      destruct (message err) as [[|c m]|]; simpl;
        try reflexivity; vm_compute; reflexivity.
Qed.

Lemma settings_link_under_the_error_witness :
  exists m,
    Part000.error
      (run Samples.key_rejected (Part000.handleSearch Samples.keyed_query)
           Samples.keyed_query).1 = Some m
    /\ Part000.error_box
         (run Samples.key_rejected (Part000.handleSearch Samples.keyed_query)
              Samples.keyed_query).1
       = Some (m,
               Part000.message_includes Samples.forbidden (js "403")
               || Part000.message_includes Samples.forbidden
                                           (js "API_KEY_INVALID")
               || negb (Part000.message_includes Samples.forbidden (js "429"))
                  && Part000.message_includes Samples.forbidden (js "Key")).
Proof.
  apply (settings_link_under_the_error Samples.key_rejected
           Samples.keyed_query (mkClient (Some Samples.demo_key))
           Samples.forbidden).
  - split; [vm_compute; discriminate | split; reflexivity].
  - reflexivity.
Defined.

(** ** The labels of the steps *)

Lemma pretty_N_char_ascii (x : N) : N_of_ascii (pretty_N_char x) < 0x80.
Proof.
  unfold pretty_N_char.
  repeat match goal with
         | |- context [match ?x with _ => _ end] => destruct x
         end; reflexivity.
Qed.

Lemma pretty_N_go_digits (x : N) (s : string) :
  exists p : list ascii,
    list_ascii_of_string (pretty_N_go x s) = p ++ list_ascii_of_string s
    /\ Forall (fun c => N_of_ascii c < 0x80) p
    /\ (0 < x -> (1 <= length p)%nat)
    /\ (10 <= x -> (2 <= length p)%nat).
Proof.
  revert s. induction (N.lt_wf_0 x) as [x _ IH]. intros s.
  destruct (decide (x = 0)) as [->|Hx].
  - exists []. rewrite pretty_N_go_0. repeat split; [constructor|lia|lia].
  - rewrite pretty_N_go_step by lia.
    destruct (IH (x `div` 10) ltac:(apply N.div_lt; lia)
                (String (pretty_N_char (x `mod` 10)) s))
      as (p & Heq & Hp & H1 & _).
    exists (p ++ [pretty_N_char (x `mod` 10)]).
    rewrite Heq. simpl. rewrite <- app_assoc. simpl.
    split; [reflexivity|]. split.
    + apply Forall_app. split; [exact Hp|].
      constructor; [apply pretty_N_char_ascii | constructor].
    + rewrite length_app. simpl. split; [lia|]. intros H10.
      assert (0 < x `div` 10) by (apply N.div_str_pos; lia).
      specialize (H1 ltac:(assumption)). lia.
Qed.

Lemma utf8_ascii (l : list ascii) :
  Forall (fun c => N_of_ascii c < 0x80) l ->
  flat_map utf16_units (utf8_points (map N_of_ascii l)) = map N_of_ascii l.
Proof.
  induction 1 as [|c l Hc _ IH]; [reflexivity|].
  cbn [map utf8_points].
  destruct (N.ltb_spec (N_of_ascii c) 0x80) as [_|]; [|lia].
  cbn [flat_map]. rewrite IH. unfold utf16_units.
  destruct (N.ltb_spec (N_of_ascii c) 0x10000) as [_|]; [reflexivity|lia].
Qed.

Lemma Number_toString_long (n : Z) :
  (10 <= n)%Z -> (2 <= length (Number_toString n))%nat.
Proof.
  intros Hn. destruct n as [|p|p]; try lia.
  unfold Number_toString, js, pretty, pretty_Z, pretty, pretty_positive,
    pretty, pretty_N.
  rewrite decide_False by discriminate.
  destruct (pretty_N_go_digits (N.pos p) EmptyString)
    as (d & Heq & Hd & _ & H2).
  rewrite Heq. simpl. rewrite app_nil_r, (utf8_ascii d Hd), length_map.
  apply H2. lia.
Qed.

(** X29. The labels of the steps in the revision with a credential
    store: the first nine steps are numbered with a leading zero, and
    from the tenth on the label is the number as it is, of whatever
    length. *)
Theorem step_labels_are_zero_padded (idx : nat) :
  ((idx < 9)%nat ->
   Part000.stepLabel idx = js "0" ++ Number_toString (Z.of_nat idx + 1))
  /\ ((9 <= idx)%nat ->
      Part000.stepLabel idx = Number_toString (Z.of_nat idx + 1)).
Proof.
  split.
  - intros Hlt.
    do 9 (destruct idx as [|idx]; [vm_compute; reflexivity|]). lia.
  - intros Hge. unfold Part000.stepLabel, padStart.
    pose proof (Number_toString_long (Z.of_nat idx + 1) ltac:(lia)) as Hlen.
    replace (2 - length (Number_toString (Z.of_nat idx + 1)))%nat
      with 0%nat by lia.
    reflexivity.
Qed.
